(** * Bay Area surf almanac: the conditions-scoring and time-window engine

    A shallow embedding of the scoring engine and the properties the
    specification states about it.  The functions come from [src/lib/utils.ts]
    ([normalizeAngle]), [src/lib/api/tides.ts] ([getCurrentTideHeight]),
    [src/lib/spots.ts] ([getHistoricalPercentile]) and [src/lib/sun.ts], which
    holds the dawn patrol code and, after it, the scoring module the
    components import as [lib/scoring]; the records are those of [types.ts].

    Modelling conventions.
    - A JavaScript [number] is the rational it denotes ([Q]); equality of
      computed heights and angles is [Qeq] ([==]).  Sub-scores and scores,
      which the code always produces through [Math.round] or integer literals,
      are [Z].  NaN, the infinities and the sign of zero are outside the
      model.
    - Arithmetic rounds to the nearest double ([Binary64]) where the rounding
      decides what the code returns: in the ramps of [scoreWaveHeight], the
      share and the thresholds of [scoreTide], the product of [scoreWind], the
      weighted sum of [calculateSpotScore], the loops of [normalizeAngle]
      ([normalizeAngle64]) and the quotient of [getCardinalDirection].  The
      other functions are stated over exact arithmetic; the properties proved
      of them are ranges, orders and threshold tests.
    - A [Date] is its epoch value in milliseconds ([Z]); the clock
      ([new Date()]) is an explicit argument.  [setMinutes] arithmetic is
      addition of whole minutes on the epoch value.
    - Locale-dependent formatting ([toLocaleTimeString]), the local-time
      accessor [getHours] and [Math.tanh] are section variables.
    - Objects used as tables ([SKILL_CONFIGS], [HISTORICAL_AVERAGES]) are
      finite maps of their own properties.  What a key that is no own property
      of [SKILL_CONFIGS] finds along the chain of prototypes is given by the
      host ([PrototypeChain]). *)

From Stdlib Require Import ZArith QArith Qround Qabs Qpower Qreduction Lia Lqa.
From Stdlib Require Import Floats.
From Stdlib Require Import List String Ascii.
From stdpp Require Import gmap strings pretty sorting.

Local Open Scope Z_scope.
Local Open Scope Q_scope.

(** ** JavaScript numeric primitives *)

Module JS.

(** Comparison of two numbers. *)
Definition ltb (a b : Q) : bool := negb (Qle_bool b a).
Definition leb (a b : Q) : bool := Qle_bool a b.
Definition gtb (a b : Q) : bool := ltb b a.
Definition geb (a b : Q) : bool := leb b a.

(** [Math.round]: the nearest integer, halves rounded towards plus infinity. *)
Definition round (x : Q) : Z := Qfloor (x + (1 # 2)).

(** [Math.abs], [Math.max], [Math.min]. *)
Definition abs (x : Q) : Q := if ltb x 0 then - x else x.
Definition max (a b : Q) : Q := if ltb a b then b else a.
Definition min (a b : Q) : Q := if ltb b a then b else a.

(** [x.toFixed(1)]: the magnitude rounded to one decimal, halves upwards,
    behind the sign of [x]. *)
Definition toFixed1 (x : Q) : string :=
  let sign := if ltb x 0 then "-"%string else ""%string in
  let n := round (abs x * 10) in
  (sign +:+ pretty (n / 10)%Z +:+ "." +:+ pretty (n mod 10)%Z)%string.

End JS.

Infix "<?" := JS.ltb (at level 70, no associativity) : Q_scope.
Infix "<=?" := JS.leb (at level 70, no associativity) : Q_scope.
Infix ">?" := JS.gtb (at level 70, no associativity) : Q_scope.
Infix ">=?" := JS.geb (at level 70, no associativity) : Q_scope.

(** ** The doubles: IEEE 754 binary64, rounding to nearest, ties to even

    A finite double is the rational it denotes.  [rnd x] is the double nearest
    to [x]: a multiple of the spacing [ulp x] of the doubles around [x], which
    is [2 ^ (e - 52)] for [2 ^ e <= |x| < 2 ^ (e + 1)] and [2 ^ -1074] among
    the subnormals.  The arithmetic of the code is the exact operation
    followed by [rnd]; a literal such as [0.3] denotes [rnd 0.3].  Results of
    magnitude [2 ^ 1024] and beyond, which overflow to an infinity, are
    outside the model. *)

Module Binary64.

(** The binade of a number other than 0: the exponent [e] with
    [2 ^ e <= |x| < 2 ^ (e + 1)] (see [binade_spec]). *)
Definition binade (x : Q) : Z :=
  let x := Qred x in
  let e := (Z.log2 (Z.abs (Qnum x)) - Z.log2 (Z.pos (Qden x)))%Z in
  if Qle_bool (2 ^ e) (Qabs x) then e else (e - 1)%Z.

Definition ulp (x : Q) : Q := 2 ^ (Z.max (binade x) (-1022) - 52).

(** The nearest integer, a tie going to the even one. *)
Definition nearestEven (x : Q) : Z :=
  let below := Qfloor x in
  match (x - inject_Z below ?= 1 # 2)%Q with
  | Lt => below
  | Gt => (below + 1)%Z
  | Eq => if Z.even below then below else (below + 1)%Z
  end.

Definition rnd (x : Q) : Q := inject_Z (nearestEven (x / ulp x)) * ulp x.

Definition add (a b : Q) : Q := rnd (a + b).
Definition sub (a b : Q) : Q := rnd (a - b).
Definition mul (a b : Q) : Q := rnd (a * b).
Definition div (a b : Q) : Q := rnd (a / b).

(** The doubles among the rationals. *)
Definition representable (x : Q) : Prop := rnd x == x.

End Binary64.

(** The rational that a double of the kernel denotes, to compare [rnd] with
    ([rnd_agrees_with_kernel_doubles]); NaN and the infinities denote none. *)
Definition floatValue (f : float) : option Q :=
  match Prim2SF f with
  | S754_zero _ => Some 0
  | S754_finite sign mantissa exponent =>
      Some ((if sign then -1 else 1) * inject_Z (Z.pos mantissa) * 2 ^ exponent)
  | _ => None
  end.

Definition sameValue (f : float) (x : Q) : Prop :=
  match floatValue f with
  | Some y => y == x
  | None => False
  end.

Infix "⊕" := Binary64.add (at level 50, left associativity) : Q_scope.
Infix "⊖" := Binary64.sub (at level 50, left associativity) : Q_scope.
Infix "⊗" := Binary64.mul (at level 40, left associativity) : Q_scope.
Infix "⊘" := Binary64.div (at level 40, left associativity) : Q_scope.

(** ** [src/lib/utils.ts]: angle normalisation *)




(** The same two loops over exact arithmetic.  They end for every angle
    ([normalizeAngle_fuel_enough]), and on every double of magnitude below
    [2 ^ 56] they compute what the code computes, whose additions and
    subtractions are exact there ([normalizeAngle64_exact]).  The scorers,
    which normalise differences of compass bearings, are stated with
    [normalizeAngle].

    [while (normalized < -180) normalized += 360], with a bound on the number
    of loop tests. *)
Fixpoint raise_loop (fuel : nat) (normalized : Q) : option Q :=
  match fuel with
  | O => None
  | S fuel' =>
      if normalized <? -180 then raise_loop fuel' (normalized + 360)
      else Some normalized
  end.

(** [while (normalized > 180) normalized -= 360]. *)
Fixpoint lower_loop (fuel : nat) (normalized : Q) : option Q :=
  match fuel with
  | O => None
  | S fuel' =>
      if normalized >? 180 then lower_loop fuel' (normalized - 360)
      else Some normalized
  end.

Definition normalizeAngle_fuel (fuel : nat) (angle : Q) : option Q :=
  match raise_loop fuel angle with
  | Some normalized => lower_loop fuel normalized
  | None => None
  end.

(** A number of loop tests that suffices for [angle] (see
    [normalizeAngle_fuel_enough]). *)
Definition angle_fuel (angle : Q) : nat :=
  S (Z.to_nat (Qceiling (JS.abs angle / 360))).

Definition normalizeAngle (angle : Q) : Q :=
  default angle (normalizeAngle_fuel (angle_fuel angle) angle).

(** ** [types.ts] *)

Inductive TidePhase := PhaseRising | PhaseFalling | PhaseHigh | PhaseLow.
Inductive BestTide := TideLow | TideMid | TideHigh | TideAny.
(** The tags ['H'] and ['L'] of a high/low event. *)
Inductive TideType := HighWater | LowWater.
Inductive Rating := Poor | Fair | Good | Excellent.

Record SkillConfig := {
  minIdeal : Q;
  maxIdeal : Q;
  minSurfable : Q;
  maxSurfable : Q
}.

Record SurfConditions := {
  waveHeight : Q;
  wavePeriod : Q;
  swellDirection : Q;
  windSpeed : Q;
  windDirection : Q;
  tideHeight : Q;
  tidePhase : TidePhase
}.

(** The fields of [SpotConfig] the engine reads; the descriptive ones
    (coordinates, region, hazards, ...) play no part in it. *)
Record SpotConfig := {
  id : string;
  optimalSwellDirections : list Q;
  offshoreWindDirection : Q;
  bestTide : BestTide
}.

Record Prefs := {
  surferType : string;
  skillLevel : string
}.

Record ScoreResult := {
  score : Z;
  rating : Rating;
  breakdown : string
}.

(** [time] is the parsed value of the prediction's time string. *)
Record TidePrediction := {
  time : Z;
  height : Q;
  type : option TideType
}.

Record TideData := {
  highLow : list TidePrediction;
  hourly : list TidePrediction
}.

(** ** Scoring module ([lib/scoring], in [src/lib/sun.ts]): the five scorers

    The quotients, products and differences of [scoreWaveHeight], [scoreTide]
    and [scoreWind] are those of doubles, and a literal that is no double,
    such as 0.33 or 0.85, denotes the nearest one.  The one exception is the
    difference of two bearings that [scoreWind] and [scoreSwellDirection]
    normalise: it is exact, and normalised by [normalizeAngle]. *)

Definition SKILL_CONFIGS : gmap string (gmap string SkillConfig) :=
  list_to_map [
    ("longboard"%string, list_to_map [
      ("beginner"%string, {| minIdeal := 1.5; maxIdeal := 3; minSurfable := 1; maxSurfable := 5 |});
      ("advanced"%string, {| minIdeal := 2; maxIdeal := 5; minSurfable := 1.5; maxSurfable := 7 |});
      ("expert"%string, {| minIdeal := 3; maxIdeal := 6; minSurfable := 2; maxSurfable := 10 |})]);
    ("mediumboard"%string, list_to_map [
      ("beginner"%string, {| minIdeal := 2; maxIdeal := 4; minSurfable := 1.5; maxSurfable := 6 |});
      ("advanced"%string, {| minIdeal := 3; maxIdeal := 6; minSurfable := 2; maxSurfable := 8 |});
      ("expert"%string, {| minIdeal := 4; maxIdeal := 8; minSurfable := 2.5; maxSurfable := 12 |})]);
    ("shortboard"%string, list_to_map [
      ("beginner"%string, {| minIdeal := 2.5; maxIdeal := 4; minSurfable := 2; maxSurfable := 6 |});
      ("advanced"%string, {| minIdeal := 3; maxIdeal := 7; minSurfable := 2.5; maxSurfable := 10 |});
      ("expert"%string, {| minIdeal := 4; maxIdeal := 10; minSurfable := 3; maxSurfable := 15 |})])
  ].

(** The cell of the table at two keys that are own properties of the table
    and of its row. *)
Definition lookupSkillConfig (surferType skillLevel : string) : option SkillConfig :=
  SKILL_CONFIGS !! surferType ≫= (.!! skillLevel).

(** The table and its rows are plain objects: a key that is no own property
    is looked up along the chain of prototypes, which belongs to the host.
    [inheritedTruthy surferType skillLevel] tells whether
    [SKILL_CONFIGS[surferType]?.[skillLevel]] is then a truthy value, as the
    string ['Object'] that [('constructor', 'name')] finds; it is [false] when
    the chain has nothing for the keys, or a falsy value. *)
Class PrototypeChain := inheritedTruthy : string -> string -> bool.

(** The value of [SKILL_CONFIGS[surferType]?.[skillLevel]]: a cell of the
    table, a truthy value that is none, or a falsy one ([undefined]). *)
Inductive ConfigLookup :=
  | FoundConfig (config : SkillConfig)
  | FoundOther
  | NotFound.

Definition readSkillConfig {host : PrototypeChain} (surferType skillLevel : string)
    : ConfigLookup :=
  match lookupSkillConfig surferType skillLevel with
  | Some config => FoundConfig config
  | None => if inheritedTruthy surferType skillLevel then FoundOther else NotFound
  end.

(** On a truthy value that is no cell of the table the four fields are
    [undefined], every comparison with them is false, and the last [return 0]
    is reached. *)
Definition scoreWaveHeight {host : PrototypeChain} (height : Q)
    (surferType skillLevel : string) : Z :=
  match readSkillConfig surferType skillLevel with
  | NotFound => 50%Z
  | FoundOther => 0%Z
  | FoundConfig config =>
      if (height >=? minIdeal config) && (height <=? maxIdeal config) then 100%Z
      else if (height >=? minSurfable config) && (height <? minIdeal config) then
        let range := minIdeal config ⊖ minSurfable config in
        let diff := minIdeal config ⊖ height in
        JS.round (100 ⊖ (diff ⊘ range) ⊗ 40)
      else if (height >? maxIdeal config) && (height <=? maxSurfable config) then
        let range := maxSurfable config ⊖ maxIdeal config in
        let diff := height ⊖ maxIdeal config in
        JS.round (100 ⊖ (diff ⊘ range) ⊗ 50)
      else if height <? minSurfable config then
        Z.max 0%Z (JS.round ((height ⊘ minSurfable config) ⊗ 30))
      else if height >? maxSurfable config then
        Z.max 0%Z (JS.round (30 ⊖ (height ⊖ maxSurfable config) ⊗ 10))
      else 0%Z
  end.

Definition scoreWavePeriod (period : Q) : Z :=
  if period >=? 15 then 100%Z
  else if period >=? 13 then 90%Z
  else if period >=? 11 then 75%Z
  else if period >=? 9 then 55%Z
  else if period >=? 7 then 35%Z
  else 20%Z.

Definition scoreWind (speed direction spotOffshoreDirection : Q) : Z :=
  let speedScore : Q :=
    if speed <? 5 then 100
    else if speed <? 10 then 85
    else if speed <? 15 then 65
    else if speed <? 20 then 40
    else if speed <? 25 then 20
    else 5 in
  let angleDiff := JS.abs (normalizeAngle (direction - spotOffshoreDirection)) in
  let directionMultiplier : Q :=
    if angleDiff <=? 45 then 1.0
    else if angleDiff <=? 90 then Binary64.rnd 0.85
    else if angleDiff <=? 135 then Binary64.rnd 0.6
    else Binary64.rnd 0.4 in
  let directionMultiplier :=
    if speed <? 5 then JS.max (Binary64.rnd 0.9) directionMultiplier
    else directionMultiplier in
  JS.round (speedScore ⊗ directionMultiplier).

Definition scoreSwellDirection (swellDirection : Q) (spotOptimalDirections : list Q) : Z :=
  let minDiff :=
    fold_left
      (fun minDiff optimal =>
         let diff := JS.abs (normalizeAngle (swellDirection - optimal)) in
         JS.min minDiff diff)
      spotOptimalDirections 180 in
  if minDiff <=? 15 then 100%Z
  else if minDiff <=? 30 then 85%Z
  else if minDiff <=? 45 then 70%Z
  else if minDiff <=? 60 then 50%Z
  else if minDiff <=? 90 then 30%Z
  else 10%Z.

Definition scoreTide (currentTideHeight : Q) (_tidePhase : TidePhase)
    (spotBestTide : BestTide) : Z :=
  match spotBestTide with
  | TideAny => 80%Z
  | _ =>
      let tidePct := JS.min 1 (JS.max 0 (currentTideHeight ⊘ 6)) in
      match spotBestTide with
      | TideLow =>
          if tidePct <? Binary64.rnd 0.33 then 100%Z
          else if tidePct <? 0.5 then 75%Z
          else if tidePct <? Binary64.rnd 0.67 then 50%Z
          else 30%Z
      | TideMid =>
          if (tidePct >=? Binary64.rnd 0.33) && (tidePct <=? Binary64.rnd 0.67) then 100%Z
          else if (tidePct >=? Binary64.rnd 0.2) && (tidePct <=? Binary64.rnd 0.8) then 75%Z
          else 50%Z
      | TideHigh =>
          if tidePct >? Binary64.rnd 0.67 then 100%Z
          else if tidePct >? 0.5 then 75%Z
          else if tidePct >? Binary64.rnd 0.33 then 50%Z
          else 30%Z
      | TideAny => 50%Z
      end
  end.

(** ** Scoring module: the combined score *)

Definition generateBreakdownText (conditions : SurfConditions) (prefs : Prefs)
    (waveScore periodScore _windScore swellScore : Z) : string :=
  let wave : list string :=
    if (waveScore >=? 80)%Z then
      ["Excellent wave size (" +:+ JS.toFixed1 (waveHeight conditions) +:+ "ft) for "
         +:+ skillLevel prefs +:+ " " +:+ surferType prefs +:+ " surfers."]
    else if (waveScore >=? 60)%Z then
      ["Good wave size (" +:+ JS.toFixed1 (waveHeight conditions)
         +:+ "ft) for developing skills."]
    else if waveHeight conditions >? 6 then
      ["Large waves (" +:+ JS.toFixed1 (waveHeight conditions)
         +:+ "ft) - challenging for most surfers."]
    else if waveHeight conditions <? 2 then
      ["Small waves (" +:+ JS.toFixed1 (waveHeight conditions)
         +:+ "ft) - may be underwhelming."]
    else ["Waves at " +:+ JS.toFixed1 (waveHeight conditions) +:+ "ft."] in
  let period : list string :=
    if (periodScore >=? 75)%Z then
      ["Good wave period (" +:+ JS.toFixed1 (wavePeriod conditions)
         +:+ "s) indicates organized groundswell."]
    else if (periodScore <=? 35)%Z then
      ["Short period (" +:+ JS.toFixed1 (wavePeriod conditions)
         +:+ "s) suggests wind swell - expect choppier conditions."]
    else [] in
  let wind : list string :=
    if windSpeed conditions <? 5 then ["Light winds with glassy conditions."]
    else if windSpeed conditions <? 10 then
      ["Light winds (" +:+ pretty (JS.round (windSpeed conditions))
         +:+ "mph) with clean conditions."]
    else if windSpeed conditions <? 15 then
      ["Moderate winds (" +:+ pretty (JS.round (windSpeed conditions))
         +:+ "mph) with manageable texture."]
    else
      ["Strong winds (" +:+ pretty (JS.round (windSpeed conditions))
         +:+ "mph) creating challenging conditions."] in
  let swell : list string :=
    if (swellScore >=? 85)%Z then ["Swell direction is ideal for this spot."]
    else if (swellScore <=? 30)%Z then ["Swell direction is not optimal for this spot."]
    else [] in
  String.concat " " (wave ++ period ++ wind ++ swell).

(** The weighted sum is computed on doubles, from left to right. *)
Definition calculateSpotScore {host : PrototypeChain} (conditions : SurfConditions)
    (spot : SpotConfig) (prefs : Prefs) : ScoreResult :=
  let waveHeightScore :=
    scoreWaveHeight (waveHeight conditions) (surferType prefs) (skillLevel prefs) in
  let wavePeriodScore := scoreWavePeriod (wavePeriod conditions) in
  let windScore :=
    scoreWind (windSpeed conditions) (windDirection conditions)
      (offshoreWindDirection spot) in
  let swellScore :=
    scoreSwellDirection (swellDirection conditions) (optimalSwellDirections spot) in
  let tideScore :=
    scoreTide (tideHeight conditions) (tidePhase conditions) (bestTide spot) in
  let score :=
    JS.round
      (inject_Z waveHeightScore ⊗ Binary64.rnd 0.3 ⊕
       inject_Z wavePeriodScore ⊗ Binary64.rnd 0.2 ⊕
       inject_Z windScore ⊗ Binary64.rnd 0.2 ⊕
       inject_Z swellScore ⊗ Binary64.rnd 0.15 ⊕
       inject_Z windScore ⊗ Binary64.rnd 0.1 ⊕
       inject_Z tideScore ⊗ Binary64.rnd 0.05) in
  let clampedScore := Z.min 100 (Z.max 0 score) in
  let rating :=
    if (clampedScore >=? 80)%Z then Excellent
    else if (clampedScore >=? 60)%Z then Good
    else if (clampedScore >=? 40)%Z then Fair
    else Poor in
  let breakdown :=
    generateBreakdownText conditions prefs waveHeightScore wavePeriodScore
      windScore swellScore in
  {| score := clampedScore; rating := rating; breakdown := breakdown |}.

(** ** [src/lib/api/tides.ts]: interpolation of the hourly series *)

(** The [for] loop over [i = 0 .. hourly.length - 2]: the first pair of
    neighbouring readings that brackets [now] decides. *)
Fixpoint bracketLoop (now : Z) (hourly : list TidePrediction) : option Q :=
  match hourly with
  | current :: rest =>
      match rest with
      | next :: _ =>
          if (time current <=? now)%Z && (now <? time next)%Z then
            let progress :=
              inject_Z (now - time current) / inject_Z (time next - time current) in
            Some (height current + progress * (height next - height current))
          else bracketLoop now rest
      | [] => None
      end
  | [] => None
  end.

Definition getCurrentTideHeight (now : Z) (tideData : TideData) : Q :=
  match bracketLoop now (hourly tideData) with
  | Some interpolated => interpolated
  | None =>
      match hourly tideData with
      | first :: _ => height first
      | [] => 0
      end
  end.

(** ** Scoring module: the best time window *)

Module HourlyScore.
Record t := { hour : Z; score : Q; tideHeight : Q }.
End HourlyScore.

Module BestWindow.
Record t := { startHour : Z; endHour : Z; avgScore : Q; avgTide : Q }.
End BestWindow.

(** The result record [{ start, end, reason }]. *)
Module TimeWindow.
Record t := { start : string; end_ : string; reason : string }.
End TimeWindow.

Definition scoreTideForWindow (height : Q) (bestTide : BestTide) : Z :=
  match bestTide with
  | TideAny => 70%Z
  | _ =>
      let tidePct := JS.min 1 (JS.max 0 ((height + 1) / 7)) in
      match bestTide with
      | TideLow =>
          if tidePct <? 0.3 then 100%Z
          else if tidePct <? 0.45 then 80%Z
          else if tidePct <? 0.6 then 50%Z
          else 20%Z
      | TideMid =>
          if (tidePct >=? 0.35) && (tidePct <=? 0.65) then 100%Z
          else if (tidePct >=? 0.25) && (tidePct <=? 0.75) then 80%Z
          else 50%Z
      | TideHigh =>
          if tidePct >? 0.7 then 100%Z
          else if tidePct >? 0.55 then 80%Z
          else if tidePct >? 0.4 then 50%Z
          else 20%Z
      | TideAny => 50%Z
      end
  end.

Definition getTideDescription (height : Q) : string :=
  if height <? 1 then "Low tide"
  else if height <? 2.5 then "Low-mid tide"
  else if height <? 4 then "Mid tide"
  else if height <? 5 then "Mid-high tide"
  else "High tide".

Definition formatHour (hour : Z) : string :=
  if ((hour =? 0) || (hour =? 24))%Z then "12:00 AM"
  else if (hour =? 12)%Z then "12:00 PM"
  else if (hour <? 12)%Z then pretty hour +:+ ":00 AM"
  else pretty (hour - 12)%Z +:+ ":00 PM".

(** The fixed diurnal wind curve of the hourly loop. *)
Definition windPattern (hour : Z) : Q :=
  if ((hour >=? 5) && (hour <? 9))%Z then 50
  else if ((hour >=? 9) && (hour <? 11))%Z then 35
  else if ((hour >=? 11) && (hour <? 15))%Z then 10
  else if ((hour >=? 15) && (hour <? 17))%Z then 20
  else if ((hour >=? 17) && (hour <? 19))%Z then 40
  else 25.

(** [array.slice(i, j)] for [0 <= i <= j]. *)
Definition slice {A} (i j : nat) (l : list A) : list A := take (j - i) (drop i l).

Section BestTimeWindow.

(** The local-time environment: [Date.prototype.getHours], local midnight of
    the current day ([today]) and of the next one ([tomorrow]). *)
Variable getHours : Z -> Z.
Variables today tomorrow : Z.

(** One iteration of the loop over [tideData.hourly]: [None] is [continue]. *)
Definition scorePrediction (spotBestTide : BestTide) (prediction : TidePrediction)
    : option HourlyScore.t :=
  let time := time prediction in
  if ((time <? today) || (time >=? tomorrow))%Z then None
  else
    let hour := getHours time in
    if ((hour <? 5) || (hour >? 20))%Z then None
    else
      let score := 0 in
      let tideHeight := height prediction in
      let tideScore := scoreTideForWindow tideHeight spotBestTide in
      let score := score + inject_Z tideScore * 0.5 in
      let windScore := windPattern hour in
      let score := score + windScore in
      Some {| HourlyScore.hour := hour; HourlyScore.score := score;
              HourlyScore.tideHeight := tideHeight |}.

Definition hourlyScores (tideData : TideData) (spotBestTide : BestTide)
    : list HourlyScore.t :=
  omap (scorePrediction spotBestTide) (hourly tideData).

(** The body of the inner loop, for one [windowSize] and one start index.
    Within the bounds of the loop the slice holds [windowSize] entries (see
    [slice_length]), so [window[0]] and [window[window.length - 1]] exist. *)
Definition considerWindow (scores : list HourlyScore.t) (windowSize : nat)
    (bestWindow : BestWindow.t) (i : nat) : BestWindow.t :=
  let window := slice i (i + windowSize) scores in
  let avgScore :=
    fold_left (fun sum h => sum + HourlyScore.score h) window 0
      / inject_Z (Z.of_nat windowSize) in
  let avgTide :=
    fold_left (fun sum h => sum + HourlyScore.tideHeight h) window 0
      / inject_Z (Z.of_nat windowSize) in
  if avgScore >? BestWindow.avgScore bestWindow then
    match head window, last window with
    | Some first, Some final =>
        {| BestWindow.startHour := HourlyScore.hour first;
           BestWindow.endHour := (HourlyScore.hour final + 1)%Z;
           BestWindow.avgScore := avgScore;
           BestWindow.avgTide := avgTide |}
    | _, _ => bestWindow
    end
  else bestWindow.

(** [for (let i = 0; i <= hourlyScores.length - windowSize; i++)] *)
Definition scanWindows (scores : list HourlyScore.t) (bestWindow : BestWindow.t)
    (windowSize : nat) : BestWindow.t :=
  fold_left (considerWindow scores windowSize)
    (seq 0 (S (length scores) - windowSize)) bestWindow.

(** The search as a whole: [None] is the [null] result. *)
Definition findBestWindow (tideData : TideData) (spotBestTide : BestTide)
    : option BestWindow.t :=
  match hourly tideData with
  | [] => None
  | _ =>
      let scores := hourlyScores tideData spotBestTide in
      match scores with
      | [] => None
      | _ =>
          let bestWindow :=
            {| BestWindow.startHour := 6; BestWindow.endHour := 9;
               BestWindow.avgScore := 0; BestWindow.avgTide := 0 |} in
          Some (fold_left (scanWindows scores) [3%nat; 2%nat] bestWindow)
      end
  end.

Definition describeWindow (bestWindow : BestWindow.t) : TimeWindow.t :=
  let isEarlyMorning :=
    ((BestWindow.startHour bestWindow >=? 5) && (BestWindow.startHour bestWindow <? 9))%Z in
  let isEvening := (BestWindow.startHour bestWindow >=? 17)%Z in
  let tideDesc := getTideDescription (BestWindow.avgTide bestWindow) in
  let reason :=
    if isEarlyMorning then tideDesc +:+ " + light morning winds"
    else if isEvening then tideDesc +:+ " + evening glass-off"
    else tideDesc +:+ " conditions" in
  {| TimeWindow.start := formatHour (BestWindow.startHour bestWindow);
     TimeWindow.end_ := formatHour (BestWindow.endHour bestWindow);
     TimeWindow.reason := reason |}.

Definition calculateBestTimeWindow (tideData : TideData) (spotBestTide : BestTide)
    : option TimeWindow.t :=
  describeWindow <$> findBestWindow tideData spotBestTide.

End BestTimeWindow.

(** A concrete local-time environment: a zone at a fixed offset of
    [tzMinutes] minutes from UTC, without daylight-saving changes. *)
Definition fixedZoneHours (tzMinutes : Z) (t : Z) : Z :=
  ((t + tzMinutes * 60000) / 3600000) mod 24.

(** ** [src/lib/sun.ts]: dawn patrol *)

Record SunTimes := {
  sunrise : Z;
  sunset : Z;
  firstLight : Z;
  lastLight : Z
}.

Inductive DawnStatus := TooEarly | LeaveNow | OnTheWay | Surfing | Missed.

Record DawnPatrol := {
  status : DawnStatus;
  message : string;
  leaveBy : option Z
}.

(** [d.setMinutes(d.getMinutes() + minutes)] on an epoch value. *)
Definition addMinutes (date minutes : Z) : Z := (date + minutes * 60000)%Z.

Definition calculateLeaveBy (targetTime driveMinutes bufferMinutes : Z) : Z :=
  addMinutes targetTime (- driveMinutes - bufferMinutes).

(** [!driveMinutes] for an optional whole number of minutes: true when the
    argument is absent and when it is [0]. *)
Definition falsy (driveMinutes : option Z) : bool :=
  match driveMinutes with
  | None => true
  | Some minutes => (minutes =? 0)%Z
  end.

Section DawnPatrolStatus.

(** [formatTime] renders a date through [toLocaleTimeString]. *)
Variable formatTime : Z -> string.

Definition getDawnPatrolStatus (now : Z) (sunTimes : SunTimes)
    (driveMinutes : option Z) : DawnPatrol :=
  let targetArrival := firstLight sunTimes in
  if falsy driveMinutes then
    if (now <? firstLight sunTimes)%Z then
      {| status := TooEarly;
         message := "First light at " +:+ formatTime (firstLight sunTimes);
         leaveBy := None |}
    else if (now <? sunrise sunTimes)%Z then
      {| status := Surfing;
         message := "Sunrise at " +:+ formatTime (sunrise sunTimes);
         leaveBy := None |}
    else
      {| status := Surfing;
         message := "Sun is up until " +:+ formatTime (sunset sunTimes);
         leaveBy := None |}
  else
    let driveMinutes := default 0%Z driveMinutes in
    let leaveBy := calculateLeaveBy targetArrival driveMinutes 10 in
    let arriveBy := addMinutes leaveBy (driveMinutes + 10) in
    if (now <? leaveBy - 30 * 60 * 1000)%Z then
      {| status := TooEarly;
         message := "Leave by " +:+ formatTime leaveBy +:+ " for first light";
         leaveBy := Some leaveBy |}
    else if (now <? leaveBy)%Z then
      let minsUntilLeave := JS.round (inject_Z (leaveBy - now) / 1000 / 60) in
      {| status := LeaveNow;
         message := "Leave in " +:+ pretty minsUntilLeave +:+ " min for dawn patrol!";
         leaveBy := Some leaveBy |}
    else if (now <? arriveBy)%Z then
      {| status := OnTheWay;
         message := "Go now to catch first light!";
         leaveBy := Some leaveBy |}
    else if (now <? sunset sunTimes)%Z then
      {| status := Surfing;
         message := "Sun up until " +:+ formatTime (sunset sunTimes);
         leaveBy := None |}
    else
      {| status := Missed; message := "Sun has set"; leaveBy := None |}.

End DawnPatrolStatus.

(** ** [src/lib/spots.ts]: historical percentile *)

Module MonthAverage.
Record t := { avgScore : Q; avgWaveHeight : Q; goodDaysPct : Q }.
End MonthAverage.

Definition HISTORICAL_AVERAGES : gmap Z MonthAverage.t :=
  list_to_map [
    (0%Z,
     {| MonthAverage.avgScore := 68; MonthAverage.avgWaveHeight := 6.5;
        MonthAverage.goodDaysPct := 45 |});
    (1%Z,
     {| MonthAverage.avgScore := 65; MonthAverage.avgWaveHeight := 5.8;
        MonthAverage.goodDaysPct := 40 |});
    (2%Z,
     {| MonthAverage.avgScore := 58; MonthAverage.avgWaveHeight := 4.5;
        MonthAverage.goodDaysPct := 35 |});
    (3%Z,
     {| MonthAverage.avgScore := 52; MonthAverage.avgWaveHeight := 3.5;
        MonthAverage.goodDaysPct := 30 |});
    (4%Z,
     {| MonthAverage.avgScore := 48; MonthAverage.avgWaveHeight := 3.0;
        MonthAverage.goodDaysPct := 25 |});
    (5%Z,
     {| MonthAverage.avgScore := 45; MonthAverage.avgWaveHeight := 2.5;
        MonthAverage.goodDaysPct := 20 |});
    (6%Z,
     {| MonthAverage.avgScore := 42; MonthAverage.avgWaveHeight := 2.2;
        MonthAverage.goodDaysPct := 18 |});
    (7%Z,
     {| MonthAverage.avgScore := 44; MonthAverage.avgWaveHeight := 2.5;
        MonthAverage.goodDaysPct := 20 |});
    (8%Z,
     {| MonthAverage.avgScore := 55; MonthAverage.avgWaveHeight := 3.5;
        MonthAverage.goodDaysPct := 35 |});
    (9%Z,
     {| MonthAverage.avgScore := 65; MonthAverage.avgWaveHeight := 5.0;
        MonthAverage.goodDaysPct := 45 |});
    (10%Z,
     {| MonthAverage.avgScore := 70; MonthAverage.avgWaveHeight := 6.0;
        MonthAverage.goodDaysPct := 50 |});
    (11%Z,
     {| MonthAverage.avgScore := 72; MonthAverage.avgWaveHeight := 7.0;
        MonthAverage.goodDaysPct := 52 |})
  ].

Section HistoricalPercentile.

(** [Math.tanh], left abstract. *)
Variable tanh : Q -> Q.

(** [month] is [new Date().getMonth()].  [None] stands for the [TypeError]
    raised on [monthData.avgScore] when the table has no entry for [month]. *)
Definition getHistoricalPercentile (month : Z) (score : Q) : option Z :=
  monthData ← HISTORICAL_AVERAGES !! month;
  let stdDev := 15 in
  let zScore := (score - MonthAverage.avgScore monthData) / stdDev in
  let percentile := JS.round (50 * (1 + tanh (zScore * 0.8))) in
  Some (Z.max 1 (Z.min 99 percentile)).

End HistoricalPercentile.

(** ** Scoring module: ranking and the helpers around the score *)

(** An element of the array [scoreAndRankSpots] returns: the fields of the
    spot beside those of its score result ([{ ...spot, ...result }]; the two
    records share no field name). *)
Module RankedSpot.
Record t := { spot : SpotConfig; result : ScoreResult }.
End RankedSpot.

(** The callback of [spots.map] in [scoreAndRankSpots]. *)
Definition scoreSpot {host : PrototypeChain} (conditionsMap : gmap string SurfConditions)
    (prefs : Prefs) (spot : SpotConfig) : RankedSpot.t :=
  match conditionsMap !! id spot with
  | None =>
      {| RankedSpot.spot := spot;
         RankedSpot.result :=
           {| score := 0; rating := Poor;
              breakdown := "No conditions data available." |} |}
  | Some conditions =>
      let result := calculateSpotScore conditions spot prefs in
      {| RankedSpot.spot := spot; RankedSpot.result := result |}
  end.

(** [array.sort((a, b) => b.score - a.score)].  The sort of an array is
    stable, so its result is that of inserting the elements, from the last to
    the first, each before the first element whose score is not higher. *)
Fixpoint insertByScore (a : RankedSpot.t) (sorted : list RankedSpot.t)
    : list RankedSpot.t :=
  match sorted with
  | [] => [a]
  | b :: rest =>
      if (score (RankedSpot.result b) <=? score (RankedSpot.result a))%Z
      then a :: b :: rest
      else b :: insertByScore a rest
  end.

Definition sortByScoreDescending (scoredSpots : list RankedSpot.t)
    : list RankedSpot.t :=
  foldr insertByScore [] scoredSpots.

Definition scoreAndRankSpots {host : PrototypeChain} (spots : list SpotConfig)
    (conditionsMap : gmap string SurfConditions) (prefs : Prefs)
    : list RankedSpot.t :=
  let scoredSpots := map (scoreSpot conditionsMap prefs) spots in
  sortByScoreDescending scoredSpots.

(** [{ min, max }]; [None] is [undefined], the value of a field read from a
    value that is no cell of the table. *)
Module IdealRange.
Record t := { min : option Q; max : option Q }.
End IdealRange.

Definition getIdealWaveRange {host : PrototypeChain} (surferType skillLevel : string)
    : IdealRange.t :=
  match readSkillConfig surferType skillLevel with
  | NotFound => {| IdealRange.min := Some 2; IdealRange.max := Some 5 |}
  | FoundOther => {| IdealRange.min := None; IdealRange.max := None |}
  | FoundConfig config =>
      {| IdealRange.min := Some (minIdeal config);
         IdealRange.max := Some (maxIdeal config) |}
  end.

Definition getConditionsQuality (score : Q) : string :=
  if score >=? 90 then "Epic conditions"
  else if score >=? 80 then "Excellent conditions"
  else if score >=? 70 then "Very good conditions"
  else if score >=? 60 then "Good conditions"
  else if score >=? 50 then "Fair conditions"
  else if score >=? 40 then "Below average"
  else if score >=? 30 then "Poor conditions"
  else "Not recommended".

(** ** [src/lib/sun.ts]: time until a target *)

Definition getTimeUntil (now targetTime : Z) : string :=
  let diffMs := (targetTime - now)%Z in
  let diffMins := JS.round (inject_Z diffMs / 1000 / 60) in
  if (diffMins <? 0)%Z then "passed"
  else if (diffMins <? 60)%Z then "in " +:+ pretty diffMins +:+ " min"
  else
    let hours := (diffMins / 60)%Z in
    let mins := Z.rem diffMins 60 in
    if (mins =? 0)%Z then "in " +:+ pretty hours +:+ "h"
    else "in " +:+ pretty hours +:+ "h " +:+ pretty mins +:+ "m".

(** ** [src/lib/api/tides.ts]: tide phase and next tides *)

(** The loop of [getTidePhase] over [highLow]: the last event at or before
    [now] met before the first later one, and that first later event, at which
    the loop breaks. *)
Fixpoint findPrevNext (now : Z) (highLow : list TidePrediction)
    (prevTide : option TidePrediction)
    : option TidePrediction * option TidePrediction :=
  match highLow with
  | [] => (prevTide, None)
  | tide :: rest =>
      if (time tide <=? now)%Z then findPrevNext now rest (Some tide)
      else (prevTide, Some tide)
  end.

(** [tide.type === 'H' ? 'high' : 'low'] *)
Definition highOrLow (tide : TidePrediction) : TidePhase :=
  match type tide with
  | Some HighWater => PhaseHigh
  | _ => PhaseLow
  end.

Definition getTidePhase (now : Z) (tideData : TideData) : TidePhase :=
  let '(prevTide, nextTide) := findPrevNext now (highLow tideData) None in
  let atNext :=
    match nextTide with
    | Some nextTide =>
        let minutesToNext := inject_Z (time nextTide - now) / 1000 / 60 in
        if minutesToNext <? 30 then Some (highOrLow nextTide) else None
    | None => None
    end in
  match atNext with
  | Some phase => phase
  | None =>
      match prevTide with
      | Some prevTide =>
          let minutesSincePrev := inject_Z (now - time prevTide) / 1000 / 60 in
          if minutesSincePrev <? 30 then highOrLow prevTide
          else
            match type prevTide with
            | Some LowWater => PhaseRising
            | _ => PhaseFalling
            end
      | None => PhaseRising
      end
  end.

Module NextTides.
Record t := { nextHigh : option TidePrediction; nextLow : option TidePrediction }.
End NextTides.

(** The loop of [getNextTides], with its two variables as arguments; the
    result is returned at once where the loop breaks. *)
Fixpoint nextTidesLoop (now : Z) (highLow : list TidePrediction)
    (nextHigh nextLow : option TidePrediction) : NextTides.t :=
  match highLow with
  | [] => {| NextTides.nextHigh := nextHigh; NextTides.nextLow := nextLow |}
  | tide :: rest =>
      if (time tide >? now)%Z then
        let '(nextHigh, nextLow) :=
          match type tide, nextHigh, nextLow with
          | Some HighWater, None, _ => (Some tide, nextLow)
          | Some LowWater, _, None => (nextHigh, Some tide)
          | _, _, _ => (nextHigh, nextLow)
          end in
        match nextHigh, nextLow with
        | Some _, Some _ =>
            {| NextTides.nextHigh := nextHigh; NextTides.nextLow := nextLow |}
        | _, _ => nextTidesLoop now rest nextHigh nextLow
        end
      else nextTidesLoop now rest nextHigh nextLow
  end.

Definition getNextTides (now : Z) (tideData : TideData) : NextTides.t :=
  nextTidesLoop now (highLow tideData) None None.

(** ** [src/lib/spots.ts]: compass labels *)

Definition directions : list string :=
  ["N"; "NNE"; "NE"; "ENE"; "E"; "ESE"; "SE"; "SSE";
   "S"; "SSW"; "SW"; "WSW"; "W"; "WNW"; "NW"; "NNW"]%string.

(** [None] is [undefined], the value of [directions[index]] at a negative
    index; [%] is the remainder that takes the sign of the dividend.  The
    quotient is a double. *)
Definition getCardinalDirection (degrees : Q) : option string :=
  let index := Z.rem (JS.round (degrees ⊘ 22.5)) 16 in
  if (index <? 0)%Z then None else directions !! Z.to_nat index.

(** ** [src/lib/forecast.ts]: the week forecast *)

Module Forecast.

(** The window of a day, [{ start, end }]. *)
Module Window.
Record t := { start : string; end_ : string }.
End Window.

(** The result of [scoreDayConditions]. *)
Module DayScore.
Record t := { score : Z; analysis : string; bestTimeWindow : option Window.t }.
End DayScore.

Definition formatHour (hour : Z) : string :=
  if ((hour =? 0) || (hour =? 24))%Z then "12 AM"
  else if (hour =? 12)%Z then "12 PM"
  else if (hour <? 12)%Z then pretty hour +:+ " AM"
  else pretty (hour - 12)%Z +:+ " PM".

Definition isTideIdealForSpot (height : Q) (bestTide : BestTide) : bool :=
  match bestTide with
  | TideAny => true
  | TideLow => height <? 2
  | TideMid => (height >=? 1.5) && (height <=? 4)
  | TideHigh => height >? 3.5
  end.

(** [Math.max(...heights)] and [Math.min(...heights)]; [None] stands for the
    infinity either returns on an empty array. *)
Definition maxOf (heights : list Q) : option Q :=
  match heights with
  | [] => None
  | first :: rest => Some (fold_left JS.max rest first)
  end.

Definition minOf (heights : list Q) : option Q :=
  match heights with
  | [] => None
  | first :: rest => Some (fold_left JS.min rest first)
  end.

(** The state of the search for the longest run of consecutive hours. *)
Module Run.
Record t := { previous : Z; bestStart : Z; bestEnd : Z; currentStart : Z }.
End Run.

(** The body of the loop [for (let i = 1; i < idealTideHours.length; i++)];
    [previous] is [idealTideHours[i - 1]]. *)
Definition runStep (run : Run.t) (hour : Z) : Run.t :=
  if (hour =? Run.previous run + 1)%Z then
    if (hour - Run.currentStart run >? Run.bestEnd run - Run.bestStart run)%Z then
      {| Run.previous := hour; Run.bestStart := Run.currentStart run;
         Run.bestEnd := hour; Run.currentStart := Run.currentStart run |}
    else
      {| Run.previous := hour; Run.bestStart := Run.bestStart run;
         Run.bestEnd := Run.bestEnd run; Run.currentStart := Run.currentStart run |}
  else
    {| Run.previous := hour; Run.bestStart := Run.bestStart run;
       Run.bestEnd := Run.bestEnd run; Run.currentStart := hour |}.

(** The block [if (idealTideHours.length > 0) { ... }]. *)
Definition longestRun (idealTideHours : list Z) : option Run.t :=
  match idealTideHours with
  | [] => None
  | first :: rest =>
      Some (fold_left runStep rest
              {| Run.previous := first; Run.bestStart := first;
                 Run.bestEnd := first; Run.currentStart := first |})
  end.

Section WeekForecast.

(** The local-time accessors [getHours] and [getDay] of a date. *)
Variable getHours : Z -> Z.
Variable getDay : Z -> Z.

Definition scoreDayConditions (date : Z) (tideData : option TideData)
    (spot : SpotConfig) (_sunTimes : SunTimes) : DayScore.t :=
  let score := 50%Z in
  match tideData with
  | None =>
      {| DayScore.score := 50; DayScore.analysis := "Tide data unavailable";
         DayScore.bestTimeWindow := None |}
  | Some tideData =>
      let analysisPoints : list string := [] in
      let surfableHours :=
        List.filter
          (fun t => let hour := getHours (time t) in ((hour >=? 6) && (hour <=? 18))%Z)
          (hourly tideData) in
      let idealTideHours :=
        omap
          (fun t =>
             let hour := getHours (time t) in
             let isIdeal := isTideIdealForSpot (height t) (bestTide spot) in
             if isIdeal then Some hour else None)
          surfableHours in
      let dawnPatrolGoodHours :=
        length (List.filter (fun h => ((h >=? 6) && (h <=? 9))%Z) idealTideHours) in
      let '(score, analysisPoints) :=
        if (2 <=? dawnPatrolGoodHours)%nat then
          ((score + 25)%Z, analysisPoints ++ ["Great early morning tide"%string])
        else if (1 <=? dawnPatrolGoodHours)%nat then
          ((score + 15)%Z, analysisPoints ++ ["Good dawn patrol window"%string])
        else (score, analysisPoints) in
      let '(score, analysisPoints) :=
        if (6 <=? length idealTideHours)%nat then
          ((score + 20)%Z, analysisPoints ++ ["Extended surf window"%string])
        else if (3 <=? length idealTideHours)%nat then ((score + 10)%Z, analysisPoints)
        else (score, analysisPoints) in
      let dayOfWeek := getDay date in
      let '(score, analysisPoints) :=
        if ((dayOfWeek =? 0) || (dayOfWeek =? 6))%Z then
          ((score + 5)%Z, analysisPoints ++ ["Weekend"%string])
        else (score, analysisPoints) in
      let highLows := highLow tideData in
      let maxTide := maxOf (map height highLows) in
      let minTide := minOf (map height highLows) in
      let '(score, analysisPoints) :=
        if match maxTide with Some maxTide => maxTide >? 6 | None => false end then
          ((score - 10)%Z, analysisPoints ++ ["Very high tide"%string])
        else (score, analysisPoints) in
      let '(score, analysisPoints) :=
        if match minTide with Some minTide => minTide <? -0.5 | None => false end then
          ((score - 5)%Z, analysisPoints ++ ["Negative low tide"%string])
        else (score, analysisPoints) in
      let bestTimeWindow :=
        match longestRun idealTideHours with
        | Some run =>
            Some {| Window.start := formatHour (Run.bestStart run);
                    Window.end_ := formatHour (Z.min (Run.bestEnd run + 1) 20) |}
        | None => None
        end in
      let score := Z.max 0 (Z.min 100 score) in
      let analysis :=
        match analysisPoints with
        | [] => "Average conditions expected"%string
        | _ => String.concat " • " analysisPoints
        end in
      {| DayScore.score := score; DayScore.analysis := analysis;
         DayScore.bestTimeWindow := bestTimeWindow |}
  end.

(** The parts of [analyzeWeek] that are not modelled in themselves: the date
    of the [i]-th day at local noon ([setDate], [setHours(12, 0, 0, 0)]), the
    key [formatDateKey] of a date, the sun times of a spot's coordinates on a
    date ([getSunTimes]), the moon phase of a date ([getMoonPhase]), the two
    renderings of a date through [toLocaleDateString], and [toLowerCase]. *)
Variable MoonInfo : Type.
Variable dayAtNoon : Z -> nat -> Z.
Variable formatDateKey : Z -> string.
Variable sunTimesAt : SpotConfig -> Z -> SunTimes.
Variable getMoonPhase : Z -> MoonInfo.
Variable weekdayShort : Z -> string.
Variable monthAndDay : Z -> string.
Variable toLowerCase : string -> string.

Record DayForecast := {
  date : Z;
  dayName : string;
  dateStr : string;
  tideData : option TideData;
  sunTimes : SunTimes;
  moonPhase : MoonInfo;
  score : Z;
  analysis : string;
  bestTimeWindow : option Window.t
}.

Record WeekForecast := {
  days : list DayForecast;
  bestDay : option DayForecast;
  bestDayReason : string
}.

Definition generateBestDayReason (bestDay : DayForecast) (allDays : list DayForecast)
    : string :=
  let parts := [dayName bestDay +:+ " " +:+ dateStr bestDay] in
  let parts :=
    if (analysis bestDay =? "")%string then parts
    else parts ++ [toLowerCase (analysis bestDay)] in
  let parts :=
    match bestTimeWindow bestDay with
    | Some window =>
        parts ++ ["best from " +:+ Window.start window +:+ " to " +:+ Window.end_ window]
    | None => parts
    end in
  let avgScore :=
    fold_left (fun sum d => sum + inject_Z (score d)) allDays 0
      / inject_Z (Z.of_nat (length allDays)) in
  let parts :=
    if inject_Z (score bestDay) >? avgScore + 15 then
      parts ++ ["significantly better than other days"%string]
    else parts in
  String.concat " — " parts.

(** The body of the loop [for (let i = 0; i < 7; i++)]. *)
Definition forecastDay (tideDataByDay : gmap string TideData) (spot : SpotConfig)
    (startDate : Z) (i : nat) : DayForecast :=
  let date := dayAtNoon startDate i in
  let dateKey := formatDateKey date in
  let tideData := tideDataByDay !! dateKey in
  let sunTimes := sunTimesAt spot date in
  let moonPhase := getMoonPhase date in
  let dayScore := scoreDayConditions date tideData spot sunTimes in
  {| date := date;
     dayName := weekdayShort date;
     dateStr := monthAndDay date;
     tideData := tideData;
     sunTimes := sunTimes;
     moonPhase := moonPhase;
     score := DayScore.score dayScore;
     analysis := DayScore.analysis dayScore;
     bestTimeWindow := DayScore.bestTimeWindow dayScore |}.

(** The loop [for (const day of days)] over the pair [(bestDay, bestScore)]. *)
Definition pickBest (best : option DayForecast * Z) (day : DayForecast)
    : option DayForecast * Z :=
  if (score day >? snd best)%Z then (Some day, score day) else best.

Definition analyzeWeek (tideDataByDay : gmap string TideData) (spot : SpotConfig)
    (startDate : Z) : WeekForecast :=
  let days := map (forecastDay tideDataByDay spot startDate) (seq 0 7) in
  let '(bestDay, bestScore) := fold_left pickBest days (None, (-1)%Z) in
  let bestDayReason :=
    match bestDay with
    | Some bestDay => generateBestDayReason bestDay days
    | None => "Unable to determine best day"%string
    end in
  {| days := days; bestDay := bestDay; bestDayReason := bestDayReason |}.

End WeekForecast.

Arguments date {MoonInfo} _.
Arguments dayName {MoonInfo} _.
Arguments dateStr {MoonInfo} _.
Arguments tideData {MoonInfo} _.
Arguments sunTimes {MoonInfo} _.
Arguments moonPhase {MoonInfo} _.
Arguments score {MoonInfo} _.
Arguments analysis {MoonInfo} _.
Arguments bestTimeWindow {MoonInfo} _.
Arguments days {MoonInfo} _.
Arguments bestDay {MoonInfo} _.
Arguments bestDayReason {MoonInfo} _.
Arguments pickBest {MoonInfo} _ _.

End Forecast.

(** ** Specification-side definitions

    The statements of the properties below are phrased with these; none of
    them is used by the embedding above. *)

(** The data-model invariant of a wave-height range, with a positive lower
    end. *)
Definition validRange (config : SkillConfig) : Prop :=
  0 < minSurfable config /\
  minSurfable config <= minIdeal config /\
  minIdeal config <= maxIdeal config /\
  maxIdeal config <= maxSurfable config.

(** The weighting of the five sub-scores as the specification words it:
    wave height 0.30, wave period 0.20, wind 0.20, swell direction 0.15, wind
    again 0.10, tide 0.05; rounded, then clamped to [0, 100]. *)
Definition weightedScore (waveHeightScore wavePeriodScore windScore swellScore
    tideScore : Z) : Z :=
  Z.min 100
    (Z.max 0
       (JS.round
          (0.30 * inject_Z waveHeightScore + 0.20 * inject_Z wavePeriodScore +
           0.20 * inject_Z windScore + 0.15 * inject_Z swellScore +
           0.10 * inject_Z windScore + 0.05 * inject_Z tideScore))).

(** The argument of [Math.round] in [calculateSpotScore], as a function of
    the five sub-scores: the sum of the doubles, from left to right. *)
Definition weightedSum64 (waveHeightScore wavePeriodScore windScore swellScore
    tideScore : Z) : Q :=
  inject_Z waveHeightScore ⊗ Binary64.rnd 0.3 ⊕
  inject_Z wavePeriodScore ⊗ Binary64.rnd 0.2 ⊕
  inject_Z windScore ⊗ Binary64.rnd 0.2 ⊕
  inject_Z swellScore ⊗ Binary64.rnd 0.15 ⊕
  inject_Z windScore ⊗ Binary64.rnd 0.1 ⊕
  inject_Z tideScore ⊗ Binary64.rnd 0.05.



(** A reading that the hourly loop of [calculateBestTimeWindow] keeps: one of
    the current day, at a local hour from 5 to 20. *)
Definition surfableToday (getHours : Z -> Z) (today tomorrow : Z)
    (prediction : TidePrediction) : Prop :=
  (today <= time prediction < tomorrow)%Z /\
  (5 <= getHours (time prediction) <= 20)%Z.

(** The hours an entry of [hourlyScores] and a window may carry. *)
Definition hourInRange (h : HourlyScore.t) : Prop :=
  (5 <= HourlyScore.hour h <= 20)%Z.

Definition windowInRange (w : BestWindow.t) : Prop :=
  (5 <= BestWindow.startHour w <= 20)%Z /\ (6 <= BestWindow.endHour w <= 21)%Z.

(** Readings in strictly increasing order of time. *)
Fixpoint increasing (readings : list TidePrediction) : Prop :=
  match readings with
  | current :: rest =>
      match rest with
      | next :: _ => (time current < time next)%Z /\ increasing rest
      | [] => True
      end
  | [] => True
  end.

(** The score of a ranked spot, and the order of a ranking: [a] stands
    before [b] when the score of [b] is not above that of [a]. *)
Definition scoreOf (a : RankedSpot.t) : Z := score (RankedSpot.result a).

Definition notBelow (a b : RankedSpot.t) : Prop := (scoreOf b <= scoreOf a)%Z.

(** The mean score of the [windowSize] entries of [scores] from index [i]
    on. *)
Definition windowMean (scores : list HourlyScore.t) (windowSize i : nat) : Q :=
  fold_left (fun sum h => sum + HourlyScore.score h) (slice i (i + windowSize) scores) 0
    / inject_Z (Z.of_nat windowSize).

(** The place of a label in the course of the day. *)
Definition dawnRank (label : DawnStatus) : Z :=
  match label with
  | TooEarly => 0
  | LeaveNow => 1
  | OnTheWay => 2
  | Surfing => 3
  | Missed => 4
  end.

(** The tests of [getNextTides] on one event: later than [now], and tagged
    high, respectively low. *)
Definition laterHigh (now : Z) (tide : TidePrediction) : bool :=
  (time tide >? now)%Z && match type tide with Some HighWater => true | _ => false end.

Definition laterLow (now : Z) (tide : TidePrediction) : bool :=
  (time tide >? now)%Z && match type tide with Some LowWater => true | _ => false end.

(** A monotone stand-in for the hyperbolic tangent: the identity cut off at
    -1 and 1. *)
Definition clippedLine (x : Q) : Q := JS.min 1 (JS.max (-1) x).

(** The hours of the day, from 6 to 18, at which a reading of the series has
    an ideal tide for the spot: the list [idealTideHours] of
    [scoreDayConditions]. *)
Definition idealTideHoursOf (getHours : Z -> Z) (tideData : TideData)
    (spot : SpotConfig) : list Z :=
  omap
    (fun t =>
       if Forecast.isTideIdealForSpot (height t) (bestTide spot)
       then Some (getHours (time t)) else None)
    (List.filter
       (fun t => ((getHours (time t) >=? 6) && (getHours (time t) <=? 18))%Z)
       (hourly tideData)).

(** The state of the search for the longest run stays within the hours 6 to
    18, with each start at or before its end. *)
Definition runInRange (run : Forecast.Run.t) : Prop :=
  (6 <= Forecast.Run.bestStart run)%Z /\
  (Forecast.Run.bestStart run <= Forecast.Run.bestEnd run)%Z /\
  (Forecast.Run.bestEnd run <= 18)%Z /\
  (6 <= Forecast.Run.currentStart run)%Z /\
  (Forecast.Run.currentStart run <= Forecast.Run.previous run)%Z /\
  (Forecast.Run.previous run <= 18)%Z.

(** The window the search of [calculateBestTimeWindow] starts from. *)
Definition initialWindow : BestWindow.t :=
  {| BestWindow.startHour := 6; BestWindow.endHour := 9;
     BestWindow.avgScore := 0; BestWindow.avgTide := 0 |}.

(** A window cut from the entries [scores]: it starts at the hour of one
    entry and ends one hour past the entry one or two places further. *)
Definition windowOfSeries (scores : list HourlyScore.t) (w : BestWindow.t) : Prop :=
  exists (windowSize i : nat) (first final : HourlyScore.t),
    (windowSize = 2%nat \/ windowSize = 3%nat) /\
    scores !! i = Some first /\
    scores !! (i + windowSize - 1)%nat = Some final /\
    BestWindow.startHour w = HourlyScore.hour first /\
    BestWindow.endHour w = (HourlyScore.hour final + 1)%Z.

(** ** Sample inputs *)

(** A host on whose chain of prototypes the two keys ['constructor'] and
    ['name'] find the name of the constructor of plain objects, the string
    ['Object'], and no other pair of keys finds a truthy value. *)
Definition sampleHost : PrototypeChain :=
  fun surferType skillLevel =>
    String.eqb surferType "constructor" && String.eqb skillLevel "name".

(** The end-to-end example of the specification. *)
Definition sampleConditions : SurfConditions :=
  {| waveHeight := 4.5; wavePeriod := 12; swellDirection := 280; windSpeed := 4;
     windDirection := 50; tideHeight := 2.5; tidePhase := PhaseRising |}.

Definition sampleSpot : SpotConfig :=
  {| id := "sample"; optimalSwellDirections := [270; 290; 310];
     offshoreWindDirection := 45; bestTide := TideMid |}.

Definition samplePrefs : Prefs :=
  {| surferType := "mediumboard"; skillLevel := "advanced" |}.

(** One reading per hour of the day that starts at epoch 0, in a zone at
    offset 0. *)
Definition hourlyReadings (heights : list Q) : list TidePrediction :=
  imap (fun i h => {| time := Z.of_nat i * 3600000; height := h; type := None |})
    heights.

(** A day whose tide is low until the late afternoon and rises through the
    evening. *)
Definition eveningTide : TideData :=
  {| highLow := [];
     hourly :=
       hourlyReadings
         [1.5; 1.2; 0.9; 0.6; 0.4; 0.3; 0.4; 0.6; 0.9; 1.2; 1.4; 1.5;
          1.4; 1.2; 1.0; 0.9; 1.0; 1.5; 2.5; 4; 5; 5.5; 5.3; 4.6] |}.




(** Two readings one hour apart. *)
Definition readingAtMidnight : TidePrediction :=
  {| time := 0; height := 1; type := None |}.

Definition readingAtOne : TidePrediction :=
  {| time := 3600000; height := 2; type := None |}.

Definition twoReadings : TideData :=
  {| highLow := []; hourly := [readingAtMidnight; readingAtOne] |}.

(** First light at 6:00, sunrise at 6:30, sunset at 18:00 and last light at
    18:30 of the day that starts at epoch 0. *)
Definition sampleSunTimes : SunTimes :=
  {| sunrise := 23400000; sunset := 64800000;
     firstLight := 21600000; lastLight := 66600000 |}.

(** * Properties *)

(** ** Facts about the numeric primitives *)

Section JSFacts.

Lemma ltb_lt a b : (a <? b) = true <-> a < b.
Proof.
  unfold JS.ltb. rewrite negb_true_iff, <- not_true_iff_false, Qle_bool_iff.
  split; [apply Qnot_le_lt | apply Qlt_not_le].
Qed.

Lemma ltb_ge a b : (a <? b) = false <-> b <= a.
Proof. unfold JS.ltb. rewrite negb_false_iff. apply Qle_bool_iff. Qed.

Lemma leb_le a b : (a <=? b) = true <-> a <= b.
Proof. apply Qle_bool_iff. Qed.

Lemma leb_gt a b : (a <=? b) = false <-> b < a.
Proof.
  unfold JS.leb. rewrite <- not_true_iff_false, Qle_bool_iff.
  split; [apply Qnot_le_lt | apply Qlt_not_le].
Qed.

Lemma gtb_gt a b : (a >? b) = true <-> b < a.
Proof. apply ltb_lt. Qed.

Lemma gtb_le a b : (a >? b) = false <-> a <= b.
Proof. apply ltb_ge. Qed.

Lemma geb_ge a b : (a >=? b) = true <-> b <= a.
Proof. apply leb_le. Qed.

Lemma geb_lt a b : (a >=? b) = false <-> a < b.
Proof. apply leb_gt. Qed.


Lemma round_mono x y : x <= y -> (JS.round x <= JS.round y)%Z.
Proof. intros Hxy. apply Qfloor_resp_le. lra. Qed.

Lemma round_Z (z : Z) : JS.round (inject_Z z) = z.
Proof.
  unfold JS.round.
  assert (Hlo : (z <= Qfloor (inject_Z z + (1 # 2)))%Z).
  { rewrite <- (Qfloor_Z z) at 1. apply Qfloor_resp_le. lra. }
  assert (Hhi : (Qfloor (inject_Z z + (1 # 2)) < z + 1)%Z).
  { rewrite Zlt_Qlt. eapply Qle_lt_trans; [apply Qfloor_le|].
    rewrite inject_Z_plus. change (inject_Z 1) with 1. lra. }
  lia.
Qed.

Lemma round_lower x (z : Z) : inject_Z z <= x -> (z <= JS.round x)%Z.
Proof. intros Hx. rewrite <- (round_Z z). now apply round_mono. Qed.

Lemma round_upper x (z : Z) : x <= inject_Z z -> (JS.round x <= z)%Z.
Proof. intros Hx. rewrite <- (round_Z z). now apply round_mono. Qed.

Lemma round_proper x y : x == y -> JS.round x = JS.round y.
Proof.
  intros Hxy. apply Z.le_antisymm; apply round_mono; rewrite Hxy; apply Qle_refl.
Qed.

Lemma round_unique x (k : Z) :
  inject_Z k - (1 # 2) <= x -> x < inject_Z k + (1 # 2) -> JS.round x = k.
Proof.
  intros Hlo Hhi. unfold JS.round.
  pose proof (Qfloor_le (x + (1 # 2))) as Hfloor_le.
  pose proof (Qlt_floor (x + (1 # 2))) as Hfloor_lt.
  rewrite inject_Z_plus in Hfloor_lt. change (inject_Z 1) with 1 in Hfloor_lt.
  assert (H1 : inject_Z (Qfloor (x + (1 # 2))) < inject_Z (k + 1)).
  { rewrite inject_Z_plus. change (inject_Z 1) with 1. lra. }
  assert (H2 : inject_Z k < inject_Z (Qfloor (x + (1 # 2)) + 1)).
  { rewrite inject_Z_plus. change (inject_Z 1) with 1. lra. }
  rewrite <- Zlt_Qlt in H1, H2. lia.
Qed.

Lemma abs_cases x : (x < 0 /\ JS.abs x = - x) \/ (0 <= x /\ JS.abs x = x).
Proof.
  unfold JS.abs. destruct (x <? 0) eqn:Hx.
  - left. apply ltb_lt in Hx. auto.
  - right. apply ltb_ge in Hx. auto.
Qed.

Lemma abs_nonneg x : 0 <= JS.abs x.
Proof. destruct (abs_cases x) as [[Hx ->]|[Hx ->]]; lra. Qed.

End JSFacts.

(** ** Facts about the doubles *)

Section Binary64Facts.

Import Binary64.

Lemma pow2_pos (e : Z) : 0 < 2 ^ e.
Proof. apply Qpower_0_lt. reflexivity. Qed.

Lemma pow2_succ (e : Z) : 2 ^ (e + 1) == 2 * 2 ^ e.
Proof. rewrite Qpower_plus by discriminate. rewrite Qpower_1_r. ring. Qed.

Lemma pow2_le (a b : Z) : (a <= b)%Z -> 2 ^ a <= 2 ^ b.
Proof. intros H. apply Qpower_le_compat_l; [exact H|discriminate]. Qed.

Lemma pow2_lt (a b : Z) : (a < b)%Z -> 2 ^ a < 2 ^ b.
Proof. intros H. apply Qpower_lt_compat_l; [exact H|reflexivity]. Qed.

Lemma pow2_Z (n : Z) : (0 <= n)%Z -> inject_Z (2 ^ n) == 2 ^ n.
Proof. intros H. rewrite Zpower_Qpower by exact H. reflexivity. Qed.

(** The binade found is the right one. *)
Lemma binade_spec (x : Q) :
  ~ x == 0 -> 2 ^ binade x <= Qabs x /\ Qabs x < 2 ^ (binade x + 1).
Proof.
  intros Hx. unfold binade.
  assert (Hred : Qred x == x) by apply Qred_correct.
  rewrite <- Hred in Hx. rewrite <- (Qabs_wd _ _ Hred).
  remember (Qred x) as r eqn:Hr. clear Hr Hred x. destruct r as [n d]. cbn [Qnum Qden].
  assert (Hn : (0 < Z.abs n)%Z).
  { destruct (Z.eq_dec n 0%Z) as [->|]; [exfalso; apply Hx; reflexivity|lia]. }
  pose proof (Z.log2_spec (Z.abs n) Hn) as [Hn1 Hn2].
  pose proof (Z.log2_spec (Z.pos d) (Pos2Z.is_pos d)) as [Hd1 Hd2].
  pose proof (Z.log2_nonneg (Z.abs n)) as Ha.
  pose proof (Z.log2_nonneg (Z.pos d)) as Hb.
  set (a := Z.log2 (Z.abs n)) in *. set (b := Z.log2 (Z.pos d)) in *.
  assert (Habs : Qabs (n # d) == inject_Z (Z.abs n) / inject_Z (Z.pos d)).
  { unfold Qabs. cbn [Qnum Qden]. rewrite (Qmake_Qdiv (Z.abs n) d). reflexivity. }
  assert (Hdpos : 0 < inject_Z (Z.pos d)) by reflexivity.
  assert (HnQ1 : 2 ^ a <= inject_Z (Z.abs n)).
  { rewrite <- pow2_Z by exact Ha. rewrite <- Zle_Qle. exact Hn1. }
  assert (HnQ2 : inject_Z (Z.abs n) < 2 ^ (a + 1)).
  { rewrite <- pow2_Z by lia. rewrite <- Zlt_Qlt. replace (a + 1)%Z with (Z.succ a) by lia. exact Hn2. }
  assert (HdQ1 : 2 ^ b <= inject_Z (Z.pos d)).
  { rewrite <- pow2_Z by exact Hb. rewrite <- Zle_Qle. exact Hd1. }
  assert (HdQ2 : inject_Z (Z.pos d) < 2 ^ (b + 1)).
  { rewrite <- pow2_Z by lia. rewrite <- Zlt_Qlt. replace (b + 1)%Z with (Z.succ b) by lia. exact Hd2. }
  assert (Hlow : 2 ^ (a - b - 1) < Qabs (n # d)).
  { rewrite Habs. apply Qlt_shift_div_l; [exact Hdpos|].
    apply Qlt_le_trans with (2 ^ (a - b - 1) * 2 ^ (b + 1)).
    - apply Qmult_lt_l; [apply pow2_pos|exact HdQ2].
    - rewrite <- Qpower_plus by discriminate.
      replace (a - b - 1 + (b + 1))%Z with a by lia. exact HnQ1. }
  assert (Hhigh : Qabs (n # d) < 2 ^ (a - b + 1)).
  { rewrite Habs. apply Qlt_shift_div_r; [exact Hdpos|].
    apply Qlt_le_trans with (2 ^ (a + 1)); [exact HnQ2|].
    replace (a + 1)%Z with (a - b + 1 + b)%Z by lia.
    rewrite Qpower_plus by discriminate.
    apply Qmult_le_l; [apply pow2_pos|exact HdQ1]. }
  destruct (Qle_bool (2 ^ (a - b)) (Qabs (n # d))) eqn:Htest.
  - apply Qle_bool_iff in Htest. split; [exact Htest|exact Hhigh].
  - split; [apply Qlt_le_weak; exact Hlow|].
    replace (a - b - 1 + 1)%Z with (a - b)%Z by lia.
    apply Qnot_le_lt. intros H. apply Qle_bool_iff in H. congruence.
Qed.

Lemma binade_unique (x : Q) (e : Z) :
  2 ^ e <= Qabs x -> Qabs x < 2 ^ (e + 1) -> binade x = e.
Proof.
  intros H1 H2.
  assert (Hx : ~ x == 0).
  { intros H. rewrite H in H1. pose proof (pow2_pos e). change (Qabs 0) with 0 in H1. lra. }
  destruct (binade_spec x Hx) as [H3 H4].
  assert (binade x < e + 1)%Z.
  { apply Qpower_lt_compat_l_inv with 2; [|reflexivity]. lra. }
  assert (e < binade x + 1)%Z.
  { apply Qpower_lt_compat_l_inv with 2; [|reflexivity]. lra. }
  lia.
Qed.

Lemma binade_proper (x y : Q) : x == y -> binade x = binade y.
Proof. intros H. unfold binade. rewrite (Qred_complete x y H). reflexivity. Qed.

Lemma ulp_proper (x y : Q) : x == y -> ulp x = ulp y.
Proof. intros H. unfold ulp. rewrite (binade_proper x y H). reflexivity. Qed.

Lemma ulp_pos (x : Q) : 0 < ulp x.
Proof. apply pow2_pos. Qed.

(** Rounding to the nearest integer, ties to even. *)

Lemma nearestEven_cases (y : Q) :
  let below := Qfloor y in
  (y - inject_Z below < 1 # 2 /\ nearestEven y = below) \/
  (1 # 2 < y - inject_Z below /\ nearestEven y = (below + 1)%Z) \/
  (y - inject_Z below == 1 # 2 /\
   (nearestEven y = below \/ nearestEven y = (below + 1)%Z)).
Proof.
  cbv zeta. unfold nearestEven.
  destruct (y - inject_Z (Qfloor y) ?= 1 # 2) eqn:Hc.
  - apply Qeq_alt in Hc. right. right. split; [exact Hc|].
    destruct (Z.even (Qfloor y)); [left|right]; reflexivity.
  - apply Qlt_alt in Hc. left. split; [exact Hc|reflexivity].
  - apply Qgt_alt in Hc. right. left. split; [exact Hc|reflexivity].
Qed.

Lemma floor_bounds (y : Q) : inject_Z (Qfloor y) <= y /\ y < inject_Z (Qfloor y) + 1.
Proof.
  split; [apply Qfloor_le|].
  pose proof (Qlt_floor y) as H. rewrite inject_Z_plus in H. exact H.
Qed.

Lemma nearestEven_error (y : Q) :
  - (1 # 2) <= inject_Z (nearestEven y) - y /\ inject_Z (nearestEven y) - y <= 1 # 2.
Proof.
  pose proof (floor_bounds y) as [Hf1 Hf2].
  destruct (nearestEven_cases y) as [[H ->]|[[H ->]|[H [-> | ->]]]];
    rewrite ?inject_Z_plus; change (inject_Z 1) with 1; lra.
Qed.

Lemma nearestEven_Z (k : Z) : nearestEven (inject_Z k) = k.
Proof.
  unfold nearestEven. rewrite Qfloor_Z.
  destruct (inject_Z k - inject_Z k ?= 1 # 2) eqn:Hc; [| reflexivity |].
  - apply Qeq_alt in Hc. lra.
  - apply Qgt_alt in Hc. lra.
Qed.

Lemma nearestEven_mono (y1 y2 : Q) : y1 <= y2 -> (nearestEven y1 <= nearestEven y2)%Z.
Proof.
  intros Hle.
  pose proof (Qfloor_resp_le _ _ Hle) as Hfl.
  destruct (Z.eq_dec (Qfloor y1) (Qfloor y2)) as [Heq|Hne].
  - (* same integer below *)
    unfold nearestEven. rewrite Heq.
    destruct (y1 - inject_Z (Qfloor y2) ?= 1 # 2) eqn:H1;
      destruct (y2 - inject_Z (Qfloor y2) ?= 1 # 2) eqn:H2;
      try (destruct (Z.even (Qfloor y2))); try lia;
      repeat match goal with
        | H : (_ ?= _) = Eq |- _ => apply Qeq_alt in H
        | H : (_ ?= _) = Lt |- _ => apply Qlt_alt in H
        | H : (_ ?= _) = Gt |- _ => apply Qgt_alt in H
        end; lra.
  - assert (Qfloor y1 + 1 <= Qfloor y2)%Z by lia.
    assert (nearestEven y1 <= Qfloor y1 + 1)%Z.
    { destruct (nearestEven_cases y1) as [[_ ->]|[[_ ->]|[_ [-> | ->]]]]; lia. }
    assert (Qfloor y2 <= nearestEven y2)%Z.
    { destruct (nearestEven_cases y2) as [[_ ->]|[[_ ->]|[_ [-> | ->]]]]; lia. }
    lia.
Qed.

Lemma nearestEven_proper (y1 y2 : Q) : y1 == y2 -> nearestEven y1 = nearestEven y2.
Proof.
  intros H. apply Z.le_antisymm; apply nearestEven_mono; rewrite H; apply Qle_refl.
Qed.

(** Rounding to the nearest double. *)

Lemma rnd_proper (x y : Q) : x == y -> rnd x == rnd y.
Proof.
  intros H. unfold rnd. rewrite (ulp_proper x y H).
  rewrite (nearestEven_proper (x / ulp y) (y / ulp y)); [reflexivity|].
  rewrite H. reflexivity.
Qed.

(** The rounding error is at most half the spacing. *)
Lemma rnd_error (x : Q) :
  - (ulp x / 2) <= rnd x - x /\ rnd x - x <= ulp x / 2.
Proof.
  pose proof (ulp_pos x) as Hu.
  pose proof (nearestEven_error (x / ulp x)) as [H1 H2].
  unfold rnd. generalize dependent (ulp x). intros u Hu.
  generalize (inject_Z (nearestEven (x / u))). intros k H1 H2.
  assert (E : k * u - x == (k - x / u) * u) by (field; lra).
  rewrite E. clear E. generalize dependent (k - x / u). intros d H1 H2.
  assert (Hlo : - (1 # 2) * u <= d * u) by (apply Qmult_le_compat_r; lra).
  assert (Hhi : d * u <= (1 # 2) * u) by (apply Qmult_le_compat_r; lra).
  unfold Qdiv. change (/ 2) with (1 # 2). split; lra.
Qed.

Lemma rnd_le_grid (x : Q) (k : Z) :
  x <= inject_Z k * ulp x -> rnd x <= inject_Z k * ulp x.
Proof.
  intros H. pose proof (ulp_pos x) as Hu. unfold rnd.
  apply Qmult_le_compat_r; [|lra].
  rewrite <- Zle_Qle. rewrite <- (nearestEven_Z k).
  apply nearestEven_mono. apply Qle_shift_div_r; [exact Hu|exact H].
Qed.

Lemma rnd_ge_grid (x : Q) (k : Z) :
  inject_Z k * ulp x <= x -> inject_Z k * ulp x <= rnd x.
Proof.
  intros H. pose proof (ulp_pos x) as Hu. unfold rnd.
  apply Qmult_le_compat_r; [|lra].
  rewrite <- Zle_Qle. rewrite <- (nearestEven_Z k).
  apply nearestEven_mono. apply Qle_shift_div_l; [exact Hu|exact H].
Qed.

Lemma rnd_nonneg (x : Q) : 0 <= x -> 0 <= rnd x.
Proof.
  intros H. pose proof (rnd_ge_grid x 0) as Hg.
  change (inject_Z 0) with 0 in Hg. rewrite Qmult_0_l in Hg. apply Hg. exact H.
Qed.

Lemma rnd_nonpos (x : Q) : x <= 0 -> rnd x <= 0.
Proof.
  intros H. pose proof (rnd_le_grid x 0) as Hg.
  change (inject_Z 0) with 0 in Hg. rewrite Qmult_0_l in Hg. apply Hg. exact H.
Qed.

(** The exponent of the spacing: the binade, or -1022 among the subnormals. *)
Lemma grid_pow2 (x : Q) (n : Z) :
  (0 <= n)%Z ->
  inject_Z (2 ^ n) * ulp x == 2 ^ (Z.max (binade x) (-1022) - 52 + n).
Proof.
  intros Hn. unfold ulp. rewrite pow2_Z by exact Hn.
  rewrite Qpower_plus by discriminate. ring.
Qed.

Lemma binade_le (x y : Q) :
  ~ x == 0 -> Qabs x <= Qabs y -> (binade x <= binade y)%Z.
Proof.
  intros Hx Hle.
  assert (Hy : ~ y == 0).
  { intros H. assert (Hy0 : Qabs y == 0) by (rewrite H; reflexivity).
    destruct (binade_spec x Hx) as [H1 _]. pose proof (pow2_pos (binade x)). lra. }
  destruct (binade_spec x Hx) as [H1 _]. destruct (binade_spec y Hy) as [_ H2].
  assert (binade x < binade y + 1)%Z; [|lia].
  apply Qpower_lt_compat_l_inv with 2; [|reflexivity]. lra.
Qed.

Lemma rnd_mono_pos (x y : Q) : 0 < x -> x <= y -> rnd x <= rnd y.
Proof.
  intros Hx Hle.
  assert (Hx0 : ~ x == 0) by lra. assert (Hy0 : ~ y == 0) by lra.
  assert (Hax : Qabs x == x) by (apply Qabs_pos; lra).
  assert (Hay : Qabs y == y) by (apply Qabs_pos; lra).
  destruct (binade_spec x Hx0) as [Hx1 Hx2]. destruct (binade_spec y Hy0) as [Hy1 Hy2].
  rewrite Hax in Hx1, Hx2. rewrite Hay in Hy1, Hy2.
  assert (Hb : (binade x <= binade y)%Z) by (apply binade_le; [exact Hx0|lra]).
  destruct (Z.eq_dec (Z.max (binade x) (-1022)) (Z.max (binade y) (-1022))) as [Heq|Hne].
  - (* the same spacing *)
    assert (Hu : ulp x = ulp y) by (unfold ulp; rewrite Heq; reflexivity).
    unfold rnd. rewrite Hu. pose proof (ulp_pos y) as Hpos.
    apply Qmult_le_compat_r; [|lra].
    rewrite <- Zle_Qle. apply nearestEven_mono.
    apply Qmult_le_compat_r; [exact Hle|]. apply Qlt_le_weak, Qinv_lt_0_compat, Hpos.
  - (* [y] is in a higher binade: a power of two lies between them *)
    assert (Hlt : (Z.max (binade x) (-1022) < Z.max (binade y) (-1022))%Z) by lia.
    assert (Hey : Z.max (binade y) (-1022) = binade y) by lia.
    apply Qle_trans with (inject_Z (2 ^ 53) * ulp x).
    + apply rnd_le_grid. rewrite grid_pow2 by lia.
      apply Qle_trans with (2 ^ (binade x + 1)); [lra|]. apply pow2_le. lia.
    + apply Qle_trans with (inject_Z (2 ^ 52) * ulp y).
      * rewrite !grid_pow2 by lia. apply pow2_le. lia.
      * apply rnd_ge_grid. rewrite grid_pow2 by lia. rewrite Hey.
        replace (binade y - 52 + 52)%Z with (binade y) by lia. exact Hy1.
Qed.

Lemma rnd_mono_neg (x y : Q) : y < 0 -> x <= y -> rnd x <= rnd y.
Proof.
  intros Hy Hle.
  assert (Hx0 : ~ x == 0) by lra. assert (Hy0 : ~ y == 0) by lra.
  assert (Hax : Qabs x == - x) by (apply Qabs_neg; lra).
  assert (Hay : Qabs y == - y) by (apply Qabs_neg; lra).
  destruct (binade_spec x Hx0) as [Hx1 Hx2]. destruct (binade_spec y Hy0) as [Hy1 Hy2].
  rewrite Hax in Hx1, Hx2. rewrite Hay in Hy1, Hy2.
  assert (Hb : (binade y <= binade x)%Z) by (apply binade_le; [exact Hy0|lra]).
  destruct (Z.eq_dec (Z.max (binade x) (-1022)) (Z.max (binade y) (-1022))) as [Heq|Hne].
  - assert (Hu : ulp x = ulp y) by (unfold ulp; rewrite Heq; reflexivity).
    unfold rnd. rewrite Hu. pose proof (ulp_pos y) as Hpos.
    apply Qmult_le_compat_r; [|lra].
    rewrite <- Zle_Qle. apply nearestEven_mono.
    apply Qmult_le_compat_r; [exact Hle|]. apply Qlt_le_weak, Qinv_lt_0_compat, Hpos.
  - assert (Hlt : (Z.max (binade y) (-1022) < Z.max (binade x) (-1022))%Z) by lia.
    assert (Hex : Z.max (binade x) (-1022) = binade x) by lia.
    apply Qle_trans with (inject_Z (- 2 ^ 52) * ulp x).
    + apply rnd_le_grid. rewrite inject_Z_opp.
      setoid_replace (- inject_Z (2 ^ 52) * ulp x) with (- (inject_Z (2 ^ 52) * ulp x)) using relation Qeq by ring.
      rewrite grid_pow2 by lia. rewrite Hex.
      replace (binade x - 52 + 52)%Z with (binade x) by lia. lra.
    + apply Qle_trans with (inject_Z (- 2 ^ 53) * ulp y).
      * rewrite !inject_Z_opp.
        setoid_replace (- inject_Z (2 ^ 52) * ulp x) with (- (inject_Z (2 ^ 52) * ulp x)) using relation Qeq by ring.
        setoid_replace (- inject_Z (2 ^ 53) * ulp y) with (- (inject_Z (2 ^ 53) * ulp y)) using relation Qeq by ring.
        rewrite !grid_pow2 by lia. apply Qopp_le_compat. apply pow2_le. lia.
      * apply rnd_ge_grid. rewrite inject_Z_opp.
        setoid_replace (- inject_Z (2 ^ 53) * ulp y) with (- (inject_Z (2 ^ 53) * ulp y)) using relation Qeq by ring.
        rewrite grid_pow2 by lia.
        assert (2 ^ (binade y + 1) <= 2 ^ (Z.max (binade y) (-1022) - 52 + 53)) by (apply pow2_le; lia).
        lra.
Qed.

(** Rounding keeps the order. *)
Lemma rnd_mono (x y : Q) : x <= y -> rnd x <= rnd y.
Proof.
  intros Hle.
  destruct (Qlt_le_dec 0 x) as [Hx|Hx]; [apply rnd_mono_pos; assumption|].
  destruct (Qlt_le_dec y 0) as [Hy|Hy]; [apply rnd_mono_neg; assumption|].
  apply Qle_trans with 0; [apply rnd_nonpos|apply rnd_nonneg]; assumption.
Qed.

(** A multiple of a power of two with fewer than 54 bits is a double. *)
Lemma rnd_exact (m k : Z) :
  (Z.abs m < 2 ^ 53)%Z -> (-1074 <= k)%Z ->
  rnd (inject_Z m * 2 ^ k) == inject_Z m * 2 ^ k.
Proof.
  intros Hm Hk.
  destruct (Z.eq_dec m 0%Z) as [->|Hm0].
  { unfold rnd. change (inject_Z 0) with 0. rewrite (nearestEven_proper _ (inject_Z 0)).
    - rewrite nearestEven_Z. ring.
    - change (inject_Z 0) with 0. unfold Qdiv. ring. }
  set (x := inject_Z m * 2 ^ k).
  assert (Hlog : (Z.log2 (Z.abs m) < 53)%Z) by (apply Z.log2_lt_pow2; lia).
  pose proof (Z.log2_spec (Z.abs m) ltac:(lia)) as [Hl1 Hl2].
  pose proof (Z.log2_nonneg (Z.abs m)) as Hl0.
  assert (Habs : Qabs x == inject_Z (Z.abs m) * 2 ^ k).
  { unfold x. rewrite Qabs_Qmult. rewrite (Qabs_pos (2 ^ k)) by (apply Qlt_le_weak, pow2_pos).
    apply Qmult_comp; [|reflexivity]. unfold Qabs, inject_Z. cbn. reflexivity. }
  assert (Hbin : binade x = (Z.log2 (Z.abs m) + k)%Z).
  { apply binade_unique; rewrite Habs.
    - rewrite Qpower_plus by discriminate.
      apply Qmult_le_compat_r; [|apply Qlt_le_weak, pow2_pos].
      rewrite <- pow2_Z by exact Hl0. rewrite <- Zle_Qle. exact Hl1.
    - replace (Z.log2 (Z.abs m) + k + 1)%Z with (Z.succ (Z.log2 (Z.abs m)) + k)%Z by lia.
      rewrite Qpower_plus by discriminate.
      apply Qmult_lt_r; [apply pow2_pos|].
      rewrite <- pow2_Z by lia. rewrite <- Zlt_Qlt. exact Hl2. }
  set (j := (Z.max (binade x) (-1022) - 52)%Z).
  assert (Hj : (j <= k)%Z) by (unfold j; lia).
  assert (Hu : ulp x = 2 ^ j) by reflexivity.
  assert (Hq : x / ulp x == inject_Z (m * 2 ^ (k - j))).
  { rewrite Hu. unfold x. rewrite inject_Z_mult. rewrite pow2_Z by lia.
    rewrite Qpower_minus by discriminate. field.
    pose proof (pow2_pos j). lra. }
  unfold rnd. rewrite (nearestEven_proper _ _ Hq). rewrite nearestEven_Z.
  rewrite Hu. unfold x. rewrite inject_Z_mult. rewrite pow2_Z by lia.
  rewrite Qpower_minus by discriminate. field.
  pose proof (pow2_pos j). lra.
Qed.

(** The arithmetic of [Binary64] and that of the doubles of the kernel give
    the same values on the computations that decide the examples of this file:
    the literal 0.3, the weighted sum of the sub-scores 67, 90, 8, 100 and 80,
    a full turn taken off 1e19, a full turn added to 0.1 and taken off again,
    and the sector of the double next below 11.25, a full turn later. *)
Lemma rnd_agrees_with_kernel_doubles :
  sameValue (3 / 10)%float (rnd 0.3) /\
  sameValue (67 * (3 / 10) + 90 * (2 / 10) + 8 * (2 / 10) + 100 * (15 / 100)
             + 8 * (1 / 10) + 80 * (5 / 100))%float
            (inject_Z 67 ⊗ rnd 0.3 ⊕ inject_Z 90 ⊗ rnd 0.2 ⊕ inject_Z 8 ⊗ rnd 0.2
             ⊕ inject_Z 100 ⊗ rnd 0.15 ⊕ inject_Z 8 ⊗ rnd 0.1 ⊕ inject_Z 80 ⊗ rnd 0.05) /\
  sameValue (1e19 - 360)%float (10000000000000000000 ⊖ 360) /\
  sameValue (1 / 10 + 360 - 360)%float (rnd 0.1 ⊕ 360 ⊖ 360) /\
  sameValue ((11.25 - 0x1p-49 + 360) / 22.5)%float
            (((11.25 - (1 # 562949953421312)) ⊕ 360) ⊘ 22.5).
Proof. repeat split; vm_compute; reflexivity. Qed.

Lemma rnd_Z (n : Z) : (Z.abs n < 2 ^ 53)%Z -> rnd (inject_Z n) == inject_Z n.
Proof.
  intros H. pose proof (rnd_exact n 0 H ltac:(lia)) as E.
  assert (E0 : inject_Z n * 2 ^ 0 == inject_Z n) by (change (2 ^ 0) with 1; ring).
  transitivity (rnd (inject_Z n * 2 ^ 0)); [apply rnd_proper; symmetry; exact E0|].
  transitivity (inject_Z n * 2 ^ 0); [exact E|exact E0].
Qed.

(** What has been rounded is a double. *)
Lemma ulp_le (x : Q) (e : Z) :
  Qabs x < 2 ^ (e + 1) -> (-1 <= e)%Z -> ulp x <= 2 ^ (e - 52).
Proof.
  intros H He. unfold ulp. apply pow2_le.
  destruct (Qeq_dec x 0) as [H0|H0].
  - rewrite (binade_proper x 0 H0). vm_compute binade. lia.
  - destruct (binade_spec x H0) as [H1 _].
    assert (binade x < e + 1)%Z; [|lia].
    apply Qpower_lt_compat_l_inv with 2; [|reflexivity]. lra.
Qed.

(** The operations on doubles keep the order of their operands. *)
Lemma mul_mono_l (a b w : Q) : 0 <= w -> a <= b -> a ⊗ w <= b ⊗ w.
Proof. intros Hw Hab. apply rnd_mono. now apply Qmult_le_compat_r. Qed.

Lemma add_mono (a b c d : Q) : a <= b -> c <= d -> a ⊕ c <= b ⊕ d.
Proof. intros Hab Hcd. apply rnd_mono. lra. Qed.

Lemma sub_mono (a b c d : Q) : a <= b -> c <= d -> a ⊖ d <= b ⊖ c.
Proof. intros Hab Hcd. apply rnd_mono. lra. Qed.

Lemma div_mono_l (a b r : Q) : 0 <= r -> a <= b -> a ⊘ r <= b ⊘ r.
Proof.
  intros Hr Hab. apply rnd_mono. unfold Qdiv. apply Qmult_le_compat_r; [exact Hab|].
  now apply Qinv_le_0_compat.
Qed.

(** A quotient of doubles in the order [0 <= d <= r] lies between 0 and 1. *)
Lemma div_unit_interval (d r : Q) : 0 <= d -> d <= r -> 0 <= d ⊘ r /\ d ⊘ r <= 1.
Proof.
  intros Hd Hdr.
  assert (Hzero : rnd 0 == 0) by (vm_compute; reflexivity).
  assert (Hone : rnd 1 == 1) by (vm_compute; reflexivity).
  assert (Hq : 0 <= d / r /\ d / r <= 1).
  { destruct (Qlt_le_dec 0 r) as [Hpos|Hnonpos].
    - split; [apply Qle_shift_div_l|apply Qle_shift_div_r]; lra.
    - assert (Hr : r == 0) by lra. assert (Hd0 : d == 0) by lra.
      assert (Hquot : d / r == 0) by (rewrite Hd0; unfold Qdiv; ring).
      rewrite Hquot. split; lra. }
  destruct Hq as [Hq0 Hq1].
  pose proof (rnd_mono _ _ Hq0). pose proof (rnd_mono _ _ Hq1).
  unfold Binary64.div. split; lra.
Qed.

End Binary64Facts.

(** A closed number, replaced by its value. *)
Ltac literal c :=
  let v := eval vm_compute in c in
  replace c with v by (vm_compute; reflexivity).

(** ** The two loops of [normalizeAngle] *)

Section NormalizeAngle.

Lemma raise_loop_some fuel n r :
  raise_loop fuel n = Some r ->
  -180 <= r /\ ((r = n /\ -180 <= n) \/ (n < -180 /\ r < 180)).
Proof.
  revert n. induction fuel as [|fuel IH]; intros n; simpl; [discriminate|].
  destruct (n <? -180) eqn:Hn.
  - apply ltb_lt in Hn. intros Hr. apply IH in Hr as [Hlo [[-> Hge]|[Hlt Hhi]]].
    + split; [lra|]. right. lra.
    + split; [lra|]. right. lra.
  - apply ltb_ge in Hn. intros [= <-]. split; [lra|]. left. split; [reflexivity|lra].
Qed.

Lemma raise_loop_enough fuel n :
  -180 <= n + 360 * inject_Z (Z.of_nat fuel) -> is_Some (raise_loop (S fuel) n).
Proof.
  revert n. induction fuel as [|fuel IH]; intros n Hn.
  - simpl. destruct (n <? -180) eqn:Hlt; [|eauto].
    apply ltb_lt in Hlt. change (inject_Z (Z.of_nat 0)) with 0 in Hn. lra.
  - change (raise_loop (S (S fuel)) n)
      with (if n <? -180 then raise_loop (S fuel) (n + 360) else Some n).
    destruct (n <? -180); [|eauto].
    apply IH. rewrite Nat2Z.inj_succ, <- Z.add_1_r, inject_Z_plus in Hn.
    change (inject_Z 1) with 1 in Hn. lra.
Qed.


Lemma lower_loop_some fuel n r :
  lower_loop fuel n = Some r ->
  r <= 180 /\ ((r = n /\ n <= 180) \/ (180 < n /\ -180 < r)).
Proof.
  revert n. induction fuel as [|fuel IH]; intros n; simpl; [discriminate|].
  destruct (n >? 180) eqn:Hn.
  - apply gtb_gt in Hn. intros Hr. apply IH in Hr as [Hhi [[-> Hle]|[Hgt Hlo]]].
    + split; [lra|]. right. lra.
    + split; [lra|]. right. lra.
  - apply gtb_le in Hn. intros [= <-]. split; [lra|]. left. split; [reflexivity|lra].
Qed.

Lemma lower_loop_enough fuel n :
  n - 360 * inject_Z (Z.of_nat fuel) <= 180 -> is_Some (lower_loop (S fuel) n).
Proof.
  revert n. induction fuel as [|fuel IH]; intros n Hn.
  - simpl. destruct (n >? 180) eqn:Hgt; [|eauto].
    apply gtb_gt in Hgt. change (inject_Z (Z.of_nat 0)) with 0 in Hn. lra.
  - change (lower_loop (S (S fuel)) n)
      with (if n >? 180 then lower_loop (S fuel) (n - 360) else Some n).
    destruct (n >? 180); [|eauto].
    apply IH. rewrite Nat2Z.inj_succ, <- Z.add_1_r, inject_Z_plus in Hn.
    change (inject_Z 1) with 1 in Hn. lra.
Qed.


Lemma angle_fuel_bound x :
  JS.abs x <= 360 * inject_Z (Z.of_nat (Z.to_nat (Qceiling (JS.abs x / 360)))).
Proof.
  pose proof (abs_nonneg x) as Habs.
  pose proof (Qle_ceiling (JS.abs x / 360)) as Hceil.
  assert (Hq : 0 <= JS.abs x / 360).
  { apply Qle_shift_div_l; lra. }
  assert (Hz : (0 <= Qceiling (JS.abs x / 360))%Z).
  { change 0%Z with (Qceiling 0). now apply Qceiling_resp_le. }
  rewrite Z2Nat.id by exact Hz.
  assert (Hmul : JS.abs x == (JS.abs x / 360) * 360) by (field; lra).
  rewrite Hmul at 1. lra.
Qed.

(** The fuel computed by [angle_fuel] always suffices: [normalizeAngle] is
    the result of the two loops. *)
Lemma normalizeAngle_fuel_enough x :
  normalizeAngle_fuel (angle_fuel x) x = Some (normalizeAngle x).
Proof.
  unfold normalizeAngle, normalizeAngle_fuel, angle_fuel.
  pose proof (angle_fuel_bound x) as Hb.
  set (fuel := Z.to_nat (Qceiling (JS.abs x / 360))) in *.
  destruct (abs_cases x) as [[Hx Ha]|[Hx Ha]]; rewrite Ha in Hb.
  - destruct (raise_loop_enough fuel x) as [r Hr]; [lra|].
    rewrite Hr. pose proof (raise_loop_some _ _ _ Hr) as [Hlo Hcase].
    destruct (lower_loop_enough fuel r) as [r' Hr'].
    { destruct Hcase as [[-> _]|[_ Hhi]]; [lra|].
      assert (0 <= 360 * inject_Z (Z.of_nat fuel)) by lra. lra. }
    now rewrite Hr'.
  - destruct (raise_loop_enough fuel x) as [r Hr]; [lra|].
    rewrite Hr. pose proof (raise_loop_some _ _ _ Hr) as [Hlo Hcase].
    destruct (lower_loop_enough fuel r) as [r' Hr'].
    { destruct Hcase as [[-> _]|[Hlt _]]; lra. }
    now rewrite Hr'.
Qed.




Lemma normalizeAngle_bounds x : -180 <= normalizeAngle x <= 180.
Proof.
  pose proof (normalizeAngle_fuel_enough x) as Hx. unfold normalizeAngle_fuel in Hx.
  destruct (raise_loop (angle_fuel x) x) as [a|] eqn:Ha; [|discriminate].
  apply raise_loop_some in Ha as [Hlo _].
  apply lower_loop_some in Hx as [Hhi [[Heq _]|[_ Hgt]]].
  - rewrite Heq in *. lra.
  - lra.
Qed.




End NormalizeAngle.

(** ** The loops of [normalizeAngle] on doubles *)

Section NormalizeAngle64.














End NormalizeAngle64.

(** ** C3: range, idempotence and periodicity of [normalizeAngle] *)




(** ** C8: [scoreWind] in the speed and in the direction *)

Ltac js_props :=
  repeat match goal with
  | H : JS.ltb _ _ = true |- _ => apply ltb_lt in H
  | H : JS.ltb _ _ = false |- _ => apply ltb_ge in H
  | H : JS.leb _ _ = true |- _ => apply leb_le in H
  | H : JS.leb _ _ = false |- _ => apply leb_gt in H
  | H : JS.gtb _ _ = true |- _ => apply gtb_gt in H
  | H : JS.gtb _ _ = false |- _ => apply gtb_le in H
  | H : JS.geb _ _ = true |- _ => apply geb_ge in H
  | H : JS.geb _ _ = false |- _ => apply geb_lt in H
  end.

Ltac split_ifs :=
  repeat match goal with
  | |- context [if ?b then _ else _] => destruct b eqn:?
  end.

Section ScoreWind.





End ScoreWind.




(** ** C2: [scoreWaveHeight] around the ideal range *)

Ltac js_bools :=
  repeat match goal with
  | H : _ && _ = true |- _ => apply andb_true_iff in H; destruct H
  | H : _ && _ = false |- _ => apply andb_false_iff in H; destruct H
  | H : _ || _ = true |- _ => apply orb_true_iff in H; destruct H
  | H : _ || _ = false |- _ => apply orb_false_iff in H; destruct H
  end.

Ltac table_cases H :=
  simpl in H;
  repeat (apply lookup_insert_Some in H as [[<- <-]|[_ H]]);
  try (rewrite lookup_empty in H; discriminate H).

(** Every cell of the table satisfies the invariant. *)
Lemma lookupSkillConfig_valid surferType skillLevel config :
  lookupSkillConfig surferType skillLevel = Some config -> validRange config.
Proof.
  unfold lookupSkillConfig, SKILL_CONFIGS. intros Hlookup.
  apply bind_Some in Hlookup as (inner & Hinner & Hlookup).
  table_cases Hinner; table_cases Hlookup;
    unfold validRange; simpl; repeat split; vm_compute; congruence.
Qed.

Section ScoreWaveHeight.

Context {host : PrototypeChain}.
Variables surferType skillLevel : string.
Variable config : SkillConfig.
Hypothesis Hconfig : lookupSkillConfig surferType skillLevel = Some config.
Hypothesis Hvalid : validRange config.

Ltac wave_branch :=
  unfold scoreWaveHeight, readSkillConfig; rewrite Hconfig;
  destruct Hvalid as (Hpos & Hlow & Hmid & Hhigh);
  split_ifs; try reflexivity; exfalso; js_bools; js_props; lra.

Lemma wave_ideal height :
  minIdeal config <= height <= maxIdeal config ->
  scoreWaveHeight height surferType skillLevel = 100%Z.
Proof. intros [Hlo Hhi]. wave_branch. Qed.

Lemma wave_sub_ideal height :
  minSurfable config <= height < minIdeal config ->
  scoreWaveHeight height surferType skillLevel =
  JS.round (100 ⊖ ((minIdeal config ⊖ height) ⊘ (minIdeal config ⊖ minSurfable config)) ⊗ 40).
Proof. intros [Hlo Hhi]. wave_branch. Qed.

Lemma wave_over_ideal height :
  maxIdeal config < height <= maxSurfable config ->
  scoreWaveHeight height surferType skillLevel =
  JS.round (100 ⊖ ((height ⊖ maxIdeal config) ⊘ (maxSurfable config ⊖ maxIdeal config)) ⊗ 50).
Proof. intros [Hlo Hhi]. wave_branch. Qed.

Lemma wave_too_small height :
  height < minSurfable config ->
  scoreWaveHeight height surferType skillLevel
  = Z.max 0 (JS.round ((height ⊘ minSurfable config) ⊗ 30)).
Proof. intros Hlt. wave_branch. Qed.

Lemma wave_too_big height :
  maxSurfable config < height ->
  scoreWaveHeight height surferType skillLevel
  = Z.max 0 (JS.round (30 ⊖ (height ⊖ maxSurfable config) ⊗ 10)).
Proof. intros Hgt. wave_branch. Qed.

(** A ramp that takes [share * drop] off 100, for a share between 0 and 1,
    stays between [100 - drop] and 100. *)
Lemma ramp_bounds (share : Q) (drop : Z) :
  (0 <= drop <= 100)%Z -> 0 <= share -> share <= 1 ->
  (100 - drop <= JS.round (100 ⊖ share ⊗ inject_Z drop) <= 100)%Z.
Proof.
  intros [Hd0 Hd1] Hs0 Hs1.
  assert (Hdouble : forall n : Z, (0 <= n <= 100)%Z ->
                                  Binary64.rnd (inject_Z n) == inject_Z n).
  { intros n Hn. apply rnd_Z. lia. }
  assert (Hdq : 0 <= inject_Z drop).
  { change 0 with (inject_Z 0). rewrite <- Zle_Qle. exact Hd0. }
  assert (Hprod : 0 <= share ⊗ inject_Z drop /\ share ⊗ inject_Z drop <= inject_Z drop).
  { assert (Hlo : 0 * inject_Z drop <= share * inject_Z drop)
      by (apply Qmult_le_compat_r; assumption).
    assert (Hhi : share * inject_Z drop <= 1 * inject_Z drop)
      by (apply Qmult_le_compat_r; assumption).
    pose proof (rnd_mono _ _ Hlo) as Hlo'. pose proof (rnd_mono _ _ Hhi) as Hhi'.
    assert (Hzero : Binary64.rnd (0 * inject_Z drop) == 0).
    { rewrite (rnd_proper _ 0) by ring. vm_compute. reflexivity. }
    assert (Hdrop : Binary64.rnd (1 * inject_Z drop) == inject_Z drop).
    { rewrite (rnd_proper _ (inject_Z drop)) by ring. apply Hdouble. lia. }
    unfold Binary64.mul. split; lra. }
  destruct Hprod as [Hp0 Hp1].
  assert (Hhundred : Binary64.rnd 100 == 100) by (vm_compute; reflexivity).
  assert (Hleast : Binary64.rnd (100 - inject_Z drop) == inject_Z (100 - drop)).
  { rewrite (rnd_proper _ (inject_Z (100 - drop))).
    - apply Hdouble. lia.
    - unfold Z.sub. rewrite inject_Z_plus, inject_Z_opp. reflexivity. }
  assert (Hlo : 100 - inject_Z drop <= 100 - share ⊗ inject_Z drop) by lra.
  assert (Hhi : 100 - share ⊗ inject_Z drop <= 100) by lra.
  pose proof (rnd_mono _ _ Hlo) as Hlo'. pose proof (rnd_mono _ _ Hhi) as Hhi'.
  unfold Binary64.sub. split.
  - apply round_lower. lra.
  - apply round_upper. change (inject_Z 100) with 100. lra.
Qed.

Lemma wave_sub_ideal_bounds height :
  minSurfable config <= height < minIdeal config ->
  (60 <= scoreWaveHeight height surferType skillLevel <= 100)%Z.
Proof.
  intros Hh. rewrite (wave_sub_ideal _ Hh). destruct Hh as [Hlo Hhi].
  assert (Hzero : Binary64.rnd 0 == 0) by (vm_compute; reflexivity).
  assert (Hdiff0 : 0 <= minIdeal config ⊖ height).
  { assert (Hle : 0 <= minIdeal config - height) by lra.
    pose proof (rnd_mono _ _ Hle). unfold Binary64.sub. lra. }
  assert (Hdiff1 : minIdeal config ⊖ height <= minIdeal config ⊖ minSurfable config)
    by (apply sub_mono; lra).
  destruct (div_unit_interval _ _ Hdiff0 Hdiff1) as [Hq0 Hq1].
  exact (ramp_bounds _ 40 ltac:(lia) Hq0 Hq1).
Qed.

Lemma wave_over_ideal_bounds height :
  maxIdeal config < height <= maxSurfable config ->
  (50 <= scoreWaveHeight height surferType skillLevel <= 100)%Z.
Proof.
  intros Hh. rewrite (wave_over_ideal _ Hh). destruct Hh as [Hlo Hhi].
  assert (Hzero : Binary64.rnd 0 == 0) by (vm_compute; reflexivity).
  assert (Hdiff0 : 0 <= height ⊖ maxIdeal config).
  { assert (Hle : 0 <= height - maxIdeal config) by lra.
    pose proof (rnd_mono _ _ Hle). unfold Binary64.sub. lra. }
  assert (Hdiff1 : height ⊖ maxIdeal config <= maxSurfable config ⊖ maxIdeal config)
    by (apply sub_mono; lra).
  destruct (div_unit_interval _ _ Hdiff0 Hdiff1) as [Hq0 Hq1].
  exact (ramp_bounds _ 50 ltac:(lia) Hq0 Hq1).
Qed.

Lemma wave_too_small_bounds height :
  height < minSurfable config -> (0 <= scoreWaveHeight height surferType skillLevel <= 30)%Z.
Proof.
  intros Hh. rewrite (wave_too_small _ Hh).
  destruct Hvalid as (Hpos & _).
  assert (Hone : Binary64.rnd 1 == 1) by (vm_compute; reflexivity).
  assert (Hthirty : Binary64.rnd 30 == 30) by (vm_compute; reflexivity).
  assert (Hq : height ⊘ minSurfable config <= 1).
  { assert (Hle : height / minSurfable config <= 1)
      by (apply Qle_shift_div_r; [exact Hpos|lra]).
    pose proof (rnd_mono _ _ Hle). unfold Binary64.div. lra. }
  assert (Hr : (JS.round (height ⊘ minSurfable config ⊗ 30) <= 30)%Z).
  { apply round_upper. change (inject_Z 30) with 30.
    assert (Hle : height ⊘ minSurfable config * 30 <= 30) by lra.
    pose proof (rnd_mono _ _ Hle). unfold Binary64.mul at 1. lra. }
  lia.
Qed.

Lemma wave_too_big_bounds height :
  maxSurfable config < height -> (0 <= scoreWaveHeight height surferType skillLevel <= 30)%Z.
Proof.
  intros Hh. rewrite (wave_too_big _ Hh).
  assert (Hzero : Binary64.rnd 0 == 0) by (vm_compute; reflexivity).
  assert (Hthirty : Binary64.rnd 30 == 30) by (vm_compute; reflexivity).
  assert (Hdiff : 0 <= height ⊖ maxSurfable config).
  { assert (Hle : 0 <= height - maxSurfable config) by lra.
    pose proof (rnd_mono _ _ Hle). unfold Binary64.sub. lra. }
  assert (Hprod : 0 <= (height ⊖ maxSurfable config) ⊗ 10).
  { assert (Hle : 0 <= (height ⊖ maxSurfable config) * 10) by lra.
    pose proof (rnd_mono _ _ Hle). unfold Binary64.mul at 1. lra. }
  assert (Hr : (JS.round (30 ⊖ (height ⊖ maxSurfable config) ⊗ 10) <= 30)%Z).
  { apply round_upper. change (inject_Z 30) with 30.
    assert (Hle : 30 - (height ⊖ maxSurfable config) ⊗ 10 <= 30) by lra.
    pose proof (rnd_mono _ _ Hle). unfold Binary64.sub at 1. lra. }
  lia.
Qed.

(** Above the ideal range the score does not rise again. *)
Lemma wave_above_mono h1 h2 :
  maxIdeal config <= h1 -> h1 <= h2 ->
  (scoreWaveHeight h2 surferType skillLevel <= scoreWaveHeight h1 surferType skillLevel)%Z.
Proof.
  intros H1 H12. pose proof Hvalid as (Hpos & Hlow & Hmid & Hhigh).
  destruct (Qlt_le_dec (maxIdeal config) h1) as [Hover1|Hin1].
  - destruct (Qlt_le_dec (maxSurfable config) h1) as [Hbig1|Hsurf1].
    + rewrite (wave_too_big h1), (wave_too_big h2) by lra.
      apply Z.max_le_compat_l, round_mono.
      apply sub_mono; [lra|]. apply mul_mono_l; [lra|]. apply sub_mono; lra.
    + destruct (Qlt_le_dec (maxSurfable config) h2) as [Hbig2|Hsurf2].
      * pose proof (wave_over_ideal_bounds h1 (conj Hover1 Hsurf1)).
        pose proof (wave_too_big_bounds h2 Hbig2). lia.
      * rewrite (wave_over_ideal h1), (wave_over_ideal h2) by (split; lra).
        apply round_mono. apply sub_mono; [lra|]. apply mul_mono_l; [lra|].
        apply div_mono_l; [|apply sub_mono; lra].
        apply rnd_nonneg. lra.
  - rewrite (wave_ideal h1) by (split; lra).
    destruct (Qlt_le_dec (maxIdeal config) h2) as [Hover2|Hin2].
    + destruct (Qlt_le_dec (maxSurfable config) h2) as [Hbig2|Hsurf2].
      * pose proof (wave_too_big_bounds h2 Hbig2). lia.
      * pose proof (wave_over_ideal_bounds h2 (conj Hover2 Hsurf2)). lia.
    + rewrite (wave_ideal h2) by (split; lra). lia.
Qed.

(** Below the ideal range the score does not rise as the height drops. *)
Lemma wave_below_mono h1 h2 :
  h1 <= h2 -> h2 <= minIdeal config ->
  (scoreWaveHeight h1 surferType skillLevel <= scoreWaveHeight h2 surferType skillLevel)%Z.
Proof.
  intros H12 H2. pose proof Hvalid as (Hpos & Hlow & Hmid & Hhigh).
  destruct (Qlt_le_dec h2 (minIdeal config)) as [Hsub2|Hin2].
  - destruct (Qlt_le_dec h2 (minSurfable config)) as [Hsmall2|Hsurf2].
    + rewrite (wave_too_small h1), (wave_too_small h2) by lra.
      apply Z.max_le_compat_l, round_mono.
      apply mul_mono_l; [lra|]. apply div_mono_l; lra.
    + destruct (Qlt_le_dec h1 (minSurfable config)) as [Hsmall1|Hsurf1].
      * pose proof (wave_sub_ideal_bounds h2 (conj Hsurf2 Hsub2)).
        pose proof (wave_too_small_bounds h1 Hsmall1). lia.
      * rewrite (wave_sub_ideal h1), (wave_sub_ideal h2) by (split; lra).
        apply round_mono. apply sub_mono; [lra|]. apply mul_mono_l; [lra|].
        apply div_mono_l; [|apply sub_mono; lra].
        apply rnd_nonneg. lra.
  - rewrite (wave_ideal h2) by (split; lra).
    destruct (Qlt_le_dec h1 (minIdeal config)) as [Hsub1|Hin1].
    + destruct (Qlt_le_dec h1 (minSurfable config)) as [Hsmall1|Hsurf1].
      * pose proof (wave_too_small_bounds h1 Hsmall1). lia.
      * pose proof (wave_sub_ideal_bounds h1 (conj Hsurf1 Hsub1)). lia.
    + rewrite (wave_ideal h1) by (split; lra). lia.
Qed.

End ScoreWaveHeight.

(** Where the rounding of a ramp decides the sub-score: at 3.1 ft on a
    beginner's longboard the code computes 100 - 2.5000000000000022 as 97.5
    and returns 98; the same ramp over exact arithmetic stays below 97.5. *)
Lemma scoreWaveHeight_rounds_on_doubles {host : PrototypeChain} :
  scoreWaveHeight (Binary64.rnd 3.1) "longboard" "beginner" = 98%Z /\
  JS.round (100 - ((Binary64.rnd 3.1 - 3) / (5 - 3)) * 50) = 97%Z.
Proof. vm_compute. split; reflexivity. Qed.

(** C2: for every board-type/skill-level pair of the table, the range of the
    pair is ordered ([minSurfable <= minIdeal <= maxIdeal <= maxSurfable]),
    [scoreWaveHeight] is exactly 100 on [[minIdeal, maxIdeal]], it is
    non-increasing in the height from [maxIdeal] upwards, and non-decreasing in
    the height up to [minIdeal]. *)
Theorem scoreWaveHeight_ideal_plateau_monotone_sides {host : PrototypeChain}
    (surferType skillLevel : string) (config : SkillConfig) :
  lookupSkillConfig surferType skillLevel = Some config ->
  (minSurfable config <= minIdeal config /\
   minIdeal config <= maxIdeal config /\
   maxIdeal config <= maxSurfable config) /\
  (forall height,
     minIdeal config <= height <= maxIdeal config ->
     scoreWaveHeight height surferType skillLevel = 100%Z) /\
  (forall h1 h2,
     maxIdeal config <= h1 -> h1 <= h2 ->
     (scoreWaveHeight h2 surferType skillLevel
      <= scoreWaveHeight h1 surferType skillLevel)%Z) /\
  (forall h1 h2,
     h1 <= h2 -> h2 <= minIdeal config ->
     (scoreWaveHeight h1 surferType skillLevel
      <= scoreWaveHeight h2 surferType skillLevel)%Z).
Proof.
  intros Hconfig. pose proof (lookupSkillConfig_valid _ _ _ Hconfig) as Hvalid.
  split; [apply Hvalid|]. split; [|split].
  - intros height. now apply (wave_ideal surferType skillLevel config).
  - intros h1 h2. now apply (wave_above_mono surferType skillLevel config).
  - intros h1 h2. now apply (wave_below_mono surferType skillLevel config).
Qed.

Lemma scoreWaveHeight_ideal_plateau_monotone_sides_witness :
  let host := sampleHost in
  lookupSkillConfig "mediumboard" "advanced"
    = Some {| minIdeal := 3; maxIdeal := 6; minSurfable := 2; maxSurfable := 8 |} /\
  scoreWaveHeight 4.5 "mediumboard" "advanced" = 100%Z /\
  (scoreWaveHeight 9 "mediumboard" "advanced" <= scoreWaveHeight 7 "mediumboard" "advanced")%Z /\
  (scoreWaveHeight 1 "mediumboard" "advanced" <= scoreWaveHeight 2.5 "mediumboard" "advanced")%Z.
Proof.
  intros host.
  assert (Hconfig : lookupSkillConfig "mediumboard" "advanced"
            = Some {| minIdeal := 3; maxIdeal := 6; minSurfable := 2; maxSurfable := 8 |})
    by (vm_compute; reflexivity).
  destruct (scoreWaveHeight_ideal_plateau_monotone_sides _ _ _ Hconfig)
    as (_ & Hideal & Habove & Hbelow).
  split; [exact Hconfig|]. split; [|split].
  - apply Hideal. split; vm_compute; discriminate.
  - apply Habove; vm_compute; discriminate.
  - apply Hbelow; vm_compute; discriminate.
Defined.

(** ** C1: the combined score and its rating *)

Lemma weightedScore_range a b w s t : (0 <= weightedScore a b w s t <= 100)%Z.
Proof. unfold weightedScore. lia. Qed.

(** The two wind terms add up to a weight of 0.30 on the one wind score. *)
Lemma weightedScore_wind_weight a b w s t :
  weightedScore a b w s t =
  Z.min 100
    (Z.max 0
       (JS.round
          ((30 * inject_Z a + 20 * inject_Z b + 30 * inject_Z w + 15 * inject_Z s
            + 5 * inject_Z t) / 100))).
Proof. unfold weightedScore. do 2 f_equal. apply round_proper. field. Qed.


(** ** C9: the historical percentile *)





(** ** C6: the best time window *)

Section BestTimeWindowFacts.

Variable getHours : Z -> Z.
Variables today tomorrow : Z.

Lemma scorePrediction_Some bt p h :
  scorePrediction getHours today tomorrow bt p = Some h ->
  surfableToday getHours today tomorrow p /\ hourInRange h.
Proof.
  unfold scorePrediction, surfableToday, hourInRange. cbv zeta.
  destruct (_ || _) eqn:Hday; [discriminate|].
  destruct (_ || _) eqn:Hhour in |- *; [discriminate|].
  intros [= <-]. cbn [HourlyScore.hour]. js_bools. lia.
Qed.

Lemma scorePrediction_None bt p :
  scorePrediction getHours today tomorrow bt p = None <->
  ~ surfableToday getHours today tomorrow p.
Proof.
  split.
  - unfold scorePrediction, surfableToday. cbv zeta.
    destruct (_ || _) eqn:Hday.
    + intros _. js_bools; lia.
    + destruct (_ || _) eqn:Hhour in |- *; [|discriminate].
      intros _. js_bools; lia.
  - intros Hno.
    destruct (scorePrediction getHours today tomorrow bt p) as [h|] eqn:Hh; [|reflexivity].
    apply scorePrediction_Some in Hh as [Hyes _]. contradiction.
Qed.

Lemma hourlyScores_in_range td bt : Forall hourInRange (hourlyScores getHours today tomorrow td bt).
Proof.
  apply Forall_forall. intros h Hh. unfold hourlyScores in Hh.
  apply list_elem_of_omap in Hh as (p & _ & Hp).
  now apply scorePrediction_Some in Hp as [_ Hrange].
Qed.

Lemma hourlyScores_nil td bt :
  hourlyScores getHours today tomorrow td bt = [] <->
  forall p, p ∈ hourly td -> ~ surfableToday getHours today tomorrow p.
Proof.
  unfold hourlyScores. induction (hourly td) as [|p l IH]; simpl.
  - split; [|reflexivity]. intros _ p Hp. inversion Hp.
  - destruct (scorePrediction getHours today tomorrow bt p) as [h|] eqn:Hh.
    + split; [discriminate|]. intros Hall. exfalso.
      apply scorePrediction_Some in Hh as [Hyes _].
      apply (Hall p); [left|exact Hyes].
    + rewrite IH. split.
      * intros Hall q Hq. apply elem_of_cons in Hq as [->|Hq]; [|now apply Hall].
        now apply scorePrediction_None in Hh.
      * intros Hall q Hq. apply Hall. now right.
Qed.

Lemma slice_subseteq {A} i j (l : list A) : slice i j l ⊆ l.
Proof.
  unfold slice. etransitivity; [apply subseteq_take|apply subseteq_drop].
Qed.

Lemma slice_length {A} i windowSize (l : list A) :
  (i + windowSize <= length l)%nat -> length (slice i (i + windowSize) l) = windowSize.
Proof.
  intros Hbound. unfold slice. rewrite length_take, length_drop. lia.
Qed.

Lemma considerWindow_in_range scores windowSize bestWindow i :
  Forall hourInRange scores -> windowInRange bestWindow ->
  windowInRange (considerWindow scores windowSize bestWindow i).
Proof.
  intros Hscores Hbest. unfold considerWindow. cbv zeta.
  destruct (_ >? _); [|exact Hbest].
  destruct (head _) as [first|] eqn:Hfirst; [|exact Hbest].
  destruct (last _) as [final|] eqn:Hfinal; [|exact Hbest].
  apply head_Some_elem_of, slice_subseteq in Hfirst.
  apply last_Some_elem_of, slice_subseteq in Hfinal.
  rewrite Forall_forall in Hscores.
  apply Hscores in Hfirst, Hfinal. unfold hourInRange in *.
  unfold windowInRange. cbn [BestWindow.startHour BestWindow.endHour]. lia.
Qed.

Lemma fold_left_preserves {A B} (P : A -> Prop) (f : A -> B -> A) l init :
  (forall acc x, P acc -> P (f acc x)) -> P init -> P (fold_left f l init).
Proof.
  intros Hstep. revert init. induction l as [|x l IH]; intros init Hinit; simpl.
  - exact Hinit.
  - apply IH, Hstep, Hinit.
Qed.

Lemma scanWindows_in_range scores bestWindow windowSize :
  Forall hourInRange scores -> windowInRange bestWindow ->
  windowInRange (scanWindows scores bestWindow windowSize).
Proof.
  intros Hscores Hbest. unfold scanWindows.
  apply fold_left_preserves; [|exact Hbest].
  intros acc i Hacc. now apply considerWindow_in_range.
Qed.

Lemma findBestWindow_in_range td bt w :
  findBestWindow getHours today tomorrow td bt = Some w -> windowInRange w.
Proof.
  unfold findBestWindow. cbv zeta.
  destruct (hourly td) eqn:Hhourly; [discriminate|].
  pose proof (hourlyScores_in_range td bt) as Hscores.
  destruct (hourlyScores getHours today tomorrow td bt) as [|h scores] eqn:Hh; [discriminate|].
  intros [= <-]. cbn [fold_left].
  do 2 (apply scanWindows_in_range; [exact Hscores|]).
  unfold windowInRange. cbn. lia.
Qed.

Lemma findBestWindow_None td bt :
  findBestWindow getHours today tomorrow td bt = None <->
  forall p, p ∈ hourly td -> ~ surfableToday getHours today tomorrow p.
Proof.
  rewrite <- (hourlyScores_nil td bt). unfold findBestWindow. cbv zeta.
  destruct (hourly td) eqn:Hhourly.
  - unfold hourlyScores. rewrite Hhourly. simpl. tauto.
  - destruct (hourlyScores getHours today tomorrow td bt); split; intros Heq;
      first [reflexivity | discriminate Heq].
Qed.

End BestTimeWindowFacts.

(** C6 fails at the end of the day: on a day whose tide rises through the
    evening the best window for a high-tide spot is the pair of hours 19 and
    20, and the window returned ends at hour 21 (9:00 PM), outside the
    surfable hours 5 to 20 that the comments of the code name. *)
Theorem calculateBestTimeWindow_window_ends_at_9pm :
  BestWindow.endHour <$> findBestWindow (fixedZoneHours 0) 0 86400000 eveningTide TideHigh
    = Some 21%Z /\
  calculateBestTimeWindow (fixedZoneHours 0) 0 86400000 eveningTide TideHigh
    = Some {| TimeWindow.start := "7:00 PM"; TimeWindow.end_ := "9:00 PM";
              TimeWindow.reason := "Mid-high tide + evening glass-off" |} /\
  (20 < 21)%Z.
Proof.
  split; [vm_compute; reflexivity|]. split; [vm_compute; reflexivity|lia].
Qed.

(** X27: [calculateBestTimeWindow] returns null exactly when no reading of
    the series is of the current day at an hour from 5 to 20 (in particular
    for an empty series); every other result renders a window whose start hour
    lies within [5, 20] and whose end hour, one past the last hour of the
    window, lies within [6, 21]. *)
Theorem calculateBestTimeWindow_null_iff_range
    (getHours : Z -> Z) (today tomorrow : Z) (tideData : TideData)
    (spotBestTide : BestTide) :
  (calculateBestTimeWindow getHours today tomorrow tideData spotBestTide = None <->
   forall prediction,
     prediction ∈ hourly tideData ->
     ~ surfableToday getHours today tomorrow prediction) /\
  (hourly tideData = [] ->
   calculateBestTimeWindow getHours today tomorrow tideData spotBestTide = None) /\
  (forall result,
     calculateBestTimeWindow getHours today tomorrow tideData spotBestTide = Some result ->
     exists startHour endHour,
       TimeWindow.start result = formatHour startHour /\
       TimeWindow.end_ result = formatHour endHour /\
       (5 <= startHour <= 20)%Z /\ (6 <= endHour <= 21)%Z).
Proof.
  assert (Hnone : calculateBestTimeWindow getHours today tomorrow tideData spotBestTide = None <->
                  forall prediction,
                    prediction ∈ hourly tideData ->
                    ~ surfableToday getHours today tomorrow prediction).
  { unfold calculateBestTimeWindow. rewrite fmap_None. apply findBestWindow_None. }
  split; [exact Hnone|]. split.
  - intros Hempty. apply Hnone. intros p Hp. rewrite Hempty in Hp. inversion Hp.
  - intros result Hresult. unfold calculateBestTimeWindow in Hresult.
    apply fmap_Some in Hresult as (w & Hw & ->).
    apply findBestWindow_in_range in Hw as [Hstart Hend].
    exists (BestWindow.startHour w), (BestWindow.endHour w).
    unfold describeWindow. cbn [TimeWindow.start TimeWindow.end_]. auto.
Qed.

Lemma calculateBestTimeWindow_null_iff_range_witness :
  hourly {| highLow := []; hourly := [] |} = [] /\
  calculateBestTimeWindow (fixedZoneHours 0) 0 86400000
    {| highLow := []; hourly := [] |} TideHigh = None.
Proof.
  assert (Hempty : hourly {| highLow := []; hourly := [] |} = []) by reflexivity.
  split; [exact Hempty|].
  exact (proj1 (proj2 (calculateBestTimeWindow_null_iff_range (fixedZoneHours 0) 0 86400000
                         {| highLow := []; hourly := [] |} TideHigh)) Hempty).
Defined.

(** ** C4 and C5: [getCurrentTideHeight] at and beyond the readings *)

Section TideHeight.

(** When no pair of neighbours brackets [now] because every reading is at or
    before it, the loop finds nothing. *)
Lemma bracketLoop_past_all now readings :
  (forall p, p ∈ readings -> (time p <= now)%Z) -> bracketLoop now readings = None.
Proof.
  induction readings as [|current rest IH]; intros Hpast; [reflexivity|].
  destruct rest as [|next rest']; [reflexivity|].
  change (bracketLoop now (current :: next :: rest'))
    with (if (time current <=? now)%Z && (now <? time next)%Z
          then Some (height current
                     + inject_Z (now - time current) / inject_Z (time next - time current)
                       * (height next - height current))
          else bracketLoop now (next :: rest')).
  assert (Hnext : (time next <= now)%Z) by (apply Hpast; right; left).
  replace (now <? time next)%Z with false by (symmetry; apply Z.ltb_ge; lia).
  rewrite andb_false_r. apply IH. intros p Hp. apply Hpast. now right.
Qed.

(** Past the last reading the fallback is the first reading of the series,
    whatever the series. *)
Lemma getCurrentTideHeight_past_all now tideData first rest :
  hourly tideData = first :: rest ->
  (forall p, p ∈ hourly tideData -> (time p <= now)%Z) ->
  getCurrentTideHeight now tideData = height first.
Proof.
  intros Hhourly Hpast. unfold getCurrentTideHeight.
  rewrite (bracketLoop_past_all _ _ Hpast), Hhourly. reflexivity.
Qed.

Lemma increasing_tail current rest : increasing (current :: rest) -> increasing rest.
Proof. destruct rest as [|next rest']; simpl; tauto. Qed.

Lemma increasing_head_le readings i first p :
  increasing readings -> head readings = Some first -> readings !! i = Some p ->
  (time first <= time p)%Z.
Proof.
  revert readings first. induction i as [|i IH]; intros readings first Hinc Hfirst Hp.
  - rewrite head_lookup in Hfirst. assert (first = p) by congruence. subst. lia.
  - destruct readings as [|current rest]; [discriminate|].
    injection Hfirst as ->. cbn in Hp.
    destruct rest as [|next rest']; [discriminate|].
    destruct Hinc as [Hlt Hinc].
    specialize (IH (next :: rest') next Hinc eq_refl Hp). lia.
Qed.

(** Before the first reading of an increasing series the fallback is that
    first reading. *)
Lemma getCurrentTideHeight_before_first now tideData first rest :
  hourly tideData = first :: rest -> increasing (hourly tideData) ->
  (now < time first)%Z ->
  getCurrentTideHeight now tideData = height first.
Proof.
  intros Hhourly Hinc Hnow. unfold getCurrentTideHeight. rewrite Hhourly in *.
  assert (Hnone : bracketLoop now (first :: rest) = None).
  { clear Hhourly. revert first Hinc Hnow.
    induction rest as [|next rest' IH]; intros first Hinc Hnow; [reflexivity|].
    change (bracketLoop now (first :: next :: rest'))
      with (if (time first <=? now)%Z && (now <? time next)%Z
            then Some (height first
                       + inject_Z (now - time first) / inject_Z (time next - time first)
                         * (height next - height first))
            else bracketLoop now (next :: rest')).
    replace (time first <=? now)%Z with false by (symmetry; apply Z.leb_gt; lia).
    destruct Hinc as [Hlt Hinc]. apply IH; [exact Hinc|lia]. }
  now rewrite Hnone.
Qed.

(** At a reading of an increasing series that is not the last one, the
    interpolation returns the height of that reading. *)
Lemma bracketLoop_at_reading readings i p q :
  increasing readings -> readings !! i = Some p -> readings !! S i = Some q ->
  exists interpolated,
    bracketLoop (time p) readings = Some interpolated /\ interpolated == height p.
Proof.
  revert readings. induction i as [|i IH]; intros readings Hinc Hp Hq.
  - destruct readings as [|current rest]; [discriminate|].
    destruct rest as [|next rest']; [discriminate|].
    injection Hp as ->. injection Hq as ->. destruct Hinc as [Hlt _].
    change (bracketLoop (time p) (p :: q :: rest'))
      with (if (time p <=? time p)%Z && (time p <? time q)%Z
            then Some (height p
                       + inject_Z (time p - time p) / inject_Z (time q - time p)
                         * (height q - height p))
            else bracketLoop (time p) (q :: rest')).
    rewrite Z.leb_refl. replace (time p <? time q)%Z with true
      by (symmetry; apply Z.ltb_lt; lia).
    eexists. split; [reflexivity|].
    rewrite Z.sub_diag. change (inject_Z 0) with 0.
    unfold Qdiv. ring.
  - destruct readings as [|current rest]; [discriminate|].
    destruct rest as [|next rest']; [discriminate|].
    cbn in Hp, Hq. destruct Hinc as [Hlt Hinc].
    pose proof (increasing_head_le (next :: rest') i next p Hinc eq_refl Hp) as Hle.
    change (bracketLoop (time p) (current :: next :: rest'))
      with (if (time current <=? time p)%Z && (time p <? time next)%Z
            then Some (height current
                       + inject_Z (time p - time current) / inject_Z (time next - time current)
                         * (height next - height current))
            else bracketLoop (time p) (next :: rest')).
    replace (time p <? time next)%Z with false by (symmetry; apply Z.ltb_ge; lia).
    rewrite andb_false_r. now apply IH.
Qed.

Lemma getCurrentTideHeight_at_reading tideData i p q :
  increasing (hourly tideData) ->
  hourly tideData !! i = Some p -> hourly tideData !! S i = Some q ->
  getCurrentTideHeight (time p) tideData == height p.
Proof.
  intros Hinc Hp Hq. unfold getCurrentTideHeight.
  destruct (bracketLoop_at_reading _ _ _ _ Hinc Hp Hq) as (v & -> & Hv). exact Hv.
Qed.

End TideHeight.

(** C4 is right and the code departs from it.  With readings at 0:00
    (height 1) and 1:00 (height 2) and the clock at 2:00, after the last
    reading, [getCurrentTideHeight] falls back to the first reading's height,
    1, not to the nearest endpoint's, 2. *)
Theorem getCurrentTideHeight_after_last_returns_first :
  (time readingAtOne < 7200000)%Z /\
  last (hourly twoReadings) = Some readingAtOne /\
  getCurrentTideHeight 7200000 twoReadings == height readingAtMidnight /\
  ~ getCurrentTideHeight 7200000 twoReadings == height readingAtOne.
Proof.
  split; [reflexivity|]. split; [reflexivity|]. split.
  - reflexivity.
  - intros Heq. vm_compute in Heq. discriminate.
Qed.

(** C5 is right and the code departs from it.  With readings at 0:00
    (height 1) and 1:00 (height 2), [getCurrentTideHeight] at the timestamp of
    the last reading returns the first reading's height, 1, not that
    reading's own height, 2. *)
Theorem getCurrentTideHeight_at_last_reading_returns_first :
  readingAtOne ∈ hourly twoReadings /\
  getCurrentTideHeight (time readingAtOne) twoReadings == height readingAtMidnight /\
  ~ getCurrentTideHeight (time readingAtOne) twoReadings == height readingAtOne.
Proof.
  split; [right; left|]. split.
  - reflexivity.
  - intros Heq. vm_compute in Heq. discriminate.
Qed.

(** ** C7 and C10: the dawn patrol classification *)

Ltac dawn_cases :=
  unfold getDawnPatrolStatus, falsy, calculateLeaveBy, addMinutes; cbv zeta;
  cbn [from_option Datatypes.id];
  repeat match goal with
  | |- context [(?a =? ?b)%Z] => destruct (Z.eqb_spec a b)
  | |- context [(?a <? ?b)%Z] => destruct (Z.ltb_spec a b)
  end; cbn [status leaveBy message].

Section DawnPatrolFacts.

Variable formatTime : Z -> string.

(** Without a drive time (absent, or 0) the classification knows two labels
    only and never carries a leave-by time. *)
Lemma getDawnPatrolStatus_falsy now sunTimes driveMinutes :
  falsy driveMinutes = true ->
  (status (getDawnPatrolStatus formatTime now sunTimes driveMinutes) = TooEarly \/
   status (getDawnPatrolStatus formatTime now sunTimes driveMinutes) = Surfing) /\
  leaveBy (getDawnPatrolStatus formatTime now sunTimes driveMinutes) = None.
Proof.
  intros Hfalsy. unfold getDawnPatrolStatus. rewrite Hfalsy.
  repeat match goal with
  | |- context [(?a <? ?b)%Z] => destruct (Z.ltb_spec a b)
  end; cbn [status leaveBy]; auto.
Qed.

(** With a positive drive time and first light not after sunset, the label
    from sunset on is 'missed'. *)
Lemma getDawnPatrolStatus_drive_missed now sunTimes minutes :
  (0 < minutes)%Z -> (firstLight sunTimes <= sunset sunTimes)%Z ->
  (sunset sunTimes <= now)%Z ->
  status (getDawnPatrolStatus formatTime now sunTimes (Some minutes)) = Missed.
Proof. intros Hpos Horder Hnow. dawn_cases; first [reflexivity | lia]. Qed.

(** With a drive time, 'surfing' is only returned strictly before sunset. *)
Lemma getDawnPatrolStatus_drive_surfing now sunTimes minutes :
  minutes <> 0%Z ->
  status (getDawnPatrolStatus formatTime now sunTimes (Some minutes)) = Surfing ->
  (now < sunset sunTimes)%Z.
Proof. intros Hpos. dawn_cases; intros Hstatus; first [discriminate | lia]. Qed.

(** With a positive drive time every label is returned at some time of the
    day, and the three labels before arrival carry the leave-by time. *)
Lemma getDawnPatrolStatus_drive_reaches sunTimes minutes label :
  (0 < minutes)%Z -> (firstLight sunTimes < sunset sunTimes)%Z ->
  exists now,
    status (getDawnPatrolStatus formatTime now sunTimes (Some minutes)) = label /\
    (label = TooEarly \/ label = LeaveNow \/ label = OnTheWay ->
     leaveBy (getDawnPatrolStatus formatTime now sunTimes (Some minutes))
       = Some (calculateLeaveBy (firstLight sunTimes) minutes 10)).
Proof.
  intros Hpos Hday.
  set (leave := calculateLeaveBy (firstLight sunTimes) minutes 10).
  destruct label.
  - exists (leave - 30 * 60 * 1000 - 1)%Z. subst leave.
    dawn_cases; first [lia | split; [reflexivity|intros _; reflexivity]].
  - exists (leave - 1)%Z. subst leave.
    dawn_cases; first [lia | split; [reflexivity|intros _; reflexivity]].
  - exists leave. subst leave.
    dawn_cases; first [lia | split; [reflexivity|intros _; reflexivity]].
  - exists (firstLight sunTimes). subst leave.
    dawn_cases; first [lia | split; [reflexivity|intros [|[|]]; discriminate]].
  - exists (sunset sunTimes). subst leave.
    dawn_cases; first [lia | split; [reflexivity|intros [|[|]]; discriminate]].
Qed.

End DawnPatrolFacts.

(** C7 is right and the code departs from it.  Without a drive-time estimate
    and an hour after sunset (19:00, sunset at 18:00), the classification
    answers 'surfing' with the text "Sun is up until ...", not 'missed'; the
    branch taken with a drive time does test the clock against sunset. *)
Theorem getDawnPatrolStatus_no_drive_after_sunset_surfing (formatTime : Z -> string) :
  (sunset sampleSunTimes <= 68400000)%Z /\
  status (getDawnPatrolStatus formatTime 68400000 sampleSunTimes None) = Surfing /\
  message (getDawnPatrolStatus formatTime 68400000 sampleSunTimes None)
    = ("Sun is up until " +:+ formatTime (sunset sampleSunTimes))%string /\
  status (getDawnPatrolStatus formatTime 68400000 sampleSunTimes (Some 20%Z)) = Missed.
Proof.
  split; [vm_compute; discriminate|]. repeat split; reflexivity.
Qed.

(** C10: a drive time of 0 minutes is classified as an absent one: the
    result is the same record, its label is 'too-early' or 'surfing' (so never
    'leave-now', 'on-the-way' or 'missed') and it has no leave-by time.  Any
    positive drive time, on a day whose first light precedes sunset, reaches
    each of the five labels at some time, and the labels before arrival come
    with the leave-by time. *)
Theorem getDawnPatrolStatus_zero_drive_as_absent (formatTime : Z -> string) :
  (forall now sunTimes,
     getDawnPatrolStatus formatTime now sunTimes (Some 0%Z)
       = getDawnPatrolStatus formatTime now sunTimes None /\
     (status (getDawnPatrolStatus formatTime now sunTimes (Some 0%Z)) = TooEarly \/
      status (getDawnPatrolStatus formatTime now sunTimes (Some 0%Z)) = Surfing) /\
     leaveBy (getDawnPatrolStatus formatTime now sunTimes (Some 0%Z)) = None) /\
  (forall minutes sunTimes label,
     (0 < minutes)%Z -> (firstLight sunTimes < sunset sunTimes)%Z ->
     exists now,
       status (getDawnPatrolStatus formatTime now sunTimes (Some minutes)) = label /\
       (label = TooEarly \/ label = LeaveNow \/ label = OnTheWay ->
        leaveBy (getDawnPatrolStatus formatTime now sunTimes (Some minutes))
          = Some (calculateLeaveBy (firstLight sunTimes) minutes 10))).
Proof.
  split.
  - intros now sunTimes. split; [reflexivity|].
    now apply getDawnPatrolStatus_falsy.
  - intros minutes sunTimes label. apply getDawnPatrolStatus_drive_reaches.
Qed.

Lemma getDawnPatrolStatus_zero_drive_as_absent_witness :
  (0 < 20)%Z /\ (firstLight sampleSunTimes < sunset sampleSunTimes)%Z /\
  exists now,
    status (getDawnPatrolStatus (fun _ => "6:00 AM"%string) now sampleSunTimes (Some 20%Z))
      = LeaveNow /\
    (LeaveNow = TooEarly \/ LeaveNow = LeaveNow \/ LeaveNow = OnTheWay ->
     leaveBy (getDawnPatrolStatus (fun _ => "6:00 AM"%string) now sampleSunTimes (Some 20%Z))
       = Some (calculateLeaveBy (firstLight sampleSunTimes) 20 10)).
Proof.
  assert (Hpos : (0 < 20)%Z) by reflexivity.
  assert (Hday : (firstLight sampleSunTimes < sunset sampleSunTimes)%Z) by reflexivity.
  split; [exact Hpos|]. split; [exact Hday|].
  exact (proj2 (getDawnPatrolStatus_zero_drive_as_absent (fun _ => "6:00 AM"%string))
           20%Z sampleSunTimes LeaveNow Hpos Hday).
Defined.

(** * Further properties of the engine *)

(** ** The scorers *)

Section Scorers.

Lemma min_le_l a b : JS.min a b <= a.
Proof. unfold JS.min. destruct (b <? a) eqn:Hb; js_props; lra. Qed.

Lemma min_le_r a b : JS.min a b <= b.
Proof. unfold JS.min. destruct (b <? a) eqn:Hb; js_props; lra. Qed.

Lemma scoreWavePeriod_range period : (20 <= scoreWavePeriod period <= 100)%Z.
Proof. unfold scoreWavePeriod. split_ifs; lia. Qed.

Lemma scoreWind_range speed direction offshore :
  (2 <= scoreWind speed direction offshore <= 100)%Z.
Proof.
  unfold scoreWind. cbv zeta.
  generalize (JS.abs (normalizeAngle (direction - offshore))). intros angleDiff.
  split_ifs; vm_compute; split; discriminate.
Qed.

(** The running minimum of the loop of [scoreSwellDirection]. *)
Lemma minDiff_le_init (diff : Q -> Q) optimal init :
  fold_left (fun minDiff o => JS.min minDiff (diff o)) optimal init <= init.
Proof.
  revert init. induction optimal as [|o rest IH]; intros init; simpl; [lra|].
  eapply Qle_trans; [apply IH|apply min_le_l].
Qed.

Lemma minDiff_le_elem (diff : Q -> Q) optimal init o :
  o ∈ optimal ->
  fold_left (fun minDiff o => JS.min minDiff (diff o)) optimal init <= diff o.
Proof.
  revert init. induction optimal as [|o' rest IH]; intros init Ho; [inversion Ho|].
  simpl. apply elem_of_cons in Ho as [->|Ho].
  - eapply Qle_trans; [apply minDiff_le_init|apply min_le_r].
  - now apply IH.
Qed.

Lemma scoreSwellDirection_range swell optimal :
  (10 <= scoreSwellDirection swell optimal <= 100)%Z.
Proof. unfold scoreSwellDirection. cbv zeta. split_ifs; lia. Qed.

Lemma scoreTide_range tide phase preferred :
  (30 <= scoreTide tide phase preferred <= 100)%Z.
Proof. unfold scoreTide. destruct preferred; cbv zeta; split_ifs; lia. Qed.

(** [scoreWaveHeight] stays within [0, 100], whatever the pair of keys. *)
Lemma scoreWaveHeight_range {host : PrototypeChain} height surferType skillLevel :
  (0 <= scoreWaveHeight height surferType skillLevel <= 100)%Z.
Proof.
  destruct (lookupSkillConfig surferType skillLevel) as [config|] eqn:Hconfig.
  - pose proof (lookupSkillConfig_valid _ _ _ Hconfig) as Hvalid.
    pose proof Hvalid as (Hpos & Hlow & Hmid & Hhigh).
    destruct (Qlt_le_dec height (minIdeal config)) as [Hsub|Hge].
    + destruct (Qlt_le_dec height (minSurfable config)) as [Hsmall|Hsurf].
      * pose proof (wave_too_small_bounds _ _ _ Hconfig Hvalid height Hsmall). lia.
      * pose proof (wave_sub_ideal_bounds _ _ _ Hconfig Hvalid height (conj Hsurf Hsub)).
        lia.
    + destruct (Qlt_le_dec (maxIdeal config) height) as [Hover|Hle].
      * destruct (Qlt_le_dec (maxSurfable config) height) as [Hbig|Hsurf].
        -- pose proof (wave_too_big_bounds _ _ _ Hconfig Hvalid height Hbig). lia.
        -- pose proof (wave_over_ideal_bounds _ _ _ Hconfig Hvalid height (conj Hover Hsurf)).
           lia.
      * rewrite (wave_ideal _ _ _ Hconfig Hvalid height (conj Hge Hle)). lia.
  - unfold scoreWaveHeight, readSkillConfig. rewrite Hconfig.
    destruct (inheritedTruthy surferType skillLevel); lia.
Qed.

End Scorers.

(** X1: a longer wave period never scores lower. *)
Theorem scoreWavePeriod_monotone (p1 p2 : Q) :
  p1 <= p2 -> (scoreWavePeriod p1 <= scoreWavePeriod p2)%Z.
Proof.
  intros Hle. unfold scoreWavePeriod.
  split_ifs; first [lia | exfalso; js_props; lra].
Qed.

Lemma scoreWavePeriod_monotone_witness :
  8 <= 14 /\ (scoreWavePeriod 8 <= scoreWavePeriod 14)%Z.
Proof.
  assert (Hle : 8 <= 14) by (vm_compute; discriminate).
  split; [exact Hle|]. exact (scoreWavePeriod_monotone 8 14 Hle).
Defined.

(** X2: a swell within 15 degrees (circular distance) of any one of the
    spot's optimal bearings scores 100, whatever the other bearings are. *)
Theorem scoreSwellDirection_direct_hit (swell : Q) (optimal : list Q) (bearing : Q) :
  bearing ∈ optimal ->
  JS.abs (normalizeAngle (swell - bearing)) <= 15 ->
  scoreSwellDirection swell optimal = 100%Z.
Proof.
  intros Hin Hnear. unfold scoreSwellDirection. cbv zeta.
  pose proof (minDiff_le_elem (fun o => JS.abs (normalizeAngle (swell - o)))
                optimal 180 bearing Hin) as Hmin.
  cbv beta in Hmin.
  destruct (_ <=? 15) eqn:Hfirst; [reflexivity|].
  exfalso. js_props. lra.
Qed.

Lemma scoreSwellDirection_direct_hit_witness :
  280 ∈ [270; 280; 310] /\
  JS.abs (normalizeAngle (290 - 280)) <= 15 /\
  scoreSwellDirection 290 [270; 280; 310] = 100%Z.
Proof.
  assert (Hin : 280 ∈ [270; 280; 310]) by (right; left).
  assert (Hnear : JS.abs (normalizeAngle (290 - 280)) <= 15) by (vm_compute; discriminate).
  split; [exact Hin|]. split; [exact Hnear|].
  exact (scoreSwellDirection_direct_hit 290 [270; 280; 310] 280 Hin Hnear).
Defined.

(** X3: a spot with no optimal bearing scores every swell 10, and listing
    further bearings never lowers the swell score. *)
Theorem scoreSwellDirection_more_bearings (swell : Q) (optimal more : list Q) :
  scoreSwellDirection swell [] = 10%Z /\
  (scoreSwellDirection swell optimal <= scoreSwellDirection swell (optimal ++ more))%Z.
Proof.
  split; [reflexivity|].
  unfold scoreSwellDirection. cbv zeta. rewrite fold_left_app.
  set (diff := fun o => JS.abs (normalizeAngle (swell - o))).
  set (before := fold_left _ optimal 180).
  pose proof (minDiff_le_init diff more before) as Hle.
  fold diff. set (after := fold_left _ more before) in *.
  split_ifs; first [lia | exfalso; js_props; lra].
Qed.

(** The share of the tide range, [Math.min(1, Math.max(0, q))], grows with
    [q]. *)
Lemma unit_clamp_mono q1 q2 :
  q1 <= q2 -> JS.min 1 (JS.max 0 q1) <= JS.min 1 (JS.max 0 q2).
Proof.
  intros Hle. unfold JS.max.
  destruct (0 <? q1) eqn:H1, (0 <? q2) eqn:H2; unfold JS.min;
    split_ifs; js_props; lra.
Qed.

(** X4: for a spot that prefers low tide a higher tide never scores higher,
    and for a spot that prefers high tide a higher tide never scores lower;
    the tide phase plays no part in either. *)
Theorem scoreTide_monotone_in_height (h1 h2 : Q) (phase1 phase2 : TidePhase) :
  h1 <= h2 ->
  (scoreTide h2 phase2 TideLow <= scoreTide h1 phase1 TideLow)%Z /\
  (scoreTide h1 phase1 TideHigh <= scoreTide h2 phase2 TideHigh)%Z.
Proof.
  intros Hle.
  assert (Hdiv : h1 ⊘ 6 <= h2 ⊘ 6).
  { apply div_mono_l; [|exact Hle]. vm_compute. discriminate. }
  pose proof (unit_clamp_mono _ _ Hdiv) as Hpct.
  unfold scoreTide. cbv zeta.
  generalize dependent (JS.min 1 (JS.max 0 (h1 ⊘ 6))). intros pct1.
  generalize dependent (JS.min 1 (JS.max 0 (h2 ⊘ 6))). intros pct2 Hpct.
  split; split_ifs; first [lia | exfalso; js_props; lra].
Qed.

Lemma scoreTide_monotone_in_height_witness :
  1 <= 5 /\
  (scoreTide 5 PhaseHigh TideLow <= scoreTide 1 PhaseRising TideLow)%Z /\
  (scoreTide 1 PhaseRising TideHigh <= scoreTide 5 PhaseHigh TideHigh)%Z.
Proof.
  assert (Hle : 1 <= 5) by (vm_compute; discriminate).
  split; [exact Hle|].
  exact (scoreTide_monotone_in_height 1 5 PhaseRising PhaseHigh Hle).
Defined.

(** *** The weighted sum *)

Section WeightedSum.

(** Below 128 in magnitude the doubles are [2 ^ -46] apart or closer. *)
Lemma rnd_error_128 (x : Q) :
  -128 < x -> x < 128 ->
  - (1 # 140737488355328) <= Binary64.rnd x - x /\
  Binary64.rnd x - x <= 1 # 140737488355328.
Proof.
  intros Hlo Hhi. pose proof (rnd_error x) as [H1 H2].
  assert (Hu : Binary64.ulp x <= 2 ^ (6 - 52)).
  { apply ulp_le; [|lia]. change (2 ^ (6 + 1)) with 128.
    apply Qabs_case; intros _; lra. }
  change (2 ^ (6 - 52)) with (1 # 70368744177664) in Hu.
  pose proof (ulp_pos x) as Hpos.
  unfold Qdiv in H1, H2. change (/ 2) with (1 # 2) in H1, H2. split; lra.
Qed.

(** The innermost rounding of the goal, replaced by a variable within
    [2 ^ -47] of its argument. *)
Ltac round_step :=
  match goal with
  | |- context [Binary64.rnd ?x] =>
      lazymatch x with
      | context [Binary64.rnd _] => fail
      | _ =>
          let Hlo := fresh "Hlo" in
          let Hhi := fresh "Hhi" in
          destruct (rnd_error_128 x) as [Hlo Hhi]; [lra|lra|];
          generalize dependent (Binary64.rnd x); intros ? ? ?
      end
  end.

(** The sum of the doubles does not decrease when a sub-score rises. *)
Lemma weightedSum64_mono (a b c d e a' b' c' d' e' : Z) :
  (a <= a')%Z -> (b <= b')%Z -> (c <= c')%Z -> (d <= d')%Z -> (e <= e')%Z ->
  weightedSum64 a b c d e <= weightedSum64 a' b' c' d' e'.
Proof.
  intros Ha Hb Hc Hd He. rewrite Zle_Qle in Ha, Hb, Hc, Hd, He.
  unfold weightedSum64.
  assert (Hweight : forall w, 0 <= w -> 0 <= Binary64.rnd w) by apply rnd_nonneg.
  do 5 (apply add_mono; [|apply mul_mono_l; [apply Hweight; discriminate|assumption]]).
  apply mul_mono_l; [apply Hweight; discriminate|assumption].
Qed.

(** The rounded sum of sub-scores that lie in the ranges of the five
    scorers. *)
Lemma weighted_sum_range (wave period wind swell tide : Z) :
  (0 <= wave <= 100)%Z -> (20 <= period <= 100)%Z -> (2 <= wind <= 100)%Z ->
  (10 <= swell <= 100)%Z -> (30 <= tide <= 100)%Z ->
  (8 <= JS.round (weightedSum64 wave period wind swell tide) <= 100)%Z.
Proof.
  intros [Hwave0 Hwave1] [Hperiod0 Hperiod1] [Hwind0 Hwind1] [Hswell0 Hswell1]
    [Htide0 Htide1].
  assert (Hleast : JS.round (weightedSum64 0 20 2 10 30) = 8%Z)
    by (vm_compute; reflexivity).
  assert (Hmost : JS.round (weightedSum64 100 100 100 100 100) = 100%Z)
    by (vm_compute; reflexivity).
  split.
  - rewrite <- Hleast. apply round_mono, weightedSum64_mono; assumption.
  - rewrite <- Hmost. apply round_mono, weightedSum64_mono; assumption.
Qed.

(** The sum of the doubles is within a millionth of the exact weighted
    sum. *)
Lemma weightedSum64_error (a b c d e : Z) :
  (0 <= a <= 100)%Z -> (0 <= b <= 100)%Z -> (0 <= c <= 100)%Z ->
  (0 <= d <= 100)%Z -> (0 <= e <= 100)%Z ->
  let exact :=
    (6 * inject_Z a + 4 * inject_Z b + 6 * inject_Z c + 3 * inject_Z d + inject_Z e) / 20 in
  - (1 # 1000000) <= weightedSum64 a b c d e - exact /\
  weightedSum64 a b c d e - exact <= 1 # 1000000.
Proof.
  intros [Ha0 Ha1] [Hb0 Hb1] [Hc0 Hc1] [Hd0 Hd1] [He0 He1]. cbv zeta.
  rewrite Zle_Qle in Ha0, Ha1, Hb0, Hb1, Hc0, Hc1, Hd0, Hd1, He0, He1.
  change (inject_Z 0) with 0 in *. change (inject_Z 100) with 100 in *.
  unfold weightedSum64, Binary64.add, Binary64.mul.
  literal (Binary64.rnd 0.3). literal (Binary64.rnd 0.2). literal (Binary64.rnd 0.15).
  literal (Binary64.rnd 0.1). literal (Binary64.rnd 0.05).
  generalize dependent (inject_Z a). intros A ? ?.
  generalize dependent (inject_Z b). intros B ? ?.
  generalize dependent (inject_Z c). intros C ? ?.
  generalize dependent (inject_Z d). intros D ? ?.
  generalize dependent (inject_Z e). intros E ? ?.
  unfold Qdiv. change (/ 20) with (1 # 20).
  repeat round_step.
  split; lra.
Qed.


(** Rounding a number of twentieths: halves go up. *)
Lemma round_twentieths (n : Z) : JS.round (inject_Z n / 20) = ((n + 10) / 20)%Z.
Proof.
  pose proof (Z.div_mod (n + 10) 20 ltac:(lia)) as Hdiv.
  pose proof (Z.mod_pos_bound (n + 10) 20 ltac:(lia)) as [Hr0 Hr1].
  set (k := ((n + 10) / 20)%Z) in *. set (r := ((n + 10) mod 20)%Z) in *.
  assert (Hq : inject_Z n + 10 == 20 * inject_Z k + inject_Z r).
  { change 10 with (inject_Z 10). change 20 with (inject_Z 20).
    rewrite <- inject_Z_mult, <- !inject_Z_plus. now rewrite Hdiv. }
  rewrite Zle_Qle in Hr0. rewrite Zlt_Qlt in Hr1.
  change (inject_Z 0) with 0 in Hr0. change (inject_Z 20) with 20 in Hr1.
  unfold Qdiv. change (/ 20) with (1 # 20). apply round_unique; lra.
Qed.

Context {host : PrototypeChain}.

Lemma calculateSpotScore_score_range conditions spot prefs :
  (8 <= score (calculateSpotScore conditions spot prefs) <= 100)%Z.
Proof.
  unfold calculateSpotScore. cbv zeta. cbn [score].
  pose proof (weighted_sum_range _ _ _ _ _
                (scoreWaveHeight_range (waveHeight conditions) (surferType prefs)
                   (skillLevel prefs))
                (scoreWavePeriod_range (wavePeriod conditions))
                (scoreWind_range (windSpeed conditions) (windDirection conditions)
                   (offshoreWindDirection spot))
                (scoreSwellDirection_range (swellDirection conditions)
                   (optimalSwellDirections spot))
                (scoreTide_range (tideHeight conditions) (tidePhase conditions)
                   (bestTide spot))) as Hraw.
  unfold weightedSum64 in Hraw. lia.
Qed.

End WeightedSum.

(** X5: the five sub-scores keep the rounded sum between 8 and 100, so the
    clamp of [calculateSpotScore] never changes it: the score is the rounded
    sum of the doubles, and it is never below 8. *)
Theorem calculateSpotScore_clamp_idle {host : PrototypeChain}
    (conditions : SurfConditions) (spot : SpotConfig) (prefs : Prefs) :
  let windScore :=
    scoreWind (windSpeed conditions) (windDirection conditions)
      (offshoreWindDirection spot) in
  score (calculateSpotScore conditions spot prefs) =
    JS.round
      (weightedSum64
         (scoreWaveHeight (waveHeight conditions) (surferType prefs) (skillLevel prefs))
         (scoreWavePeriod (wavePeriod conditions))
         windScore
         (scoreSwellDirection (swellDirection conditions) (optimalSwellDirections spot))
         (scoreTide (tideHeight conditions) (tidePhase conditions) (bestTide spot))) /\
  (8 <= score (calculateSpotScore conditions spot prefs) <= 100)%Z.
Proof.
  cbv zeta. split; [|apply calculateSpotScore_score_range].
  pose proof (weighted_sum_range _ _ _ _ _
                (scoreWaveHeight_range (waveHeight conditions) (surferType prefs)
                   (skillLevel prefs))
                (scoreWavePeriod_range (wavePeriod conditions))
                (scoreWind_range (windSpeed conditions) (windDirection conditions)
                   (offshoreWindDirection spot))
                (scoreSwellDirection_range (swellDirection conditions)
                   (optimalSwellDirections spot))
                (scoreTide_range (tideHeight conditions) (tidePhase conditions)
                   (bestTide spot))) as Hraw.
  unfold calculateSpotScore. cbv zeta. cbn [score].
  unfold weightedSum64 in *. lia.
Qed.

(** X28: the score is the exact weighted sum of the five sub-scores, rounded
    to the nearest integer with halves upwards, or one less; and it is one
    less only where that sum is a tie, the sum of the doubles lying just below
    it. *)
Theorem calculateSpotScore_within_one_of_exact {host : PrototypeChain}
    (conditions : SurfConditions) (spot : SpotConfig) (prefs : Prefs) :
  let wave := scoreWaveHeight (waveHeight conditions) (surferType prefs) (skillLevel prefs) in
  let period := scoreWavePeriod (wavePeriod conditions) in
  let wind :=
    scoreWind (windSpeed conditions) (windDirection conditions)
      (offshoreWindDirection spot) in
  let swell :=
    scoreSwellDirection (swellDirection conditions) (optimalSwellDirections spot) in
  let tide := scoreTide (tideHeight conditions) (tidePhase conditions) (bestTide spot) in
  let exact := weightedScore wave period wind swell tide in
  let result := calculateSpotScore conditions spot prefs in
  (score result = exact \/ score result = (exact - 1)%Z) /\
  ((6 * wave + 4 * period + 6 * wind + 3 * swell + tide) mod 20 <> 10 ->
   score result = exact)%Z.
Proof.
  cbv zeta.
  pose proof (scoreWaveHeight_range (waveHeight conditions) (surferType prefs)
                (skillLevel prefs)) as Hwave.
  pose proof (scoreWavePeriod_range (wavePeriod conditions)) as Hperiod.
  pose proof (scoreWind_range (windSpeed conditions) (windDirection conditions)
                (offshoreWindDirection spot)) as Hwind.
  pose proof (scoreSwellDirection_range (swellDirection conditions)
                (optimalSwellDirections spot)) as Hswell.
  pose proof (scoreTide_range (tideHeight conditions) (tidePhase conditions)
                (bestTide spot)) as Htide.
  pose proof (weighted_sum_range _ _ _ _ _ Hwave Hperiod Hwind Hswell Htide) as Hraw.
  rewrite weightedScore_wind_weight.
  unfold calculateSpotScore. cbv zeta. cbn [score]. fold (weightedSum64
    (scoreWaveHeight (waveHeight conditions) (surferType prefs) (skillLevel prefs))
    (scoreWavePeriod (wavePeriod conditions))
    (scoreWind (windSpeed conditions) (windDirection conditions) (offshoreWindDirection spot))
    (scoreSwellDirection (swellDirection conditions) (optimalSwellDirections spot))
    (scoreTide (tideHeight conditions) (tidePhase conditions) (bestTide spot))).
  generalize dependent (scoreWaveHeight (waveHeight conditions) (surferType prefs)
                          (skillLevel prefs)).
  generalize dependent (scoreWavePeriod (wavePeriod conditions)).
  generalize dependent (scoreWind (windSpeed conditions) (windDirection conditions)
                          (offshoreWindDirection spot)).
  generalize dependent (scoreSwellDirection (swellDirection conditions)
                          (optimalSwellDirections spot)).
  generalize dependent (scoreTide (tideHeight conditions) (tidePhase conditions)
                          (bestTide spot)).
  intros e He d Hd c Hc b Hb a Ha Hraw.
  pose proof (weightedSum64_error a b c d e ltac:(lia) ltac:(lia) ltac:(lia) ltac:(lia)
                ltac:(lia)) as Herr.
  cbv zeta in Herr.
  set (n := (6 * a + 4 * b + 6 * c + 3 * d + e)%Z).
  assert (Hexact : (30 * inject_Z a + 20 * inject_Z b + 30 * inject_Z c + 15 * inject_Z d
                    + 5 * inject_Z e) / 100 == inject_Z n / 20).
  { unfold n. rewrite !inject_Z_plus, !inject_Z_mult.
    change (inject_Z 6) with 6. change (inject_Z 4) with 4. change (inject_Z 3) with 3.
    field. }
  rewrite (round_proper _ _ Hexact), round_twentieths.
  assert (Hsum : (6 * inject_Z a + 4 * inject_Z b + 6 * inject_Z c + 3 * inject_Z d
                  + inject_Z e) / 20 == inject_Z n / 20).
  { unfold n. rewrite !inject_Z_plus, !inject_Z_mult.
    change (inject_Z 6) with 6. change (inject_Z 4) with 4. change (inject_Z 3) with 3.
    reflexivity. }
  rewrite Hsum in Herr. clear Hexact Hsum.
  pose proof (Z.div_mod (n + 10) 20 ltac:(lia)) as Hdiv.
  pose proof (Z.mod_pos_bound (n + 10) 20 ltac:(lia)) as [Hr0 Hr1].
  assert (Hn : (152 <= n <= 2000)%Z) by (unfold n; lia).
  assert (Htie : (n mod 20 <> 10 <-> (n + 10) mod 20 <> 0)%Z).
  { pose proof (Z.div_mod n 20 ltac:(lia)). pose proof (Z.mod_pos_bound n 20 ltac:(lia)).
    lia. }
  rewrite Htie. clear Htie.
  set (k := ((n + 10) / 20)%Z) in *. set (r := ((n + 10) mod 20)%Z) in *.
  assert (Hk : (8 <= k <= 100)%Z) by lia.
  generalize dependent (weightedSum64 a b c d e). intros sum Hraw [Hlo Hhi].
  assert (Hq : inject_Z n / 20 + (1 # 2) == inject_Z k + inject_Z r / 20).
  { assert (Hz : inject_Z n + 10 == 20 * inject_Z k + inject_Z r).
    { change 10 with (inject_Z 10). change 20 with (inject_Z 20).
      rewrite <- inject_Z_mult, <- !inject_Z_plus. now rewrite Hdiv. }
    unfold Qdiv in *. change (/ 20) with (1 # 20) in *. lra. }
  unfold Qdiv in *. change (/ 20) with (1 # 20) in *.
  assert (Hcases : JS.round sum = k \/ (JS.round sum = (k - 1)%Z /\ r = 0%Z)).
  { destruct (Z.eq_dec r 0%Z) as [Hr|Hr].
    - rewrite Hr in Hq. change (inject_Z 0) with 0 in Hq.
      destruct (Qlt_le_dec (sum + (1 # 2)) (inject_Z k)) as [Hbelow|Habove].
      + right. split; [|exact Hr].
        assert (Hpred : inject_Z (k - 1) == inject_Z k - 1).
        { unfold Z.sub. rewrite inject_Z_plus. reflexivity. }
        apply round_unique; lra.
      + left. apply round_unique; lra.
    - left. assert (Hr' : (1 <= r <= 19)%Z) by lia. destruct Hr' as [Hr1' Hr19].
      rewrite Zle_Qle in Hr1', Hr19.
      change (inject_Z 1) with 1 in Hr1'. change (inject_Z 19) with 19 in Hr19.
      apply round_unique; lra. }
  split.
  - destruct Hcases as [->|[-> _]]; lia.
  - intros Hr. destruct Hcases as [->|[_ Hzero]]; [lia|contradiction].
Qed.

(** X6: for a pair of keys of the table [getIdealWaveRange] reports the
    ideal range of the cell, which is ordered, and every height within it
    scores 100.  For a pair that finds nothing the range reported is 2 to 5 ft
    and every height scores 50.  For a pair that finds a truthy value along
    the chain of prototypes, as [('constructor', 'name')] does, both ends of
    the range are undefined and every height scores 0. *)
Theorem getIdealWaveRange_against_score {host : PrototypeChain}
    (surferType skillLevel : string) (height : Q) :
  (forall config,
     lookupSkillConfig surferType skillLevel = Some config ->
     getIdealWaveRange surferType skillLevel
       = {| IdealRange.min := Some (minIdeal config);
            IdealRange.max := Some (maxIdeal config) |} /\
     minIdeal config <= maxIdeal config /\
     (minIdeal config <= height -> height <= maxIdeal config ->
      scoreWaveHeight height surferType skillLevel = 100%Z)) /\
  (lookupSkillConfig surferType skillLevel = None ->
   inheritedTruthy surferType skillLevel = false ->
   getIdealWaveRange surferType skillLevel
     = {| IdealRange.min := Some 2; IdealRange.max := Some 5 |} /\
   scoreWaveHeight height surferType skillLevel = 50%Z) /\
  (lookupSkillConfig surferType skillLevel = None ->
   inheritedTruthy surferType skillLevel = true ->
   getIdealWaveRange surferType skillLevel
     = {| IdealRange.min := None; IdealRange.max := None |} /\
   scoreWaveHeight height surferType skillLevel = 0%Z).
Proof.
  unfold getIdealWaveRange, scoreWaveHeight, readSkillConfig.
  split; [|split].
  - intros config Hconfig.
    pose proof (lookupSkillConfig_valid _ _ _ Hconfig) as Hvalid.
    split; [now rewrite Hconfig|]. split; [apply Hvalid|].
    intros Hlo Hhi. now apply (wave_ideal _ _ _ Hconfig Hvalid).
  - intros -> ->. split; reflexivity.
  - intros -> ->. split; reflexivity.
Qed.

Lemma getIdealWaveRange_against_score_witness :
  let host := sampleHost in
  lookupSkillConfig "constructor" "name" = None /\
  inheritedTruthy "constructor" "name" = true /\
  getIdealWaveRange "constructor" "name"
    = {| IdealRange.min := None; IdealRange.max := None |} /\
  scoreWaveHeight 3 "constructor" "name" = 0%Z.
Proof.
  intros host.
  assert (Hnone : lookupSkillConfig "constructor" "name" = None)
    by (vm_compute; reflexivity).
  assert (Htruthy : inheritedTruthy "constructor" "name" = true)
    by (vm_compute; reflexivity).
  split; [exact Hnone|]. split; [exact Htruthy|].
  exact (proj2 (proj2 (getIdealWaveRange_against_score "constructor" "name" 3))
           Hnone Htruthy).
Defined.

(** The rating of a result, read off its score. *)
Lemma calculateSpotScore_rating {host : PrototypeChain} conditions spot prefs :
  rating (calculateSpotScore conditions spot prefs) =
  if (score (calculateSpotScore conditions spot prefs) >=? 80)%Z then Excellent
  else if (score (calculateSpotScore conditions spot prefs) >=? 60)%Z then Good
  else if (score (calculateSpotScore conditions spot prefs) >=? 40)%Z then Fair
  else Poor.
Proof. unfold calculateSpotScore. cbv zeta. cbn [score rating]. reflexivity. Qed.

Lemma geb_inject (z c : Z) : (inject_Z z >=? inject_Z c) = (z >=? c)%Z.
Proof.
  destruct (Z.geb_spec z c) as [Hge|Hlt].
  - apply geb_ge. rewrite <- Zle_Qle. lia.
  - apply geb_lt. rewrite <- Zlt_Qlt. lia.
Qed.

(** X7: the wording of [getConditionsQuality] agrees with the rating of
    [calculateSpotScore] on every result: 'Excellent' goes with "Epic" or
    "Excellent conditions", 'Good' with "Very good" or "Good conditions",
    'Fair' with "Fair conditions" or "Below average", and 'Poor' with "Poor
    conditions" or "Not recommended". *)
Theorem getConditionsQuality_agrees_with_rating {host : PrototypeChain}
    (conditions : SurfConditions) (spot : SpotConfig) (prefs : Prefs) :
  let result := calculateSpotScore conditions spot prefs in
  let quality := getConditionsQuality (inject_Z (score result)) in
  (rating result = Excellent <->
   quality = "Epic conditions"%string \/ quality = "Excellent conditions"%string) /\
  (rating result = Good <->
   quality = "Very good conditions"%string \/ quality = "Good conditions"%string) /\
  (rating result = Fair <->
   quality = "Fair conditions"%string \/ quality = "Below average"%string) /\
  (rating result = Poor <->
   quality = "Poor conditions"%string \/ quality = "Not recommended"%string).
Proof.
  cbv zeta. rewrite calculateSpotScore_rating.
  generalize (score (calculateSpotScore conditions spot prefs)). intros total.
  unfold getConditionsQuality.
  change 90 with (inject_Z 90). change 80 with (inject_Z 80).
  change 70 with (inject_Z 70). change 60 with (inject_Z 60).
  change 50 with (inject_Z 50). change 40 with (inject_Z 40).
  change 30 with (inject_Z 30). rewrite !geb_inject.
  repeat (match goal with
          | |- context [(?a >=? ?b)%Z] => destruct (Z.geb_spec a b)
          end; try lia);
  repeat split; intros Hcase;
    first [ discriminate Hcase
          | destruct Hcase as [Hcase|Hcase]; discriminate Hcase
          | reflexivity
          | left; reflexivity
          | right; reflexivity ].
Qed.

(** ** Ranking *)

Section Ranking.

Context {host : PrototypeChain}.

Lemma insertByScore_Permutation a sorted : insertByScore a sorted ≡ₚ a :: sorted.
Proof.
  induction sorted as [|b rest IH]; simpl; [reflexivity|].
  destruct (_ <=? _)%Z; [reflexivity|].
  rewrite IH. apply Permutation_swap.
Qed.

Lemma insertByScore_sorted a sorted :
  StronglySorted notBelow sorted -> StronglySorted notBelow (insertByScore a sorted).
Proof.
  induction sorted as [|b rest IH]; intros Hsorted; simpl.
  - repeat constructor.
  - apply StronglySorted_inv in Hsorted as [Hrest Hb].
    destruct (Z.leb_spec (score (RankedSpot.result b)) (score (RankedSpot.result a)))
      as [Hle|Hgt].
    + constructor; [constructor; assumption|].
      constructor; [exact Hle|].
      eapply Forall_impl; [exact Hb|]. intros c Hc. unfold notBelow, scoreOf in *. lia.
    + constructor; [now apply IH|].
      rewrite insertByScore_Permutation. constructor; [|exact Hb].
      unfold notBelow, scoreOf. lia.
Qed.

Lemma sortByScoreDescending_Permutation l : sortByScoreDescending l ≡ₚ l.
Proof.
  induction l as [|a l IH]; simpl; [reflexivity|].
  rewrite insertByScore_Permutation. now rewrite IH.
Qed.

Lemma sortByScoreDescending_sorted l :
  StronglySorted notBelow (sortByScoreDescending l).
Proof.
  induction l as [|a l IH]; simpl; [constructor|]. now apply insertByScore_sorted.
Qed.

Lemma insertByScore_same_score k a sorted :
  filter (fun b => scoreOf b = k) (insertByScore a sorted)
  = filter (fun b => scoreOf b = k) (a :: sorted).
Proof.
  induction sorted as [|b rest IH]; simpl; [reflexivity|].
  destruct (Z.leb_spec (score (RankedSpot.result b)) (score (RankedSpot.result a)))
    as [Hle|Hgt]; [reflexivity|].
  rewrite (filter_cons _ b), IH, !filter_cons.
  unfold scoreOf in *.
  repeat case_decide; try reflexivity; lia.
Qed.

Lemma sortByScoreDescending_stable k l :
  filter (fun b => scoreOf b = k) (sortByScoreDescending l)
  = filter (fun b => scoreOf b = k) l.
Proof.
  induction l as [|a l IH]; simpl; [reflexivity|].
  rewrite insertByScore_same_score, !filter_cons, IH. reflexivity.
Qed.

Lemma StronglySorted_lookup_lt {A} (R : A -> A -> Prop) l i j a b :
  StronglySorted R l -> l !! i = Some a -> l !! j = Some b -> (i < j)%nat -> R a b.
Proof.
  intros Hsorted. revert i j. induction Hsorted as [|c l Hl IH Hc]; intros i j Ha Hb Hij.
  - discriminate.
  - destruct j as [|j]; [lia|]. destruct i as [|i].
    + injection Ha as ->. simpl in Hb. rewrite Forall_forall in Hc.
      apply Hc. eapply list_elem_of_lookup_2. exact Hb.
    + simpl in Ha, Hb. apply (IH i j); [assumption..|lia].
Qed.

Lemma scoreSpot_spot conditionsMap prefs s :
  RankedSpot.spot (scoreSpot conditionsMap prefs s) = s.
Proof. unfold scoreSpot. destruct (conditionsMap !! id s); reflexivity. Qed.

Lemma scoreSpot_without_conditions conditionsMap prefs s :
  conditionsMap !! id s = None -> scoreOf (scoreSpot conditionsMap prefs s) = 0%Z.
Proof. intros Hnone. unfold scoreSpot. now rewrite Hnone. Qed.

End Ranking.

(** X8: [scoreAndRankSpots] returns the scored spots, each exactly once, in
    order of non-increasing score, and spots of equal score keep the order
    they had in the input. *)
Theorem scoreAndRankSpots_sorted_stable {host : PrototypeChain}
    (spots : list SpotConfig) (conditionsMap : gmap string SurfConditions)
    (prefs : Prefs) :
  scoreAndRankSpots spots conditionsMap prefs
    ≡ₚ map (scoreSpot conditionsMap prefs) spots /\
  map RankedSpot.spot (scoreAndRankSpots spots conditionsMap prefs) ≡ₚ spots /\
  StronglySorted notBelow (scoreAndRankSpots spots conditionsMap prefs) /\
  (forall k,
     filter (fun b => scoreOf b = k) (scoreAndRankSpots spots conditionsMap prefs)
     = filter (fun b => scoreOf b = k) (map (scoreSpot conditionsMap prefs) spots)).
Proof.
  unfold scoreAndRankSpots. cbv zeta.
  split; [apply sortByScoreDescending_Permutation|]. split; [|split].
  - rewrite sortByScoreDescending_Permutation, map_map.
    erewrite map_ext; [rewrite map_id; reflexivity|].
    intros s. apply scoreSpot_spot.
  - apply sortByScoreDescending_sorted.
  - intros k. apply sortByScoreDescending_stable.
Qed.

(** X9: in the ranking every spot that has no conditions in the map stands
    after every spot that has some: the former score 0, the latter at least
    8. *)
Theorem scoreAndRankSpots_unscored_last {host : PrototypeChain}
    (spots : list SpotConfig) (conditionsMap : gmap string SurfConditions)
    (prefs : Prefs) (i j : nat) (a b : RankedSpot.t) :
  scoreAndRankSpots spots conditionsMap prefs !! i = Some a ->
  scoreAndRankSpots spots conditionsMap prefs !! j = Some b ->
  conditionsMap !! id (RankedSpot.spot a) = None ->
  is_Some (conditionsMap !! id (RankedSpot.spot b)) ->
  (j < i)%nat.
Proof.
  intros Ha Hb Hnone [conditions Hsome].
  assert (Hmember : forall c,
             c ∈ scoreAndRankSpots spots conditionsMap prefs ->
             c = scoreSpot conditionsMap prefs (RankedSpot.spot c)).
  { intros c Hc. unfold scoreAndRankSpots in Hc. cbv zeta in Hc.
    rewrite sortByScoreDescending_Permutation in Hc.
    apply list_elem_of_In, in_map_iff in Hc as (s & <- & _).
    now rewrite scoreSpot_spot. }
  assert (Hscore_a : scoreOf a = 0%Z).
  { rewrite (Hmember a) by (eapply list_elem_of_lookup_2; exact Ha).
    now apply scoreSpot_without_conditions. }
  assert (Hscore_b : (8 <= scoreOf b)%Z).
  { rewrite (Hmember b) by (eapply list_elem_of_lookup_2; exact Hb).
    unfold scoreOf, scoreSpot. rewrite Hsome. cbn [RankedSpot.result].
    apply calculateSpotScore_score_range. }
  destruct (Nat.lt_trichotomy i j) as [Hlt|[Heq|Hgt]]; [|subst j|exact Hgt].
  - pose proof (StronglySorted_lookup_lt notBelow _ i j a b
                  (sortByScoreDescending_sorted _) Ha Hb Hlt) as Horder.
    unfold notBelow in Horder. lia.
  - assert (a = b) by congruence. subst b. lia.
Qed.

Lemma scoreAndRankSpots_unscored_last_witness :
  let host := sampleHost in
  let quiet :=
    {| id := "quiet"; optimalSwellDirections := []; offshoreWindDirection := 0;
       bestTide := TideAny |} in
  let conditionsMap : gmap string SurfConditions := {[ "sample"%string := sampleConditions ]} in
  let ranked := scoreAndRankSpots [quiet; sampleSpot] conditionsMap samplePrefs in
  ranked !! 1%nat = Some (scoreSpot conditionsMap samplePrefs quiet) /\
  ranked !! 0%nat = Some (scoreSpot conditionsMap samplePrefs sampleSpot) /\
  conditionsMap !! "quiet"%string = None /\
  is_Some (conditionsMap !! "sample"%string) /\
  (0 < 1)%nat.
Proof.
  intros host quiet conditionsMap ranked.
  assert (Ha : ranked !! 1%nat = Some (scoreSpot conditionsMap samplePrefs quiet))
    by (vm_compute; reflexivity).
  assert (Hb : ranked !! 0%nat = Some (scoreSpot conditionsMap samplePrefs sampleSpot))
    by (vm_compute; reflexivity).
  assert (Hnone : conditionsMap !! "quiet"%string = None) by (vm_compute; reflexivity).
  assert (Hsome : is_Some (conditionsMap !! "sample"%string)) by (vm_compute; eauto).
  split; [exact Ha|]. split; [exact Hb|]. split; [exact Hnone|]. split; [exact Hsome|].
  exact (scoreAndRankSpots_unscored_last (host := host) [quiet; sampleSpot] conditionsMap
           samplePrefs 1 0 (scoreSpot conditionsMap samplePrefs quiet)
           (scoreSpot conditionsMap samplePrefs sampleSpot) Ha Hb Hnone Hsome).
Defined.

(** ** The best time window, further *)

Section BestTimeWindowSearch.

Variable getHours : Z -> Z.
Variables today tomorrow : Z.

Lemma omap_scorePrediction_nil bt readings :
  (forall q, q ∈ readings -> ~ surfableToday getHours today tomorrow q) ->
  omap (scorePrediction getHours today tomorrow bt) readings = [].
Proof.
  induction readings as [|q rest IH]; intros Hnone; [reflexivity|].
  simpl. rewrite (proj2 (scorePrediction_None getHours today tomorrow bt q))
    by (apply Hnone; left).
  apply IH. intros q' Hq'. apply Hnone. now right.
Qed.

Lemma considerWindow_keeps scores windowSize best i :
  BestWindow.avgScore best
    <= BestWindow.avgScore (considerWindow scores windowSize best i).
Proof.
  unfold considerWindow. cbv zeta.
  destruct (_ >? _) eqn:Hgt; [|lra].
  destruct (head _); [|lra]. destruct (last _); [|lra].
  cbn [BestWindow.avgScore]. js_props. lra.
Qed.

Lemma considerWindow_covers scores windowSize best i :
  (0 < windowSize)%nat -> (i + windowSize <= length scores)%nat ->
  windowMean scores windowSize i
    <= BestWindow.avgScore (considerWindow scores windowSize best i).
Proof.
  intros Hpos Hbound. unfold considerWindow, windowMean. cbv zeta.
  pose proof (slice_length i windowSize scores Hbound) as Hlen.
  destruct (_ >? _) eqn:Hgt; [|js_props; lra].
  destruct (slice i (i + windowSize) scores) as [|first rest] eqn:Hslice;
    [simpl in Hlen; lia|].
  cbn [head].
  destruct (last (first :: rest)) as [final|] eqn:Hlast.
  - cbn [BestWindow.avgScore]. lra.
  - apply last_None in Hlast. discriminate.
Qed.

Lemma scan_keeps scores windowSize indices best :
  BestWindow.avgScore best
    <= BestWindow.avgScore (fold_left (considerWindow scores windowSize) indices best).
Proof.
  revert best. induction indices as [|i rest IH]; intros best; simpl; [lra|].
  eapply Qle_trans; [apply considerWindow_keeps|apply IH].
Qed.

Lemma scan_covers scores windowSize indices best i :
  (0 < windowSize)%nat -> i ∈ indices -> (i + windowSize <= length scores)%nat ->
  windowMean scores windowSize i
    <= BestWindow.avgScore (fold_left (considerWindow scores windowSize) indices best).
Proof.
  intros Hpos Hin Hbound. revert best.
  induction indices as [|i' rest IH]; intros best; [inversion Hin|].
  simpl. apply elem_of_cons in Hin as [->|Hin].
  - eapply Qle_trans; [apply considerWindow_covers; assumption|apply scan_keeps].
  - now apply IH.
Qed.

Lemma scanWindows_keeps scores best windowSize :
  BestWindow.avgScore best <= BestWindow.avgScore (scanWindows scores best windowSize).
Proof. apply scan_keeps. Qed.

Lemma scanWindows_covers scores best windowSize i :
  (0 < windowSize)%nat -> (i + windowSize <= length scores)%nat ->
  windowMean scores windowSize i
    <= BestWindow.avgScore (scanWindows scores best windowSize).
Proof.
  intros Hpos Hbound. apply scan_covers; [exact Hpos| |exact Hbound].
  apply list_elem_of_In, in_seq. lia.
Qed.

End BestTimeWindowSearch.

(** X10: when exactly one reading of the series is of the current day at
    an hour from 5 to 20, no window of two or three entries exists and
    [calculateBestTimeWindow] returns its initial window, 6:00 AM to 9:00 AM
    with the reason "Low tide + light morning winds", whatever the hour and
    the height of that reading. *)
Theorem calculateBestTimeWindow_single_hour_default
    (getHours : Z -> Z) (today tomorrow : Z) (tideData : TideData)
    (spotBestTide : BestTide) (before after : list TidePrediction)
    (reading : TidePrediction) :
  hourly tideData = before ++ reading :: after ->
  surfableToday getHours today tomorrow reading ->
  (forall other, other ∈ before ++ after ->
                 ~ surfableToday getHours today tomorrow other) ->
  calculateBestTimeWindow getHours today tomorrow tideData spotBestTide
  = Some {| TimeWindow.start := "6:00 AM"; TimeWindow.end_ := "9:00 AM";
            TimeWindow.reason := "Low tide + light morning winds" |}.
Proof.
  intros Hhourly Hreading Hothers.
  unfold calculateBestTimeWindow, findBestWindow. cbv zeta.
  unfold hourlyScores. rewrite Hhourly.
  destruct (before ++ reading :: after) as [|x rest] eqn:Hlist.
  { destruct before; discriminate. }
  rewrite <- Hlist. rewrite omap_app. cbn [omap list_omap].
  rewrite (omap_scorePrediction_nil getHours today tomorrow spotBestTide before)
    by (intros q Hq; apply Hothers; apply elem_of_app; now left).
  rewrite (omap_scorePrediction_nil getHours today tomorrow spotBestTide after)
    by (intros q Hq; apply Hothers; apply elem_of_app; now right).
  destruct (scorePrediction getHours today tomorrow spotBestTide reading) as [h|] eqn:Hh.
  - reflexivity.
  - apply scorePrediction_None in Hh. contradiction.
Qed.

Lemma calculateBestTimeWindow_single_hour_default_witness :
  let afternoon := {| time := 15 * 3600000; height := 4; type := None |} in
  let tideData := {| highLow := []; hourly := [afternoon] |} in
  hourly tideData = [] ++ afternoon :: [] /\
  surfableToday (fixedZoneHours 0) 0 86400000 afternoon /\
  calculateBestTimeWindow (fixedZoneHours 0) 0 86400000 tideData TideHigh
  = Some {| TimeWindow.start := "6:00 AM"; TimeWindow.end_ := "9:00 AM";
            TimeWindow.reason := "Low tide + light morning winds" |}.
Proof.
  intros afternoon tideData.
  assert (Hhourly : hourly tideData = [] ++ afternoon :: []) by reflexivity.
  assert (Hreading : surfableToday (fixedZoneHours 0) 0 86400000 afternoon)
    by (unfold surfableToday; vm_compute; repeat split; discriminate).
  assert (Hothers : forall other, other ∈ [] ++ [] ->
                      ~ surfableToday (fixedZoneHours 0) 0 86400000 other)
    by (intros other Hother; inversion Hother).
  split; [exact Hhourly|]. split; [exact Hreading|].
  exact (calculateBestTimeWindow_single_hour_default (fixedZoneHours 0) 0 86400000
           tideData TideHigh [] [] afternoon Hhourly Hreading Hothers).
Defined.

(** X11: the window found has the highest mean score: no run of two or of
    three consecutive entries of the surfable hours has a mean score above the
    one recorded for the result. *)
Theorem findBestWindow_highest_mean
    (getHours : Z -> Z) (today tomorrow : Z) (tideData : TideData)
    (spotBestTide : BestTide) (best : BestWindow.t) (windowSize i : nat) :
  findBestWindow getHours today tomorrow tideData spotBestTide = Some best ->
  windowSize = 2%nat \/ windowSize = 3%nat ->
  (i + windowSize
   <= length (hourlyScores getHours today tomorrow tideData spotBestTide))%nat ->
  windowMean (hourlyScores getHours today tomorrow tideData spotBestTide) windowSize i
    <= BestWindow.avgScore best.
Proof.
  unfold findBestWindow. cbv zeta.
  destruct (hourly tideData) eqn:Hhourly; [discriminate|].
  set (scores := hourlyScores getHours today tomorrow tideData spotBestTide).
  destruct scores as [|h rest] eqn:Hscores; [discriminate|].
  intros [= <-] Hsize Hbound. cbn [fold_left].
  destruct Hsize as [->| ->].
  - apply scanWindows_covers; [lia|exact Hbound].
  - eapply Qle_trans; [|apply scanWindows_keeps].
    apply scanWindows_covers; [lia|exact Hbound].
Qed.

Lemma findBestWindow_highest_mean_witness :
  exists best,
    findBestWindow (fixedZoneHours 0) 0 86400000 eveningTide TideHigh = Some best /\
    (2 = 2 \/ 2 = 3)%nat /\
    (0 + 2 <= length (hourlyScores (fixedZoneHours 0) 0 86400000 eveningTide TideHigh))%nat /\
    windowMean (hourlyScores (fixedZoneHours 0) 0 86400000 eveningTide TideHigh) 2 0
      <= BestWindow.avgScore best.
Proof.
  destruct (findBestWindow (fixedZoneHours 0) 0 86400000 eveningTide TideHigh)
    as [best|] eqn:Hbest; [|vm_compute in Hbest; discriminate].
  assert (Hsize : (2 = 2 \/ 2 = 3)%nat) by (left; reflexivity).
  assert (Hbound : (0 + 2 <= length (hourlyScores (fixedZoneHours 0) 0 86400000
                                      eveningTide TideHigh))%nat)
    by (vm_compute; lia).
  exists best. split; [reflexivity|]. split; [exact Hsize|]. split; [exact Hbound|].
  exact (findBestWindow_highest_mean (fixedZoneHours 0) 0 86400000 eveningTide TideHigh
           best 2 0 Hbest Hsize Hbound).
Defined.

(** ** The dawn patrol classification, further *)

Ltac dawn_prune :=
  unfold getDawnPatrolStatus, falsy, calculateLeaveBy, addMinutes; cbv zeta;
  cbn [from_option Datatypes.id];
  repeat (match goal with
          | |- context [(?a =? ?b)%Z] => destruct (Z.eqb_spec a b)
          | |- context [(?a <? ?b)%Z] => destruct (Z.ltb_spec a b)
          end; cbn [status leaveBy message dawnRank]; try lia).

(** X12: as the clock advances the label never goes back in the order
    too-early, leave-now, on-the-way, surfing, missed, for every sun-times
    record and every drive time that is absent or not negative. *)
Theorem getDawnPatrolStatus_never_goes_back
    (formatTime : Z -> string) (sunTimes : SunTimes) (driveMinutes : option Z)
    (now1 now2 : Z) :
  (forall minutes, driveMinutes = Some minutes -> (0 <= minutes)%Z) ->
  (now1 <= now2)%Z ->
  (dawnRank (status (getDawnPatrolStatus formatTime now1 sunTimes driveMinutes))
   <= dawnRank (status (getDawnPatrolStatus formatTime now2 sunTimes driveMinutes)))%Z.
Proof.
  intros Hdrive Hclock. destruct driveMinutes as [minutes|].
  - specialize (Hdrive minutes eq_refl). dawn_prune.
  - clear Hdrive. dawn_prune.
Qed.

Lemma getDawnPatrolStatus_never_goes_back_witness :
  (forall minutes, Some 20%Z = Some minutes -> (0 <= minutes)%Z) /\
  (20000000 <= 30000000)%Z /\
  (dawnRank (status (getDawnPatrolStatus (fun _ => "6:00 AM"%string) 20000000
                       sampleSunTimes (Some 20%Z)))
   <= dawnRank (status (getDawnPatrolStatus (fun _ => "6:00 AM"%string) 30000000
                          sampleSunTimes (Some 20%Z))))%Z.
Proof.
  assert (Hdrive : forall minutes, Some 20%Z = Some minutes -> (0 <= minutes)%Z)
    by (intros minutes [= <-]; lia).
  assert (Hclock : (20000000 <= 30000000)%Z) by lia.
  split; [exact Hdrive|]. split; [exact Hclock|].
  exact (getDawnPatrolStatus_never_goes_back (fun _ => "6:00 AM"%string) sampleSunTimes
           (Some 20%Z) 20000000 30000000 Hdrive Hclock).
Defined.

(** X13: with a positive drive time the arrival point is first light
    itself, and the five labels are the five stretches of the day cut at 40
    minutes plus the drive before first light, 10 minutes plus the drive
    before first light, first light, and sunset. *)
Theorem getDawnPatrolStatus_stretches
    (formatTime : Z -> string) (now : Z) (sunTimes : SunTimes) (minutes : Z) :
  (0 < minutes)%Z ->
  let label := status (getDawnPatrolStatus formatTime now sunTimes (Some minutes)) in
  let first := firstLight sunTimes in
  (label = TooEarly <-> (now < first - (minutes + 40) * 60000)%Z) /\
  (label = LeaveNow <->
   (first - (minutes + 40) * 60000 <= now < first - (minutes + 10) * 60000)%Z) /\
  (label = OnTheWay <-> (first - (minutes + 10) * 60000 <= now < first)%Z) /\
  (label = Surfing <-> (first <= now < sunset sunTimes)%Z) /\
  (label = Missed <-> (first <= now /\ sunset sunTimes <= now)%Z).
Proof.
  intros Hpos. cbv zeta.
  unfold getDawnPatrolStatus, falsy, calculateLeaveBy, addMinutes; cbv zeta;
    cbn [from_option Datatypes.id].
  destruct (Z.eqb_spec minutes 0) as [Hzero|_]; [lia|].
  repeat match goal with
  | |- context [(?a <? ?b)%Z] => destruct (Z.ltb_spec a b)
  end; cbn [status];
  repeat match goal with
  | |- _ /\ _ => split
  | |- _ <-> _ => split
  end; intros Hcase; first [discriminate Hcase | reflexivity | lia].
Qed.

Lemma getDawnPatrolStatus_stretches_witness :
  (0 < 20)%Z /\
  (status (getDawnPatrolStatus (fun _ => "6:00 AM"%string) 21000000 sampleSunTimes
             (Some 20%Z)) = OnTheWay <->
   (firstLight sampleSunTimes - (20 + 10) * 60000 <= 21000000
    < firstLight sampleSunTimes)%Z).
Proof.
  assert (Hpos : (0 < 20)%Z) by lia.
  split; [exact Hpos|].
  exact (proj1 (proj2 (proj2
           (getDawnPatrolStatus_stretches (fun _ => "6:00 AM"%string) 21000000
              sampleSunTimes 20 Hpos)))).
Defined.

(** X14: whenever the label is 'leave-now' the text reads "Leave in m min
    for dawn patrol!" with a whole number m of minutes from 0 to 30. *)
Theorem getDawnPatrolStatus_leave_now_minutes
    (formatTime : Z -> string) (now : Z) (sunTimes : SunTimes)
    (driveMinutes : option Z) :
  status (getDawnPatrolStatus formatTime now sunTimes driveMinutes) = LeaveNow ->
  exists m : Z,
    (0 <= m <= 30)%Z /\
    message (getDawnPatrolStatus formatTime now sunTimes driveMinutes)
    = ("Leave in " +:+ pretty m +:+ " min for dawn patrol!")%string.
Proof.
  unfold getDawnPatrolStatus, calculateLeaveBy, addMinutes; cbv zeta.
  destruct (falsy driveMinutes).
  - repeat match goal with
    | |- context [(?a <? ?b)%Z] => destruct (Z.ltb_spec a b)
    end; cbn [status]; discriminate.
  - set (leave := (firstLight sunTimes + _)%Z).
    destruct (Z.ltb_spec now (leave - 30 * 60 * 1000)) as [Hearly|Hlate];
      [cbn [status]; discriminate|].
    destruct (Z.ltb_spec now leave) as [Hbefore|Hafter].
    + intros _. cbn [message]. eexists. split; [|reflexivity].
      assert (Hlo : 0 <= inject_Z (leave - now) / 1000 / 60).
      { assert (0 <= inject_Z (leave - now))
          by (change 0 with (inject_Z 0); rewrite <- Zle_Qle; lia).
        unfold Qdiv. repeat apply Qmult_le_0_compat; try assumption;
          vm_compute; discriminate. }
      assert (Hhi : inject_Z (leave - now) / 1000 / 60 <= 30).
      { assert (Hdiff : inject_Z (leave - now) <= inject_Z 1800000)
          by (rewrite <- Zle_Qle; lia).
        change (inject_Z 1800000) with 1800000 in Hdiff.
        apply Qle_shift_div_r; [vm_compute; reflexivity|].
        apply Qle_shift_div_r; [vm_compute; reflexivity|]. lra. }
      split; [apply round_lower | apply round_upper]; assumption.
    + repeat match goal with
      | |- context [(?a <? ?b)%Z] => destruct (Z.ltb_spec a b)
      end; cbn [status]; discriminate.
Qed.

Lemma getDawnPatrolStatus_leave_now_minutes_witness :
  status (getDawnPatrolStatus (fun _ => "6:00 AM"%string) 19500000 sampleSunTimes
            (Some 20%Z)) = LeaveNow /\
  exists m : Z,
    (0 <= m <= 30)%Z /\
    message (getDawnPatrolStatus (fun _ => "6:00 AM"%string) 19500000 sampleSunTimes
               (Some 20%Z))
    = ("Leave in " +:+ pretty m +:+ " min for dawn patrol!")%string.
Proof.
  assert (Hlabel : status (getDawnPatrolStatus (fun _ => "6:00 AM"%string) 19500000
                             sampleSunTimes (Some 20%Z)) = LeaveNow)
    by (vm_compute; reflexivity).
  split; [exact Hlabel|].
  exact (getDawnPatrolStatus_leave_now_minutes (fun _ => "6:00 AM"%string) 19500000
           sampleSunTimes (Some 20%Z) Hlabel).
Defined.

(** ** Time until a target *)

Section Rounding.

Lemma round_negative x : (JS.round x < 0)%Z <-> x < - (1 # 2).
Proof.
  unfold JS.round. split.
  - intros Hneg. destruct (Qlt_le_dec x (- (1 # 2))) as [Hlt|Hge]; [exact Hlt|].
    exfalso. assert (Hfloor : (Qfloor 0 <= Qfloor (x + (1 # 2)))%Z)
      by (apply Qfloor_resp_le; lra).
    change (Qfloor 0) with 0%Z in Hfloor. lia.
  - intros Hlt. rewrite Zlt_Qlt. eapply Qle_lt_trans; [apply Qfloor_le|].
    change (inject_Z 0) with 0. lra.
Qed.

Lemma minutes_of_ms (ms : Z) : inject_Z ms / 1000 / 60 == inject_Z ms / 60000.
Proof. field. Qed.

Lemma div_lt_iff a b c : 0 < b -> (a / b < c <-> a < c * b).
Proof.
  intros Hb. split; intros Hlt.
  - assert (Ha : a == a / b * b) by (field; lra).
    rewrite Ha. apply Qmult_lt_compat_r; assumption.
  - apply Qlt_shift_div_r; assumption.
Qed.

Lemma minutes_lt (ms bound : Z) :
  inject_Z ms / 1000 / 60 < inject_Z bound <-> (ms < bound * 60000)%Z.
Proof.
  rewrite minutes_of_ms, Zlt_Qlt, inject_Z_mult. change (inject_Z 60000) with 60000.
  apply div_lt_iff. reflexivity.
Qed.

Lemma round_shift x (k : Z) : JS.round (x + inject_Z k) = (JS.round x + k)%Z.
Proof.
  unfold JS.round.
  assert (Hlo : inject_Z (Qfloor (x + (1 # 2)) + k) <= x + inject_Z k + (1 # 2)).
  { rewrite inject_Z_plus. pose proof (Qfloor_le (x + (1 # 2))). lra. }
  assert (Hhi : x + inject_Z k + (1 # 2) < inject_Z (Qfloor (x + (1 # 2)) + k + 1)).
  { rewrite !inject_Z_plus. pose proof (Qlt_floor (x + (1 # 2))) as Hlt.
    rewrite inject_Z_plus in Hlt. lra. }
  pose proof (Qfloor_le (x + inject_Z k + (1 # 2))) as Hfloor_le.
  pose proof (Qlt_floor (x + inject_Z k + (1 # 2))) as Hfloor_lt.
  assert (H1 : inject_Z (Qfloor (x + inject_Z k + (1 # 2)))
               < inject_Z (Qfloor (x + (1 # 2)) + k + 1)) by lra.
  assert (H2 : inject_Z (Qfloor (x + (1 # 2)) + k)
               < inject_Z (Qfloor (x + inject_Z k + (1 # 2)) + 1)) by lra.
  rewrite <- Zlt_Qlt in H1, H2. lia.
Qed.

End Rounding.

(** X15: [getTimeUntil] answers "passed" exactly when the target lies more
    than 30 seconds in the past (a target up to 30 seconds past reads
    "in 0 min"); below the hour it reads "in m min"; from the hour on it
    reads "in hh" or "in hh mm" with h at least 1 and m from 1 to 59,
    h hours and m minutes adding up to the rounded minutes. *)
Theorem getTimeUntil_shape (now targetTime : Z) :
  let total := JS.round (inject_Z (targetTime - now) / 1000 / 60) in
  (getTimeUntil now targetTime = "passed"%string <-> (targetTime - now < -30000)%Z) /\
  ((0 <= total < 60)%Z ->
   getTimeUntil now targetTime = ("in " +:+ pretty total +:+ " min")%string) /\
  ((60 <= total)%Z ->
   exists h m : Z,
     (1 <= h)%Z /\ (0 <= m < 60)%Z /\ total = (60 * h + m)%Z /\
     getTimeUntil now targetTime
     = if (m =? 0)%Z then ("in " +:+ pretty h +:+ "h")%string
       else ("in " +:+ pretty h +:+ "h " +:+ pretty m +:+ "m")%string).
Proof.
  cbv zeta. unfold getTimeUntil. cbv zeta.
  assert (Hneg : (JS.round (inject_Z (targetTime - now) / 1000 / 60) < 0)%Z
                 <-> (targetTime - now < -30000)%Z).
  { rewrite round_negative, minutes_of_ms, div_lt_iff by reflexivity.
    rewrite Zlt_Qlt. change (inject_Z (-30000)) with (-30000).
    split; intros Hlt; lra. }
  set (total := JS.round _) in *.
  split; [|split].
  - destruct (Z.ltb_spec total 0) as [Hlt|Hge].
    + split; [intros _; now apply Hneg|reflexivity].
    + split.
      * destruct (total <? 60)%Z; [|destruct (Z.rem total 60 =? 0)%Z];
          cbn [String.app]; discriminate.
      * intros Hpast. apply Hneg in Hpast. lia.
  - intros [Hlo Hhi].
    destruct (Z.ltb_spec total 0); [lia|]. destruct (Z.ltb_spec total 60); [|lia].
    reflexivity.
  - intros Hhour.
    destruct (Z.ltb_spec total 0); [lia|]. destruct (Z.ltb_spec total 60); [lia|].
    exists (total / 60)%Z, (Z.rem total 60).
    rewrite Z.rem_mod_nonneg by lia.
    pose proof (Z.div_mod total 60 ltac:(lia)) as Hdiv.
    pose proof (Z.mod_pos_bound total 60 ltac:(lia)) as Hmod.
    assert (1 <= total / 60)%Z by (apply Z.div_le_lower_bound; lia).
    repeat split; try lia.
Qed.

Lemma getTimeUntil_shape_witness :
  (60 <= JS.round (inject_Z (5400000 - 0) / 1000 / 60))%Z /\
  exists h m : Z,
    (1 <= h)%Z /\ (0 <= m < 60)%Z /\
    JS.round (inject_Z (5400000 - 0) / 1000 / 60) = (60 * h + m)%Z /\
    getTimeUntil 0 5400000
    = if (m =? 0)%Z then ("in " +:+ pretty h +:+ "h")%string
      else ("in " +:+ pretty h +:+ "h " +:+ pretty m +:+ "m")%string.
Proof.
  assert (Hhour : (60 <= JS.round (inject_Z (5400000 - 0) / 1000 / 60))%Z)
    by (vm_compute; discriminate).
  split; [exact Hhour|].
  exact (proj2 (proj2 (getTimeUntil_shape 0 5400000)) Hhour).
Defined.

(** ** Tide phase and next tides *)

Section TidePhaseFacts.

Lemma findPrevNext_prev now highLow init prev next :
  findPrevNext now highLow init = (Some prev, next) ->
  init = Some prev \/ (prev ∈ highLow /\ (time prev <= now)%Z).
Proof.
  revert init. induction highLow as [|tide rest IH]; intros init; simpl.
  - intros [= -> _]. now left.
  - destruct (Z.leb_spec (time tide) now) as [Hle|Hgt].
    + intros Hrun. apply IH in Hrun as [[= <-]|[Hin Htime]].
      * right. split; [left|exact Hle].
      * right. split; [now right|exact Htime].
    + intros [= -> _]. now left.
Qed.

Lemma findPrevNext_next now highLow init prev next :
  findPrevNext now highLow init = (prev, Some next) ->
  next ∈ highLow /\ (now < time next)%Z.
Proof.
  revert init. induction highLow as [|tide rest IH]; intros init; simpl.
  - discriminate.
  - destruct (Z.leb_spec (time tide) now) as [Hle|Hgt].
    + intros Hrun. apply IH in Hrun as [Hin Htime]. split; [now right|exact Htime].
    + intros [= _ <-]. split; [left|exact Hgt].
Qed.

Lemma findPrevNext_split now before after init :
  Forall (fun tide => (time tide <= now)%Z) before ->
  (forall next, head after = Some next -> (now < time next)%Z) ->
  findPrevNext now (before ++ after) init
  = (match last before with Some prev => Some prev | None => init end, head after).
Proof.
  intros Hbefore Hafter. revert init.
  induction Hbefore as [|tide rest Htide Hrest IH]; intros init.
  - destruct after as [|next after']; [reflexivity|].
    simpl. specialize (Hafter next eq_refl).
    destruct (Z.leb_spec (time next) now); [lia|reflexivity].
  - cbn [app findPrevNext]. destruct (Z.leb_spec (time tide) now); [|lia].
    rewrite IH, last_cons. destruct (last rest); reflexivity.
Qed.

Lemma minutes_test (ms : Z) :
  (inject_Z ms / 1000 / 60 <? 30) = (ms <? 1800000)%Z.
Proof.
  pose proof (minutes_lt ms 30) as Hiff. change (inject_Z 30) with 30 in Hiff.
  destruct (Z.ltb_spec ms 1800000) as [Hlt|Hge].
  - apply ltb_lt, Hiff. lia.
  - apply ltb_ge. apply Qnot_lt_le. intros Hlt. apply Hiff in Hlt. lia.
Qed.

End TidePhaseFacts.

(** X16: [getTidePhase] answers 'high' or 'low' only when an event of the
    series lies less than 30 minutes from the clock, and then with the tag of
    that event (an event that is not tagged 'H' counts as low). *)
Theorem getTidePhase_peak_near_event (now : Z) (tideData : TideData) :
  getTidePhase now tideData = PhaseHigh \/ getTidePhase now tideData = PhaseLow ->
  exists event,
    event ∈ highLow tideData /\
    (-1800000 < time event - now < 1800000)%Z /\
    getTidePhase now tideData = highOrLow event.
Proof.
  unfold getTidePhase.
  destruct (findPrevNext now (highLow tideData) None) as [prev next] eqn:Hrun.
  cbv zeta.
  assert (Hprev : forall p, prev = Some p -> p ∈ highLow tideData /\ (time p <= now)%Z).
  { intros p ->. apply findPrevNext_prev in Hrun as [Hinit|Hfound];
      [discriminate|exact Hfound]. }
  assert (Hnext : forall n, next = Some n -> n ∈ highLow tideData /\ (now < time n)%Z).
  { intros n ->. now apply findPrevNext_next in Hrun. }
  assert (Hfar : forall label,
             match prev with
             | Some p =>
                 if inject_Z (now - time p) / 1000 / 60 <? 30 then highOrLow p
                 else match type p with
                      | Some LowWater => PhaseRising
                      | _ => PhaseFalling
                      end
             | None => PhaseRising
             end = label ->
             label = PhaseHigh \/ label = PhaseLow ->
             exists event,
               event ∈ highLow tideData /\
               (-1800000 < time event - now < 1800000)%Z /\ label = highOrLow event).
  { intros label Hlabel Hpeak. destruct prev as [p|].
    - destruct (Hprev p eq_refl) as [Hin Htime].
      rewrite minutes_test in Hlabel.
      destruct (Z.ltb_spec (now - time p) 1800000) as [Hlt|Hge].
      + exists p. split; [exact Hin|]. split; [lia|congruence].
      + exfalso. destruct (type p) as [[|]|]; subst label;
          destruct Hpeak; discriminate.
    - exfalso. subst label. destruct Hpeak; discriminate. }
  destruct next as [n|].
  - destruct (Hnext n eq_refl) as [Hin Htime]. rewrite minutes_test.
    destruct (Z.ltb_spec (time n - now) 1800000) as [Hlt|Hge].
    + intros _. exists n. split; [exact Hin|]. split; [lia|reflexivity].
    + intros Hpeak. now apply Hfar.
  - intros Hpeak. now apply Hfar.
Qed.

Lemma getTidePhase_peak_near_event_witness :
  let high := {| time := 28800000; height := 5; type := Some HighWater |} in
  let low := {| time := 50400000; height := 1; type := Some LowWater |} in
  let tideData := {| highLow := [high; low]; hourly := [] |} in
  (getTidePhase 30000000 tideData = PhaseHigh \/
   getTidePhase 30000000 tideData = PhaseLow) /\
  exists event,
    event ∈ highLow tideData /\
    (-1800000 < time event - 30000000 < 1800000)%Z /\
    getTidePhase 30000000 tideData = highOrLow event.
Proof.
  intros high low tideData.
  assert (Hpeak : getTidePhase 30000000 tideData = PhaseHigh \/
                  getTidePhase 30000000 tideData = PhaseLow)
    by (left; vm_compute; reflexivity).
  split; [exact Hpeak|].
  exact (getTidePhase_peak_near_event 30000000 tideData Hpeak).
Defined.

(** X17: when the events at or before the clock come first in the series
    and neither the last of them nor the first later event is within 30
    minutes, [getTidePhase] answers 'rising' after an event tagged 'L',
    'falling' after any other event, and 'rising' when no event precedes the
    clock. *)
Theorem getTidePhase_between_events
    (now : Z) (tideData : TideData) (before after : list TidePrediction) :
  highLow tideData = before ++ after ->
  Forall (fun tide => (time tide <= now - 1800000)%Z) before ->
  Forall (fun tide => (now + 1800000 <= time tide)%Z) after ->
  getTidePhase now tideData =
  match last before with
  | Some prev =>
      match type prev with
      | Some LowWater => PhaseRising
      | _ => PhaseFalling
      end
  | None => PhaseRising
  end.
Proof.
  intros Hsplit Hbefore Hafter. unfold getTidePhase. rewrite Hsplit.
  rewrite (findPrevNext_split now before after None).
  - cbv zeta.
    assert (Hnext : match head after with
                    | Some n =>
                        if inject_Z (time n - now) / 1000 / 60 <? 30
                        then Some (highOrLow n) else None
                    | None => None
                    end = None).
    { destruct after as [|n after']; [reflexivity|]. cbn [head].
      apply Forall_cons in Hafter as [Hn _]. rewrite minutes_test.
      destruct (Z.ltb_spec (time n - now) 1800000); [lia|reflexivity]. }
    rewrite Hnext.
    destruct (last before) as [prev|] eqn:Hlast; [|reflexivity].
    rewrite Forall_forall in Hbefore.
    specialize (Hbefore prev (last_Some_elem_of _ _ Hlast)).
    rewrite minutes_test.
    destruct (Z.ltb_spec (now - time prev) 1800000); [lia|reflexivity].
  - eapply Forall_impl; [exact Hbefore|]. cbv beta. intros tide Htide. lia.
  - intros next Hhead. rewrite Forall_forall in Hafter.
    specialize (Hafter next (head_Some_elem_of _ _ Hhead)). lia.
Qed.

Lemma getTidePhase_between_events_witness :
  let high := {| time := 28800000; height := 5; type := Some HighWater |} in
  let low := {| time := 50400000; height := 1; type := Some LowWater |} in
  let tideData := {| highLow := [high; low]; hourly := [] |} in
  highLow tideData = [high] ++ [low] /\
  getTidePhase 40000000 tideData = PhaseFalling.
Proof.
  intros high low tideData.
  assert (Hsplit : highLow tideData = [high] ++ [low]) by reflexivity.
  assert (Hbefore : Forall (fun tide => (time tide <= 40000000 - 1800000)%Z) [high])
    by (repeat constructor; vm_compute; discriminate).
  assert (Hafter : Forall (fun tide => (40000000 + 1800000 <= time tide)%Z) [low])
    by (repeat constructor; vm_compute; discriminate).
  split; [exact Hsplit|].
  exact (getTidePhase_between_events 40000000 tideData [high] [low]
           Hsplit Hbefore Hafter).
Defined.

Lemma nextTidesLoop_first now highLow nextHigh nextLow :
  NextTides.nextHigh (nextTidesLoop now highLow nextHigh nextLow)
  = match nextHigh with
    | Some tide => Some tide
    | None => List.find (laterHigh now) highLow
    end /\
  NextTides.nextLow (nextTidesLoop now highLow nextHigh nextLow)
  = match nextLow with
    | Some tide => Some tide
    | None => List.find (laterLow now) highLow
    end.
Proof.
  revert nextHigh nextLow. induction highLow as [|tide rest IH]; intros nextHigh nextLow.
  - simpl. destruct nextHigh, nextLow; split; reflexivity.
  - cbn [nextTidesLoop List.find]. unfold laterHigh, laterLow.
    destruct (time tide >? now)%Z; cbn [andb].
    + destruct (type tide) as [[|]|], nextHigh as [high|], nextLow as [low|];
        cbn [NextTides.nextHigh NextTides.nextLow];
        try (split; reflexivity);
        match goal with
        | |- context [nextTidesLoop now rest ?h ?l] =>
            destruct (IH h l) as [-> ->]; split; reflexivity
        end.
    + apply IH.
Qed.

(** X18: [getNextTides] returns the first event of the series that is later
    than the clock and tagged 'H', and the first that is later and tagged
    'L'; each is null exactly when the series has no such event.  Breaking out
    of the loop once both are found loses nothing. *)
Theorem getNextTides_first_later (now : Z) (tideData : TideData) :
  NextTides.nextHigh (getNextTides now tideData)
    = List.find (laterHigh now) (highLow tideData) /\
  NextTides.nextLow (getNextTides now tideData)
    = List.find (laterLow now) (highLow tideData).
Proof. unfold getNextTides. apply (nextTidesLoop_first now (highLow tideData) None None). Qed.

(** ** Compass labels and the historical percentile, further *)

Section Compass.

(** The quotient of the code is a double; the doubles -15.5 and -0.5 bound
    it where the angle is bounded. *)
Lemma sector_nonneg degrees : - (11.25) <= degrees -> (0 <= JS.round (degrees ⊘ 22.5))%Z.
Proof.
  intros Hge. unfold JS.round. change 0%Z with (Qfloor 0). apply Qfloor_resp_le.
  assert (Hdiv : - (1 # 2) <= degrees / 22.5).
  { apply Qle_shift_div_l; [reflexivity|]. lra. }
  assert (Hhalf : Binary64.rnd (- (1 # 2)) == - (1 # 2)) by (vm_compute; reflexivity).
  pose proof (rnd_mono _ _ Hdiv) as Hrnd. unfold Binary64.div. lra.
Qed.

Lemma sector_lower degrees : - (348.75) <= degrees -> (-15 <= JS.round (degrees ⊘ 22.5))%Z.
Proof.
  intros Hge.
  assert (Hdiv : - (15.5) <= degrees / 22.5).
  { apply Qle_shift_div_l; [reflexivity|]. lra. }
  assert (Hleast : Binary64.rnd (- (15.5)) == - (15.5)) by (vm_compute; reflexivity).
  pose proof (rnd_mono _ _ Hdiv) as Hrnd.
  change (-15)%Z with (JS.round (- (15.5))). apply round_mono. unfold Binary64.div. lra.
Qed.

(** The double next below -11.25 is [-11.25 - 2 ^ -49]. *)
Lemma below_minus_11_25 degrees :
  Binary64.representable degrees -> degrees < - (11.25) ->
  degrees <= - (11.25) - (1 # 562949953421312).
Proof.
  intros Hdouble Hlt.
  destruct (Qlt_le_dec (-16) degrees) as [Hnear|Hfar]; [|lra].
  assert (Hbinade : Binary64.binade degrees = 3%Z).
  { apply binade_unique; change (2 ^ 3) with 8; change (2 ^ (3 + 1)) with 16;
      apply Qabs_case; intros Hsign; lra. }
  unfold Binary64.representable, Binary64.rnd in Hdouble.
  assert (Hulp : Binary64.ulp degrees = 1 # 562949953421312).
  { unfold Binary64.ulp. rewrite Hbinade. reflexivity. }
  rewrite Hulp in Hdouble.
  set (k := Binary64.nearestEven (degrees / (1 # 562949953421312))) in Hdouble.
  assert (Hk : (k < -6333186975989760)%Z).
  { rewrite Zlt_Qlt. change (inject_Z (-6333186975989760)) with (-6333186975989760). lra. }
  assert (Hk' : (k <= -6333186975989761)%Z) by lia.
  rewrite Zle_Qle in Hk'.
  change (inject_Z (-6333186975989761)) with (-6333186975989761) in Hk'. lra.
Qed.

Lemma sector_negative degrees :
  Binary64.representable degrees -> degrees < - (11.25) ->
  (JS.round (degrees ⊘ 22.5) < 0)%Z.
Proof.
  intros Hdouble Hlt. apply round_negative.
  pose proof (below_minus_11_25 degrees Hdouble Hlt) as Hbelow.
  assert (Hdiv : degrees / 22.5 <= (- (11.25) - (1 # 562949953421312)) / 22.5).
  { unfold Qdiv. apply Qmult_le_compat_r; [exact Hbelow|discriminate]. }
  assert (Hnext : Binary64.rnd ((- (11.25) - (1 # 562949953421312)) / 22.5) < - (1 # 2))
    by (vm_compute; reflexivity).
  pose proof (rnd_mono _ _ Hdiv) as Hrnd. unfold Binary64.div. lra.
Qed.

(** At a whole number of degrees the quotient is never within a ninetieth
    of a tie, and its rounding is that of the exact quotient. *)
Lemma sector_whole (n : Z) :
  (-1048576 <= n <= 1048576)%Z ->
  JS.round (inject_Z n ⊘ 22.5) = ((4 * n + 45) / 90)%Z.
Proof.
  intros Hn.
  pose proof (Z.div_mod (4 * n + 45) 90 ltac:(lia)) as Hdiv.
  pose proof (Z.mod_pos_bound (4 * n + 45) 90 ltac:(lia)) as Hmod.
  set (k := ((4 * n + 45) / 90)%Z) in *. set (r := ((4 * n + 45) mod 90)%Z) in *.
  assert (Hr : (1 <= r <= 89)%Z) by lia.
  assert (Hq : 4 * inject_Z n + 45 == 90 * inject_Z k + inject_Z r).
  { change 4 with (inject_Z 4). change 45 with (inject_Z 45). change 90 with (inject_Z 90).
    rewrite <- !inject_Z_mult, <- !inject_Z_plus. now rewrite Hdiv. }
  destruct Hn as [Hn0 Hn1]. destruct Hr as [Hr0 Hr1].
  rewrite Zle_Qle in Hn0, Hn1, Hr0, Hr1.
  change (inject_Z (-1048576)) with (-1048576) in Hn0.
  change (inject_Z 1048576) with 1048576 in Hn1.
  change (inject_Z 1) with 1 in Hr0. change (inject_Z 89) with 89 in Hr1.
  assert (Hy : inject_Z n / 22.5 == inject_Z n * (2 # 45)) by field.
  pose proof (rnd_error (inject_Z n / 22.5)) as [He1 He2].
  assert (Hu : Binary64.ulp (inject_Z n / 22.5) <= 2 ^ (16 - 52)).
  { apply ulp_le; [|lia]. change (2 ^ (16 + 1)) with 131072.
    apply Qabs_case; intros _; lra. }
  change (2 ^ (16 - 52)) with (1 # 68719476736) in Hu.
  pose proof (ulp_pos (inject_Z n / 22.5)) as Hpos.
  unfold Qdiv in He1, He2. change (/ 2) with (1 # 2) in He1, He2.
  fold (Qdiv (inject_Z n) 22.5) in He1, He2.
  unfold Binary64.div. apply round_unique; lra.
Qed.

Lemma getCardinalDirection_proper x y :
  x == y -> getCardinalDirection x = getCardinalDirection y.
Proof.
  intros Hxy. unfold getCardinalDirection, Binary64.div.
  rewrite (round_proper (Binary64.rnd (x / 22.5)) (Binary64.rnd (y / 22.5)));
    [reflexivity|].
  apply rnd_proper. now rewrite Hxy.
Qed.

End Compass.

(** X19: [getCardinalDirection] returns one of the sixteen labels for every
    angle from -11.25 degrees upwards; for a double from -348.75 up to, but
    not including, -11.25 degrees the index is negative and the result is
    undefined.  At a whole number of degrees from -11 upwards a full turn more
    gives the same label.  That does not hold of every angle: a full turn
    added to the double next below 11.25 gives 371.25, and 'N' becomes
    'NNE'. *)
Theorem getCardinalDirection_domain :
  (forall degrees,
     - (11.25) <= degrees ->
     exists label, getCardinalDirection degrees = Some label /\ label ∈ directions) /\
  (forall degrees,
     Binary64.representable degrees ->
     - (348.75) <= degrees -> degrees < - (11.25) ->
     getCardinalDirection degrees = None) /\
  (forall n : Z,
     (-11 <= n <= 1000000)%Z ->
     getCardinalDirection (inject_Z n ⊕ 360) = getCardinalDirection (inject_Z n)) /\
  (let degrees := 11.25 - (1 # 562949953421312) in
   Binary64.representable degrees /\
   getCardinalDirection degrees = Some "N"%string /\
   getCardinalDirection (degrees ⊕ 360) = Some "NNE"%string).
Proof.
  split; [|split; [|split]].
  - intros degrees Hge. pose proof (sector_nonneg degrees Hge) as Hsector.
    assert (Hindex : (0 <= Z.rem (JS.round (degrees ⊘ 22.5)) 16 < 16)%Z).
    { rewrite Z.rem_mod_nonneg by lia. apply Z.mod_pos_bound. lia. }
    unfold getCardinalDirection. cbv zeta.
    destruct (Z.ltb_spec (Z.rem (JS.round (degrees ⊘ 22.5)) 16) 0) as [Hneg|_]; [lia|].
    destruct (lookup_lt_is_Some_2 directions
                (Z.to_nat (Z.rem (JS.round (degrees ⊘ 22.5)) 16))) as [label Hlabel].
    { change (length directions) with 16%nat. lia. }
    exists label. split; [exact Hlabel|]. eapply list_elem_of_lookup_2. exact Hlabel.
  - intros degrees Hdouble Hlo Hhi. unfold getCardinalDirection. cbv zeta.
    pose proof (sector_negative degrees Hdouble Hhi) as Hupper.
    pose proof (sector_lower degrees Hlo) as Hlower.
    generalize dependent (JS.round (degrees ⊘ 22.5)). intros sector Hupper Hlower.
    assert (Hcases : In sector [-15; -14; -13; -12; -11; -10; -9; -8; -7; -6; -5; -4;
                                -3; -2; -1]%Z) by (simpl; lia).
    simpl in Hcases.
    repeat destruct Hcases as [<-|Hcases]; try reflexivity. destruct Hcases.
  - intros n Hn.
    assert (Hsum : inject_Z n ⊕ 360 == inject_Z (n + 360)).
    { unfold Binary64.add. change 360 with (inject_Z 360). rewrite <- inject_Z_plus.
      apply rnd_Z. lia. }
    rewrite (getCardinalDirection_proper _ _ Hsum).
    unfold getCardinalDirection. cbv zeta.
    rewrite !sector_whole by lia.
    replace ((4 * (n + 360) + 45) / 90)%Z with ((4 * n + 45) / 90 + 16)%Z
      by (rewrite <- (Z.div_add (4 * n + 45) 16 90) by lia; f_equal; lia).
    assert (Hsector : (0 <= (4 * n + 45) / 90)%Z) by (apply Z.div_pos; lia).
    rewrite !Z.rem_mod_nonneg by lia.
    replace (((4 * n + 45) / 90 + 16) mod 16)%Z with (((4 * n + 45) / 90) mod 16)%Z;
      [reflexivity|].
    symmetry. exact (Z_mod_plus_full ((4 * n + 45) / 90) 1 16).
  - cbv zeta. split; [vm_compute; reflexivity|]. split; vm_compute; reflexivity.
Qed.

Lemma getCardinalDirection_domain_witness :
  (Binary64.representable (- (45)) /\ - (348.75) <= - (45) /\ - (45) < - (11.25)) /\
  getCardinalDirection (- (45)) = None /\
  (-11 <= 90 <= 1000000)%Z /\
  getCardinalDirection (inject_Z 90 ⊕ 360) = getCardinalDirection (inject_Z 90).
Proof.
  assert (Hdouble : Binary64.representable (- (45))) by (vm_compute; reflexivity).
  assert (Hlo : - (348.75) <= - (45)) by (vm_compute; discriminate).
  assert (Hhi : - (45) < - (11.25)) by (vm_compute; reflexivity).
  assert (Hwhole : (-11 <= 90 <= 1000000)%Z) by lia.
  split; [repeat split; assumption|].
  split; [exact (proj1 (proj2 getCardinalDirection_domain) (- (45)) Hdouble Hlo Hhi)|].
  split; [exact Hwhole|].
  exact (proj1 (proj2 (proj2 getCardinalDirection_domain)) 90%Z Hwhole).
Defined.

Lemma clippedLine_monotone x y : x <= y -> clippedLine x <= clippedLine y.
Proof.
  intros Hle. unfold clippedLine, JS.max.
  destruct (-1 <? x) eqn:H1, (-1 <? y) eqn:H2; unfold JS.min;
    split_ifs; js_props; lra.
Qed.

(** X20: with a [tanh] that does not decrease, a higher score never gets a
    lower percentile within a month. *)
Theorem getHistoricalPercentile_monotone
    (tanh : Q -> Q) (month : Z) (score1 score2 : Q) (p1 p2 : Z) :
  (forall x y, x <= y -> tanh x <= tanh y) ->
  score1 <= score2 ->
  getHistoricalPercentile tanh month score1 = Some p1 ->
  getHistoricalPercentile tanh month score2 = Some p2 ->
  (p1 <= p2)%Z.
Proof.
  intros Htanh Hle. unfold getHistoricalPercentile.
  destruct (HISTORICAL_AVERAGES !! month) as [monthData|]; [|discriminate].
  cbn [mbind option_bind]. intros [= <-] [= <-].
  apply Z.max_le_compat_l, Z.min_le_compat_l, round_mono.
  assert (Hz : (score1 - MonthAverage.avgScore monthData) / 15 * 0.8
               <= (score2 - MonthAverage.avgScore monthData) / 15 * 0.8).
  { apply Qmult_le_compat_r; [|vm_compute; discriminate].
    unfold Qdiv. apply Qmult_le_compat_r; [lra|vm_compute; discriminate]. }
  pose proof (Htanh _ _ Hz). lra.
Qed.

Lemma getHistoricalPercentile_monotone_witness :
  (forall x y, x <= y -> clippedLine x <= clippedLine y) /\
  40 <= 70 /\
  getHistoricalPercentile clippedLine 5 40 = Some 37%Z /\
  getHistoricalPercentile clippedLine 5 70 = Some 99%Z /\
  (37 <= 99)%Z.
Proof.
  assert (Hle : 40 <= 70) by (vm_compute; discriminate).
  assert (H1 : getHistoricalPercentile clippedLine 5 40 = Some 37%Z)
    by (vm_compute; reflexivity).
  assert (H2 : getHistoricalPercentile clippedLine 5 70 = Some 99%Z)
    by (vm_compute; reflexivity).
  split; [exact clippedLine_monotone|]. split; [exact Hle|].
  split; [exact H1|]. split; [exact H2|].
  exact (getHistoricalPercentile_monotone clippedLine 5 40 70 37 99
           clippedLine_monotone Hle H1 H2).
Defined.

(** ** The week forecast *)

Section DayConditions.

Variable getHours : Z -> Z.
Variable getDay : Z -> Z.

Lemma scoreDayConditions_window date tideData spot sunTimes :
  Forecast.DayScore.bestTimeWindow
    (Forecast.scoreDayConditions getHours getDay date (Some tideData) spot sunTimes)
  = match Forecast.longestRun (idealTideHoursOf getHours tideData spot) with
    | Some run =>
        Some {| Forecast.Window.start := Forecast.formatHour (Forecast.Run.bestStart run);
                Forecast.Window.end_ :=
                  Forecast.formatHour (Z.min (Forecast.Run.bestEnd run + 1) 20) |}
    | None => None
    end.
Proof.
  unfold Forecast.scoreDayConditions, idealTideHoursOf. cbv zeta.
  repeat match goal with
  | |- context [let '(_, _) := (if ?b then _ else _) in _] => destruct b
  end; reflexivity.
Qed.

Lemma scoreDayConditions_score_range date tideData spot sunTimes :
  (35 <= Forecast.DayScore.score
           (Forecast.scoreDayConditions getHours getDay date tideData spot sunTimes)
      <= 100)%Z.
Proof.
  unfold Forecast.scoreDayConditions. cbv zeta.
  destruct tideData as [tideData|]; [|cbn; lia].
  repeat match goal with
  | |- context [let '(_, _) := (if ?b then _ else _) in _] => destruct b
  end; cbn [Forecast.DayScore.score]; lia.
Qed.

Lemma idealTideHoursOf_range tideData spot :
  Forall (fun hour => (6 <= hour <= 18)%Z) (idealTideHoursOf getHours tideData spot).
Proof.
  apply Forall_forall. intros hour Hhour. unfold idealTideHoursOf in Hhour.
  apply list_elem_of_omap in Hhour as (t & Ht & Hideal).
  apply list_elem_of_In, filter_In in Ht as [_ Hrange].
  destruct (Forecast.isTideIdealForSpot _ _); [|discriminate].
  injection Hideal as <-. js_bools. lia.
Qed.

Lemma idealTideHoursOf_nil tideData spot :
  idealTideHoursOf getHours tideData spot = [] <->
  forall t, t ∈ hourly tideData ->
            ~ ((6 <= getHours (time t) <= 18)%Z /\
               Forecast.isTideIdealForSpot (height t) (bestTide spot) = true).
Proof.
  unfold idealTideHoursOf. induction (hourly tideData) as [|t rest IH]; simpl.
  - split; [|reflexivity]. intros _ t Ht. inversion Ht.
  - destruct (_ && _) eqn:Hrange.
    + cbn [omap list_omap].
      destruct (Forecast.isTideIdealForSpot (height t) (bestTide spot)) eqn:Hideal.
      * split; [discriminate|]. intros Hall. exfalso. apply (Hall t); [left|].
        js_bools. split; [lia|exact Hideal].
      * rewrite IH. split.
        -- intros Hall q Hq. apply elem_of_cons in Hq as [->|Hq]; [|now apply Hall].
           intros [_ Hyes]. congruence.
        -- intros Hall q Hq. apply Hall. now right.
    + rewrite IH. split.
      * intros Hall q Hq. apply elem_of_cons in Hq as [->|Hq]; [|now apply Hall].
        intros [Hyes _]. js_bools; lia.
      * intros Hall q Hq. apply Hall. now right.
Qed.

Lemma runStep_in_range run hour :
  runInRange run -> (6 <= hour <= 18)%Z -> runInRange (Forecast.runStep run hour).
Proof.
  unfold runInRange, Forecast.runStep. intros Hrun Hhour.
  destruct (Z.eqb_spec hour (Forecast.Run.previous run + 1));
    [destruct (Z.gtb_spec (hour - Forecast.Run.currentStart run)
                 (Forecast.Run.bestEnd run - Forecast.Run.bestStart run))|];
    cbn; lia.
Qed.

Lemma longestRun_in_range hours run :
  Forall (fun hour => (6 <= hour <= 18)%Z) hours ->
  Forecast.longestRun hours = Some run -> runInRange run.
Proof.
  unfold Forecast.longestRun. destruct hours as [|first rest]; [discriminate|].
  intros Hhours [= <-]. apply Forall_cons in Hhours as [Hfirst Hrest].
  set (start := {| Forecast.Run.previous := first |}).
  assert (Hstart : runInRange start) by (unfold runInRange; cbn; lia).
  clearbody start. revert start Hstart.
  induction Hrest as [|hour rest Hhour Hrest IH]; intros start Hstart; simpl.
  - exact Hstart.
  - apply IH. now apply runStep_in_range.
Qed.

End DayConditions.

(** X21: the score of a day stays between 35 and 100, so its clamp to
    [0, 100] never applies, and a day with no tide data scores 50 with the
    analysis "Tide data unavailable" and no window. *)
Theorem scoreDayConditions_range
    (getHours getDay : Z -> Z) (date : Z) (tideData : option TideData)
    (spot : SpotConfig) (sunTimes : SunTimes) :
  (35 <= Forecast.DayScore.score
           (Forecast.scoreDayConditions getHours getDay date tideData spot sunTimes)
      <= 100)%Z /\
  Forecast.scoreDayConditions getHours getDay date None spot sunTimes
  = {| Forecast.DayScore.score := 50;
       Forecast.DayScore.analysis := "Tide data unavailable";
       Forecast.DayScore.bestTimeWindow := None |}.
Proof. split; [apply scoreDayConditions_score_range|reflexivity]. Qed.

(** X22: the window of a day is absent exactly when no reading at an hour
    from 6 to 18 has an ideal tide for the spot; when present it starts at an
    hour from 6 to 18 and ends later, at 19 at the latest, so the cap of the
    end at 20 never applies. *)
Theorem scoreDayConditions_window_hours
    (getHours getDay : Z -> Z) (date : Z) (tideData : TideData)
    (spot : SpotConfig) (sunTimes : SunTimes) :
  let result :=
    Forecast.scoreDayConditions getHours getDay date (Some tideData) spot sunTimes in
  (Forecast.DayScore.bestTimeWindow result = None <->
   forall t, t ∈ hourly tideData ->
             ~ ((6 <= getHours (time t) <= 18)%Z /\
                Forecast.isTideIdealForSpot (height t) (bestTide spot) = true)) /\
  (forall window,
     Forecast.DayScore.bestTimeWindow result = Some window ->
     exists startHour endHour,
       Forecast.Window.start window = Forecast.formatHour startHour /\
       Forecast.Window.end_ window = Forecast.formatHour endHour /\
       (6 <= startHour <= 18)%Z /\ (startHour < endHour <= 19)%Z).
Proof.
  cbv zeta. rewrite scoreDayConditions_window.
  pose proof (idealTideHoursOf_range getHours tideData spot) as Hrange.
  pose proof (idealTideHoursOf_nil getHours tideData spot) as Hnil.
  destruct (Forecast.longestRun (idealTideHoursOf getHours tideData spot))
    as [run|] eqn:Hrun.
  - apply (longestRun_in_range _ _ Hrange) in Hrun as Hin.
    destruct Hin as (H1 & H2 & H3 & _).
    split.
    + split; [discriminate|]. intros Hall. apply Hnil in Hall.
      rewrite Hall in Hrun. discriminate.
    + intros window [= <-].
      exists (Forecast.Run.bestStart run), (Z.min (Forecast.Run.bestEnd run + 1) 20).
      cbn [Forecast.Window.start Forecast.Window.end_]. repeat split; lia.
  - split.
    + split; [|reflexivity]. intros _. apply Hnil.
      unfold Forecast.longestRun in Hrun.
      destruct (idealTideHoursOf getHours tideData spot); [reflexivity|discriminate].
    + discriminate.
Qed.

Section WeekAnalysis.

Variable MoonInfo : Type.

(** The loop that picks the best day, on any list of days whose scores are
    above the initial [bestScore] of -1. *)
Lemma pickBest_first_highest (days : list (Forecast.DayForecast MoonInfo)) :
  (forall d, d ∈ days -> (-1 < Forecast.score d)%Z) -> days <> [] ->
  exists i best,
    fold_left Forecast.pickBest days (None, (-1)%Z)
      = (Some best, Forecast.score best) /\
    days !! i = Some best /\
    (forall d, d ∈ days -> (Forecast.score d <= Forecast.score best)%Z) /\
    (forall j d, (j < i)%nat -> days !! j = Some d ->
                 (Forecast.score d < Forecast.score best)%Z).
Proof.
  induction days as [|x front IH] using rev_ind; intros Hscores Hne; [congruence|].
  rewrite fold_left_app. cbn [fold_left].
  assert (Hx : (-1 < Forecast.score x)%Z)
    by (apply Hscores, elem_of_app; right; left).
  destruct front as [|y front'].
  - exists 0%nat, x. cbn [fold_left app]. unfold Forecast.pickBest. cbn [snd].
    destruct (Z.gtb_spec (Forecast.score x) (-1)); [|lia].
    split; [reflexivity|]. split; [reflexivity|]. split.
    + intros d Hd. apply elem_of_cons in Hd as [->|Hd]; [lia|inversion Hd].
    + intros j d Hj. lia.
  - destruct IH as (i & best & Hfold & Hi & Hmax & Hfirst).
    { intros d Hd. apply Hscores, elem_of_app. now left. }
    { discriminate. }
    rewrite Hfold. unfold Forecast.pickBest. cbn [snd].
    pose proof (lookup_lt_Some _ _ _ Hi) as Hbound.
    destruct (Z.gtb_spec (Forecast.score x) (Forecast.score best)) as [Hgt|Hle].
    + exists (length (y :: front')), x.
      split; [reflexivity|]. split; [apply list_lookup_middle; reflexivity|]. split.
      * intros d Hd. apply elem_of_app in Hd as [Hd|Hd].
        -- specialize (Hmax d Hd). lia.
        -- apply elem_of_cons in Hd as [->|Hd]; [lia|inversion Hd].
      * intros j d Hj Hd. rewrite lookup_app_l in Hd by exact Hj.
        specialize (Hmax d (list_elem_of_lookup_2 _ _ _ Hd)). lia.
    + exists i, best.
      split; [reflexivity|]. split; [rewrite lookup_app_l; assumption|]. split.
      * intros d Hd. apply elem_of_app in Hd as [Hd|Hd]; [now apply Hmax|].
        apply elem_of_cons in Hd as [->|Hd]; [lia|inversion Hd].
      * intros j d Hj Hd. rewrite lookup_app_l in Hd by lia.
        now apply (Hfirst j d).
Qed.

End WeekAnalysis.

(** X23: [analyzeWeek] returns seven days, each with a score from 35 to
    100, and a best day that is never null: it is a day of the week whose
    score no other day exceeds, and the earliest such day (every day before it
    scores strictly less). *)
Theorem analyzeWeek_best_day
    (getHours getDay : Z -> Z) (MoonInfo : Type) (dayAtNoon : Z -> nat -> Z)
    (formatDateKey : Z -> string) (sunTimesAt : SpotConfig -> Z -> SunTimes)
    (getMoonPhase : Z -> MoonInfo) (weekdayShort monthAndDay : Z -> string)
    (toLowerCase : string -> string)
    (tideDataByDay : gmap string TideData) (spot : SpotConfig) (startDate : Z) :
  let week :=
    Forecast.analyzeWeek getHours getDay MoonInfo dayAtNoon formatDateKey sunTimesAt
      getMoonPhase weekdayShort monthAndDay toLowerCase tideDataByDay spot startDate in
  length (Forecast.days week) = 7%nat /\
  (forall d, d ∈ Forecast.days week -> (35 <= Forecast.score d <= 100)%Z) /\
  exists i best,
    Forecast.bestDay week = Some best /\
    Forecast.days week !! i = Some best /\
    (forall d, d ∈ Forecast.days week -> (Forecast.score d <= Forecast.score best)%Z) /\
    (forall j d, (j < i)%nat -> Forecast.days week !! j = Some d ->
                 (Forecast.score d < Forecast.score best)%Z).
Proof.
  cbv zeta. unfold Forecast.analyzeWeek. cbv zeta.
  set (days := map _ (seq 0 7)).
  assert (Hrange : forall d, d ∈ days -> (35 <= Forecast.score d <= 100)%Z).
  { intros d Hd. subst days. apply list_elem_of_In, in_map_iff in Hd as (i & <- & _).
    unfold Forecast.forecastDay. cbv zeta. cbn [Forecast.score].
    apply scoreDayConditions_score_range. }
  destruct (pickBest_first_highest MoonInfo days) as (i & best & Hfold & Hi & Hmax & Hfirst).
  { intros d Hd. specialize (Hrange d Hd). lia. }
  { subst days. discriminate. }
  rewrite Hfold. cbn [Forecast.days Forecast.bestDay].
  split; [reflexivity|]. split; [exact Hrange|].
  exists i, best. auto.
Qed.

(** ** The best time window and the tide height, further *)

Section WindowOrigin.

Variable getHours : Z -> Z.
Variables today tomorrow : Z.

Lemma slice_head {A} i windowSize (l : list A) :
  (0 < windowSize)%nat -> head (slice i (i + windowSize) l) = l !! i.
Proof.
  intros Hpos. unfold slice. rewrite head_lookup, lookup_take_lt by lia.
  rewrite lookup_drop. f_equal. lia.
Qed.

Lemma slice_last {A} i windowSize (l : list A) :
  (0 < windowSize)%nat -> (i + windowSize <= length l)%nat ->
  last (slice i (i + windowSize) l) = l !! (i + windowSize - 1)%nat.
Proof.
  intros Hpos Hbound. rewrite last_lookup, slice_length by exact Hbound.
  unfold slice. rewrite lookup_take_lt by lia. rewrite lookup_drop. f_equal. lia.
Qed.

Lemma considerWindow_origin scores windowSize best i :
  windowSize = 2%nat \/ windowSize = 3%nat ->
  (i + windowSize <= length scores)%nat ->
  best = initialWindow \/ windowOfSeries scores best ->
  considerWindow scores windowSize best i = initialWindow \/
  windowOfSeries scores (considerWindow scores windowSize best i).
Proof.
  intros Hsize Hbound Hbest. unfold considerWindow. cbv zeta.
  destruct (_ >? _); [|exact Hbest].
  rewrite slice_head, slice_last by lia.
  destruct (scores !! i) as [first|] eqn:Hfirst; [|exact Hbest].
  destruct (scores !! (i + windowSize - 1)%nat) as [final|] eqn:Hfinal; [|exact Hbest].
  right. exists windowSize, i, first, final. cbn. auto.
Qed.

Lemma scanWindows_origin scores best windowSize :
  windowSize = 2%nat \/ windowSize = 3%nat ->
  best = initialWindow \/ windowOfSeries scores best ->
  scanWindows scores best windowSize = initialWindow \/
  windowOfSeries scores (scanWindows scores best windowSize).
Proof.
  intros Hsize. unfold scanWindows.
  assert (Hbounds : Forall (fun i => (i + windowSize <= length scores)%nat)
                      (seq 0 (S (length scores) - windowSize))).
  { apply Forall_forall. intros i Hi. apply list_elem_of_In, in_seq in Hi. lia. }
  revert best. induction Hbounds as [|i rest Hi Hrest IH]; intros best Hbest; simpl.
  - exact Hbest.
  - apply IH. now apply considerWindow_origin.
Qed.

Lemma scorePrediction_score bt p h :
  scorePrediction getHours today tomorrow bt p = Some h -> 10 <= HourlyScore.score h.
Proof.
  unfold scorePrediction. cbv zeta.
  destruct (_ || _); [discriminate|]. destruct (_ || _); [discriminate|].
  intros [= <-]. cbn [HourlyScore.score].
  assert (Htide : 0 <= inject_Z (scoreTideForWindow (height p) bt)).
  { change 0 with (inject_Z 0). rewrite <- Zle_Qle.
    unfold scoreTideForWindow. destruct bt; cbv zeta; split_ifs; lia. }
  assert (Hwind : 10 <= windPattern (getHours (time p))).
  { unfold windPattern. split_ifs; vm_compute; discriminate. }
  lra.
Qed.

Lemma first_pair_mean scores :
  Forall (fun h => 10 <= HourlyScore.score h) scores ->
  (2 <= length scores)%nat -> 0 < windowMean scores 2 0.
Proof.
  intros Hscores Hlen. unfold windowMean, slice.
  destruct scores as [|a [|b rest]]; simpl in Hlen; try lia.
  apply Forall_cons in Hscores as [Ha Hscores].
  apply Forall_cons in Hscores as [Hb _].
  simpl. cbv beta in Ha, Hb.
  change (inject_Z 2) with 2.
  apply Qlt_shift_div_l; [reflexivity|]. lra.
Qed.

End WindowOrigin.

(** X24: as soon as two readings are surfable, the window returned is never
    the initial one: it has a positive mean score and is cut from the
    surfable hours, starting at the hour of one entry and ending one hour
    past the entry found one or two places further. *)
Theorem findBestWindow_cut_from_series
    (getHours : Z -> Z) (today tomorrow : Z) (tideData : TideData)
    (spotBestTide : BestTide) (best : BestWindow.t) :
  findBestWindow getHours today tomorrow tideData spotBestTide = Some best ->
  (2 <= length (hourlyScores getHours today tomorrow tideData spotBestTide))%nat ->
  0 < BestWindow.avgScore best /\
  windowOfSeries (hourlyScores getHours today tomorrow tideData spotBestTide) best.
Proof.
  intros Hbest Hlen.
  assert (Hscores : Forall (fun h => 10 <= HourlyScore.score h)
                      (hourlyScores getHours today tomorrow tideData spotBestTide)).
  { apply Forall_forall. intros h Hh. unfold hourlyScores in Hh.
    apply list_elem_of_omap in Hh as (p & _ & Hp).
    now apply scorePrediction_score in Hp. }
  pose proof (first_pair_mean _ Hscores Hlen) as Hmean.
  revert Hbest. unfold findBestWindow. cbv zeta.
  destruct (hourly tideData) eqn:Hhourly; [discriminate|].
  set (scores := hourlyScores getHours today tomorrow tideData spotBestTide) in *.
  destruct scores as [|h rest] eqn:Hlist; [discriminate|].
  intros [= <-]. cbn [fold_left]. fold initialWindow.
  set (afterThree := scanWindows (h :: rest) initialWindow 3).
  pose proof (scanWindows_covers (h :: rest) afterThree 2 0 ltac:(lia) Hlen) as Hcover.
  assert (Hpositive : 0 < BestWindow.avgScore (scanWindows (h :: rest) afterThree 2))
    by lra.
  split; [exact Hpositive|].
  destruct (scanWindows_origin (h :: rest) afterThree 2) as [Hinitial|Horigin].
  - now left.
  - apply scanWindows_origin; [now right|now left].
  - rewrite Hinitial in Hpositive. cbn in Hpositive. lra.
  - exact Horigin.
Qed.

Lemma findBestWindow_cut_from_series_witness :
  exists best,
    findBestWindow (fixedZoneHours 0) 0 86400000 eveningTide TideHigh = Some best /\
    (2 <= length (hourlyScores (fixedZoneHours 0) 0 86400000 eveningTide TideHigh))%nat /\
    0 < BestWindow.avgScore best /\
    windowOfSeries (hourlyScores (fixedZoneHours 0) 0 86400000 eveningTide TideHigh) best.
Proof.
  destruct (findBestWindow (fixedZoneHours 0) 0 86400000 eveningTide TideHigh)
    as [best|] eqn:Hbest; [|vm_compute in Hbest; discriminate].
  assert (Hlen : (2 <= length (hourlyScores (fixedZoneHours 0) 0 86400000
                                 eveningTide TideHigh))%nat)
    by (vm_compute; lia).
  exists best. split; [reflexivity|]. split; [exact Hlen|].
  exact (findBestWindow_cut_from_series (fixedZoneHours 0) 0 86400000 eveningTide
           TideHigh best Hbest Hlen).
Defined.

Section Interpolation.

Lemma div_unit d r : 0 < r -> 0 <= d <= r -> 0 <= d / r <= 1.
Proof.
  intros Hr [Hlo Hhi]. split.
  - apply Qle_shift_div_l; [exact Hr|lra].
  - apply Qle_shift_div_r; [exact Hr|lra].
Qed.

Lemma interpolation_between a b t :
  0 <= t <= 1 -> JS.min a b <= a + t * (b - a) <= JS.max a b.
Proof.
  intros [Ht0 Ht1]. unfold JS.min, JS.max.
  destruct (Qlt_le_dec a b) as [Hab|Hba].
  - assert (H0 : 0 <= t * (b - a)) by (apply Qmult_le_0_compat; lra).
    assert (H1 : t * (b - a) <= 1 * (b - a)) by (apply Qmult_le_compat_r; lra).
    split_ifs; js_props; lra.
  - assert (H0 : 0 <= t * (a - b)) by (apply Qmult_le_0_compat; lra).
    assert (H1 : t * (a - b) <= 1 * (a - b)) by (apply Qmult_le_compat_r; lra).
    assert (Heq : t * (b - a) == - (t * (a - b))) by ring.
    split_ifs; js_props; lra.
Qed.

Lemma bracketLoop_Some now readings interpolated :
  bracketLoop now readings = Some interpolated ->
  exists i p q,
    readings !! i = Some p /\ readings !! S i = Some q /\
    (time p <= now < time q)%Z /\
    JS.min (height p) (height q) <= interpolated <= JS.max (height p) (height q).
Proof.
  induction readings as [|current rest IH]; [discriminate|].
  destruct rest as [|next rest']; [discriminate|].
  change (bracketLoop now (current :: next :: rest'))
    with (if (time current <=? now)%Z && (now <? time next)%Z
          then Some (height current
                     + inject_Z (now - time current) / inject_Z (time next - time current)
                       * (height next - height current))
          else bracketLoop now (next :: rest')).
  destruct (_ && _) eqn:Htest.
  - intros [= <-]. exists 0%nat, current, next.
    apply andb_true_iff in Htest as [Hle Hlt].
    apply Z.leb_le in Hle. apply Z.ltb_lt in Hlt.
    split; [reflexivity|]. split; [reflexivity|]. split; [lia|].
    apply interpolation_between. apply div_unit.
    + change 0 with (inject_Z 0). rewrite <- Zlt_Qlt. lia.
    + change 0 with (inject_Z 0). rewrite <- !Zle_Qle. lia.
  - intros Hrest. apply IH in Hrest as (i & p & q & Hp & Hq & Htime & Hband).
    exists (S i), p, q. auto.
Qed.

Lemma bracketLoop_None now readings :
  bracketLoop now readings = None ->
  forall i p q,
    readings !! i = Some p -> readings !! S i = Some q ->
    ~ (time p <= now < time q)%Z.
Proof.
  induction readings as [|current rest IH]; [intros _ i p q Hp; discriminate|].
  destruct rest as [|next rest'].
  - intros _ i p q Hp Hq. destruct i; discriminate.
  - change (bracketLoop now (current :: next :: rest'))
      with (if (time current <=? now)%Z && (now <? time next)%Z
            then Some (height current
                       + inject_Z (now - time current) / inject_Z (time next - time current)
                         * (height next - height current))
            else bracketLoop now (next :: rest')).
    destruct (_ && _) eqn:Htest; [discriminate|].
    intros Hrest [|i] p q Hp Hq.
    + injection Hp as <-. injection Hq as <-.
      apply andb_false_iff in Htest as [Hle|Hlt];
        [apply Z.leb_gt in Hle|apply Z.ltb_ge in Hlt]; lia.
    + now apply (IH Hrest i p q).
Qed.

End Interpolation.

(** X25: [getCurrentTideHeight] either interpolates between two neighbouring
    readings that bracket the clock, and then stays within the band between
    their two heights, or, when no neighbouring pair brackets the clock,
    returns the height of the first reading (0 for an empty series). *)
Theorem getCurrentTideHeight_band (now : Z) (tideData : TideData) :
  (exists i p q,
     hourly tideData !! i = Some p /\ hourly tideData !! S i = Some q /\
     (time p <= now < time q)%Z /\
     JS.min (height p) (height q) <= getCurrentTideHeight now tideData
       <= JS.max (height p) (height q)) \/
  ((forall i p q,
      hourly tideData !! i = Some p -> hourly tideData !! S i = Some q ->
      ~ (time p <= now < time q)%Z) /\
   getCurrentTideHeight now tideData
   = match hourly tideData with
     | first :: _ => height first
     | [] => 0
     end).
Proof.
  unfold getCurrentTideHeight.
  destruct (bracketLoop now (hourly tideData)) as [interpolated|] eqn:Hloop.
  - left. now apply bracketLoop_Some.
  - right. split; [now apply bracketLoop_None|reflexivity].
Qed.

(** X26: on a series in strictly increasing order of time,
    [getCurrentTideHeight] at the timestamp of any reading but the last
    returns the height of that reading, and both before the first reading and
    from the last reading on it returns the height of the first reading. *)
Theorem getCurrentTideHeight_increasing_series
    (tideData : TideData) (first : TidePrediction) (rest : list TidePrediction) :
  increasing (hourly tideData) ->
  hourly tideData = first :: rest ->
  (forall i p q,
     hourly tideData !! i = Some p -> hourly tideData !! S i = Some q ->
     getCurrentTideHeight (time p) tideData == height p) /\
  (forall now,
     (now < time first)%Z -> getCurrentTideHeight now tideData = height first) /\
  (forall now final,
     last (hourly tideData) = Some final -> (time final <= now)%Z ->
     getCurrentTideHeight now tideData = height first).
Proof.
  intros Hinc Hhourly. split; [|split].
  - intros i p q Hp Hq. now apply (getCurrentTideHeight_at_reading tideData i p q).
  - intros now Hnow. now apply (getCurrentTideHeight_before_first now tideData first rest).
  - intros now final Hlast Hnow.
    apply (getCurrentTideHeight_past_all now tideData first rest Hhourly).
    intros p Hp. apply list_elem_of_lookup_1 in Hp as [i Hi].
    rewrite last_lookup in Hlast.
    pose proof (lookup_lt_Some _ _ _ Hi) as Hbound.
    destruct (decide (i = pred (length (hourly tideData)))) as [->|Hne].
    + assert (p = final) by congruence. subst p. exact Hnow.
    + assert (Hle : (time p <= time final)%Z).
      { clear Hhourly. revert Hinc Hi Hlast Hbound Hne.
        generalize (hourly tideData). intros readings. revert i.
        induction readings as [|current others IH]; intros i Hinc Hi Hlast Hbound Hne;
          [discriminate|].
        destruct others as [|next others']; [simpl in *; lia|].
        destruct i as [|i].
        - injection Hi as <-.
          pose proof (increasing_head_le (next :: others') (length others') next final
                        (increasing_tail _ _ Hinc) eq_refl Hlast) as Hhead.
          destruct Hinc as [Hlt _]. lia.
        - apply (IH i (increasing_tail _ _ Hinc) Hi Hlast); simpl in *; lia. }
      lia.
Qed.

Lemma getCurrentTideHeight_increasing_series_witness :
  increasing (hourly twoReadings) /\
  hourly twoReadings = readingAtMidnight :: [readingAtOne] /\
  getCurrentTideHeight (time readingAtMidnight) twoReadings == height readingAtMidnight.
Proof.
  assert (Hinc : increasing (hourly twoReadings)) by (simpl; split; [reflexivity|exact I]).
  assert (Hhourly : hourly twoReadings = readingAtMidnight :: [readingAtOne])
    by reflexivity.
  split; [exact Hinc|]. split; [exact Hhourly|].
  exact (proj1 (getCurrentTideHeight_increasing_series twoReadings readingAtMidnight
                  [readingAtOne] Hinc Hhourly)
           0%nat readingAtMidnight readingAtOne eq_refl eq_refl).
Defined.
